(** * go-qbit/rpc: a shallow embedding of the method registry, the request
    pipeline and the schema introspection engine.

    Go strings are byte sequences: they are modelled by [string] (a list of
    [ascii] bytes).  Go's [int64] is modelled by [Z] with the wrap-around
    written out.  Go maps are [gmap]s.  A function that can panic returns an
    [outcome]; a function that recurses over a (possibly cyclic) type graph
    takes fuel and answers [OutOfFuel] when it is exhausted. *)

From Stdlib Require Import ZArith String Ascii List Lia DecimalString.
From Stdlib Require HexadecimalString.
From stdpp Require Import base gmap strings list.

Set Warnings "-register-all".

Local Open Scope string_scope.
Local Open Scope Z_scope.

(** ** Outcomes of Go calls *)

Inductive outcome (A : Type) : Type :=
| Done (a : A)
| Panic (msg : string)
| OutOfFuel.

Arguments Done {A} a.
Arguments Panic {A} msg.
Arguments OutOfFuel {A}.

Definition obind {A B : Type} (x : outcome A) (k : A -> outcome B) : outcome B :=
  match x with
  | Done a => k a
  | Panic msg => Panic msg
  | OutOfFuel => OutOfFuel
  end.

#[global] Instance outcome_bind : MBind outcome := fun A B k x => obind x k.
#[global] Instance outcome_ret : MRet outcome := @Done.

(** Go's [(T, error)] results. *)
Inductive result (A E : Type) : Type :=
| Ok (a : A)
| Err (e : E).

Arguments Ok {A E} a.
Arguments Err {A E} e.

(** ** Package [strings] *)

Module strings.

Definition len (s : string) : Z := Z.of_nat (String.length s).

Fixpoint drop (n : nat) (s : string) : string :=
  match n, s with
  | O, _ => s
  | S n', String _ s' => drop n' s'
  | S _, EmptyString => EmptyString
  end.

Fixpoint take (n : nat) (s : string) : string :=
  match n, s with
  | S n', String c s' => String c (take n' s')
  | _, _ => EmptyString
  end.

Fixpoint HasPrefix (s prefix : string) {struct prefix} : bool :=
  match prefix, s with
  | EmptyString, _ => true
  | String c prefix', String a s' => Ascii.eqb a c && HasPrefix s' prefix'
  | String _ _, EmptyString => false
  end.

Definition TrimPrefix (s prefix : string) : string :=
  if HasPrefix s prefix then drop (String.length prefix) s else s.

Definition HasSuffix (s suffix : string) : bool :=
  (String.length suffix <=? String.length s)%nat
  && String.eqb (drop (String.length s - String.length suffix) s) suffix.

Definition TrimSuffix (s suffix : string) : string :=
  if HasSuffix s suffix then take (String.length s - String.length suffix) s else s.

(** [s[i]]: [None] stands for the index-out-of-range panic. *)
Definition at_ (s : string) (i : Z) : option ascii :=
  if i <? 0 then None else String.get (Z.to_nat i) s.

(** [strings.Index]: the byte offset of the first occurrence, or -1. *)
Fixpoint Index (s substr : string) : Z :=
  if HasPrefix s substr then 0
  else match s with
       | EmptyString => -1
       | String _ s' => let i := Index s' substr in if i <? 0 then -1 else i + 1
       end.

Definition lowerByte (c : ascii) : ascii :=
  let n := nat_of_ascii c in
  if ((65 <=? n) && (n <=? 90))%nat then ascii_of_nat (n + 32) else c.

Definition upperByte (c : ascii) : ascii :=
  let n := nat_of_ascii c in
  if ((97 <=? n) && (n <=? 122))%nat then ascii_of_nat (n - 32) else c.

(** [strings.ToLower] on ASCII text (bytes above 127 are left alone). *)
Fixpoint ToLower (s : string) : string :=
  match s with
  | EmptyString => EmptyString
  | String c s' => String (lowerByte c) (ToLower s')
  end.

Fixpoint ToUpper (s : string) : string :=
  match s with
  | EmptyString => EmptyString
  | String c s' => String (upperByte c) (ToUpper s')
  end.

(** Splitting at one separator byte. *)
Fixpoint splitOn (c : ascii) (s : string) : list string :=
  match s with
  | EmptyString => [EmptyString]
  | String a s' =>
      if Ascii.eqb a c then EmptyString :: splitOn c s'
      else match splitOn c s' with
           | hd :: tl => String a hd :: tl
           | [] => [String a EmptyString]
           end
  end.

(** Splitting at a separator of any length: [skip] counts the bytes of the
    separator occurrence still to be passed over, [cur] is the piece being
    collected, reversed. *)
Fixpoint splitGen (sep s : string) (skip : nat) (cur : string) : list string :=
  match s with
  | EmptyString => [cur]
  | String a s' =>
      match skip with
      | S k => splitGen sep s' k cur
      | O =>
          if HasPrefix s sep
          then cur :: splitGen sep s' (String.length sep - 1) EmptyString
          else splitGen sep s' O (cur ++ String a EmptyString)
      end
  end.

Fixpoint explode (s : string) : list string :=
  match s with
  | EmptyString => []
  | String a s' => String a EmptyString :: explode s'
  end.

(** [strings.Split]. *)
Definition Split (s sep : string) : list string :=
  match sep with
  | EmptyString => explode s
  | String c EmptyString => splitOn c s
  | _ => splitGen sep s O EmptyString
  end.

Fixpoint Join (elems : list string) (sep : string) : string :=
  match elems with
  | [] => EmptyString
  | [e] => e
  | e :: rest => e ++ sep ++ Join rest sep
  end.

(** [strings.ReplaceAll] for a one-byte [old]. *)
Fixpoint replaceByte (old : ascii) (new : string) (s : string) : string :=
  match s with
  | EmptyString => EmptyString
  | String a s' =>
      if Ascii.eqb a old then new ++ replaceByte old new s'
      else String a (replaceByte old new s')
  end.

Definition isLetter (c : ascii) : bool :=
  let n := nat_of_ascii c in
  (((65 <=? n) && (n <=? 90)) || ((97 <=? n) && (n <=? 122)))%nat.

Definition isDigit (c : ascii) : bool :=
  let n := nat_of_ascii c in ((48 <=? n) && (n <=? 57))%nat.

(** [strings.Title] on ASCII text: the first letter of every word is
    upper-cased; letters, digits and underscores do not separate words. *)
Fixpoint titleFrom (prevSep : bool) (s : string) : string :=
  match s with
  | EmptyString => EmptyString
  | String a s' =>
      let sep := negb (isLetter a || isDigit a || Ascii.eqb a "_") in
      String (if prevSep then upperByte a else a) (titleFrom sep s')
  end.

Definition Title (s : string) : string := titleFrom true s.

End strings.

(** ** Package [regexp]: the fragment the package's own patterns use *)

Module regexp.

Inductive regex : Type :=
| Lit (s : string)            (* a literal *)
| Bol                         (* ^ *)
| Eol                         (* $ *)
| Digits                      (* \d+ *)
| Alt (r1 r2 : regex)
| Cat (r1 r2 : regex).

(** Every non-empty run of leading digits can be what [\d+] consumes. *)
Fixpoint digitRuns (s : string) : list string :=
  match s with
  | String a s' => if strings.isDigit a then s' :: digitRuns s' else []
  | EmptyString => []
  end.

(** All the ways [r] matches at the current position: [bol] says whether the
    position is the beginning of the text, the result lists what is left
    after each match, with the flag for the position reached. *)
Fixpoint matchHere (r : regex) (bol : bool) (s : string) : list (bool * string) :=
  match r with
  | Lit l =>
      if strings.HasPrefix s l
      then [(bol && String.eqb l EmptyString, strings.drop (String.length l) s)]
      else []
  | Bol => if bol then [(bol, s)] else []
  | Eol => if String.eqb s EmptyString then [(bol, s)] else []
  | Digits => map (fun rest => (false, rest)) (digitRuns s)
  | Alt r1 r2 => matchHere r1 bol s ++ matchHere r2 bol s
  | Cat r1 r2 =>
      flat_map (fun '(b, rest) => matchHere r2 b rest) (matchHere r1 bol s)
  end.

Definition matchesHere (r : regex) (bol : bool) (s : string) : bool :=
  match matchHere r bol s with
  | [] => false
  | _ :: _ => true
  end.

Fixpoint search (r : regex) (bol : bool) (s : string) : bool :=
  matchesHere r bol s
  || match s with
     | EmptyString => false
     | String _ s' => search r false s'
     end.

(** [Regexp.MatchString]: is there a match anywhere in [s]. *)
Definition MatchString (r : regex) (s : string) : bool := search r true s.

End regexp.

(** ** Accept-Encoding negotiation *)

Module header.

(** [regexp.MustCompile(`(?:^|,)gzip(?:,|$)`)] *)
Definition reGzip : regexp.regex :=
  regexp.Cat (regexp.Alt regexp.Bol (regexp.Lit ","))
    (regexp.Cat (regexp.Lit "gzip") (regexp.Alt (regexp.Lit ",") regexp.Eol)).

Definition CanGzip (ce : string) : bool := regexp.MatchString reGzip ce.

Definition isComma (b : option ascii) : bool :=
  match b with
  | Some c => Ascii.eqb c ","
  | None => false
  end.

(** Go's [&&] and [||] evaluate their right operand only when needed, so
    [ce[pos-1]] is read only when [pos > 0] and [ce[pos+4]] only when
    [pos+4 <> len(ce)]. *)
Definition CanGzipFast (ce : string) : bool :=
  let pos := strings.Index ce "gzip" in
  if pos <? 0 then false
  else if negb ((pos =? 0) || isComma (strings.at_ ce (pos - 1))) then false
  else (pos + 4 =? strings.len ce) || isComma (strings.at_ ce (pos + 4)).

(** The table of header_test.go. *)
Definition testCases : list (string * bool) :=
  [ ("", false); ("gzip", true); ("test,gzip", true); ("gzip,test", true);
    ("test,gzip,test", true); ("testgzip", false); ("gziptest", false);
    ("testgziptest", false); ("test,gziptest", false); ("testgzip,test", false);
    ("test,testgzip,test", false) ].

(** What the proofs about the matcher speak of: the first comma-separated
    token of [s], comma-free tokens, and "token [t], then a comma or the end". *)
Definition headTok (s : string) : string := hd "" (strings.splitOn "," s).

Fixpoint noComma (t : string) : bool :=
  match t with
  | EmptyString => true
  | String c t' => negb (Ascii.eqb c ",") && noComma t'
  end.

Definition tokHere (t s : string) : bool :=
  strings.HasPrefix s t
  && (strings.HasPrefix (strings.drop (String.length t) s) ","
      || String.eqb (strings.drop (String.length t) s) "").

End header.

(** ** Package [strconv] *)

Module strconv.

Inductive NumErr : Type := ErrSyntax | ErrRange.

(** The value of a run of decimal digits; [None] when a byte is no digit. *)
Fixpoint digitsValue (acc : Z) (s : string) : option Z :=
  match s with
  | EmptyString => Some acc
  | String c s' =>
      if strings.isDigit c
      then digitsValue (acc * 10 + (Z.of_nat (nat_of_ascii c) - 48)) s'
      else None
  end.

(** [strconv.ParseUint(s, 10, 64)] *)
Definition ParseUint (s : string) : result Z NumErr :=
  match s with
  | EmptyString => Err ErrSyntax
  | _ =>
      match digitsValue 0 s with
      | None => Err ErrSyntax
      | Some un => if un <? 2 ^ 64 then Ok un else Err ErrRange
      end
  end.

(** [strconv.ParseInt(s, 10, 64)]: an optional sign, then digits; the
    magnitude is cut off at 2^63 (2^63 itself is allowed below zero). *)
Definition ParseInt (s : string) : result Z NumErr :=
  match s with
  | EmptyString => Err ErrSyntax
  | String c s' =>
      let neg := Ascii.eqb c "-" in
      let body := if Ascii.eqb c "+" || Ascii.eqb c "-" then s' else s in
      match body with
      | EmptyString => Err ErrSyntax
      | _ =>
          match digitsValue 0 body with
          | None => Err ErrSyntax
          | Some un =>
              if negb neg && (2 ^ 63 <=? un) then Err ErrRange
              else if neg && (2 ^ 63 <? un) then Err ErrRange
              else Ok (if neg then - un else un)
          end
      end
  end.

(** [%d] of package fmt. *)
Definition FormatInt (z : Z) : string := NilZero.string_of_int (Z.to_int z).

Definition quote (s : string) : string :=
  String (ascii_of_nat 34) (s ++ String (ascii_of_nat 34) EmptyString).

(** [NumError.Error()], for text that needs no escaping. *)
Definition errorText (fn num : string) (e : NumErr) : string :=
  "strconv." ++ fn ++ ": parsing " ++ quote num ++ ": "
  ++ match e with
     | ErrSyntax => "invalid syntax"
     | ErrRange => "value out of range"
     end.

End strconv.

(** ** Package [reflect]: types as the package sees them *)

Module reflect.

Inductive Kind : Type :=
| Bool | Int | Int8 | Int16 | Int32 | Int64
| Uint | Uint8 | Uint16 | Uint32 | Uint64
| Float32 | Float64 | String
| Array | Chan | Func | Interface | Map | Ptr | Slice | Struct.

#[global] Instance Kind_eq_dec : EqDecision Kind.
Proof. solve_decision. Defined.

(** The predeclared boolean, numeric and string types. *)
Inductive basic : Type :=
| t_bool | t_int | t_int8 | t_int16 | t_int32 | t_int64
| t_uint | t_uint8 | t_uint16 | t_uint32 | t_uint64
| t_float32 | t_float64 | t_string.

#[global] Instance basic_eq_dec : EqDecision basic.
Proof. solve_decision. Defined.

Definition basicKind (b : basic) : Kind :=
  match b with
  | t_bool => Bool | t_int => Int | t_int8 => Int8 | t_int16 => Int16
  | t_int32 => Int32 | t_int64 => Int64
  | t_uint => Uint | t_uint8 => Uint8 | t_uint16 => Uint16 | t_uint32 => Uint32
  | t_uint64 => Uint64
  | t_float32 => Float32 | t_float64 => Float64 | t_string => String
  end.

Definition basicName (b : basic) : string :=
  match b with
  | t_bool => "bool" | t_int => "int" | t_int8 => "int8" | t_int16 => "int16"
  | t_int32 => "int32" | t_int64 => "int64"
  | t_uint => "uint" | t_uint8 => "uint8" | t_uint16 => "uint16"
  | t_uint32 => "uint32" | t_uint64 => "uint64"
  | t_float32 => "float32" | t_float64 => "float64" | t_string => "string"
  end.

(** A type.  Struct types are named by their key in the type table, so that
    a struct can refer to itself through a pointer, a slice or a map, as Go
    types can.  Interface and func types are opaque: a package path and a
    name ([interface{}] and [error] have the empty package path). *)
Inductive Type_ : Type :=
| TBasic (b : basic)
| TPtr (elem : Type_)
| TSlice (elem : Type_)
| TArray (elem : Type_)
| TMap (key elem : Type_)
| TChan (elem : Type_)
| TInterface (pkgPath name : string)
| TFunc (pkgPath name : string)
| TStruct (id : string).

#[global] Instance Type_eq_dec : EqDecision Type_.
Proof. solve_decision. Defined.

(** A struct tag, read as [StructTag.Lookup] reads a well-formed tag: the
    key/value pairs in the order they are written. *)
Definition StructTag : Type := list (string * string).

Fixpoint Lookup (tag : StructTag) (key : string) : option string :=
  match tag with
  | [] => None
  | (k, v) :: rest => if String.eqb k key then Some v else Lookup rest key
  end.

Definition Get (tag : StructTag) (key : string) : string :=
  match Lookup tag key with
  | Some v => v
  | None => EmptyString
  end.

Record StructField : Type := mkField {
  Name : string;
  Typ : Type_;
  Tag : StructTag
}.

(** A field is exported when its name begins with an upper-case letter. *)
Definition IsExported (f : StructField) : bool :=
  match Name f with
  | String.String c _ => let n := nat_of_ascii c in ((65 <=? n) && (n <=? 90))%nat
  | EmptyString => false
  end.

Record StructDef : Type := mkStruct {
  sPkgPath : string;
  sName : string;          (* empty for an anonymous struct *)
  sFields : list StructField
}.

(** The type table: the declarations of the program's struct types, by key.
    A key without a declaration stands for the empty struct. *)
Definition TypeEnv : Type := list (string * StructDef).

Definition emptyStruct : StructDef := mkStruct EmptyString EmptyString [].

Fixpoint structOf (env : TypeEnv) (id : string) : StructDef :=
  match env with
  | [] => emptyStruct
  | (k, d) :: rest => if String.eqb k id then d else structOf rest id
  end.

Definition kind (t : Type_) : Kind :=
  match t with
  | TBasic b => basicKind b
  | TPtr _ => Ptr
  | TSlice _ => Slice
  | TArray _ => Array
  | TMap _ _ => Map
  | TChan _ => Chan
  | TInterface _ _ => Interface
  | TFunc _ _ => Func
  | TStruct _ => Struct
  end.

(** [Type.Elem()]; it panics on a type that has no element type. *)
Definition Elem (t : Type_) : option Type_ :=
  match t with
  | TPtr e | TSlice e | TArray e | TMap _ e | TChan e => Some e
  | _ => None
  end.

Definition PkgPath (env : TypeEnv) (t : Type_) : string :=
  match t with
  | TStruct id => sPkgPath (structOf env id)
  | TInterface p _ | TFunc p _ => p
  | _ => EmptyString
  end.

Definition TypeName (env : TypeEnv) (t : Type_) : string :=
  match t with
  | TBasic b => basicName b
  | TStruct id => sName (structOf env id)
  | TInterface _ n | TFunc _ n => n
  | _ => EmptyString
  end.

(** The last element of a package path, as [Type.String()] prints it. *)
Definition pkgBase (p : string) : string := List.last (strings.Split p "/") EmptyString.

(** [Type.String()].  Anonymous structs print their key. *)
Fixpoint TypeString (env : TypeEnv) (t : Type_) : string :=
  match t with
  | TBasic b => basicName b
  | TPtr e => "*" ++ TypeString env e
  | TSlice e => "[]" ++ TypeString env e
  | TArray e => "[...]" ++ TypeString env e
  | TMap k e => "map[" ++ TypeString env k ++ "]" ++ TypeString env e
  | TChan e => "chan " ++ TypeString env e
  | TInterface p n | TFunc p n =>
      if String.eqb p EmptyString then
        (if String.eqb n EmptyString then "interface {}" else n)
      else pkgBase p ++ "." ++ n
  | TStruct id =>
      if String.eqb (sName (structOf env id)) EmptyString then id
      else pkgBase (sPkgPath (structOf env id)) ++ "." ++ sName (structOf env id)
  end.

(** One method of a type's method set: its name, the parameter types with
    the receiver first, and the result types. *)
Record Method (F : Type) : Type := mkMethod {
  mName : string;
  mIn : list Type_;
  mOut : list Type_;
  mFunc : F
}.

Arguments mkMethod {F} _ _ _ _.
Arguments mName {F} _.
Arguments mIn {F} _.
Arguments mOut {F} _.
Arguments mFunc {F} _.

End reflect.

(** ** Package [openapi] *)

Module openapi.

(** [Minimum] and [Maximum] hold an [interface{}]: an int64 or a uint64. *)
Inductive bound : Type :=
| I64 (v : Z)
| U64 (v : Z).

Inductive Schema : Type := mkSchema {
  Ref : string;
  Description : string;
  Type_ : string;
  Format : string;
  Properties : option (gmap string Schema);    (* [None]: a nil map *)
  Items : option Schema;
  Minimum : option bound;
  Maximum : option bound;
  Pattern : string
}.

Definition empty : Schema :=
  mkSchema EmptyString EmptyString EmptyString EmptyString None None None None EmptyString.

Definition withType (ty fmt : string) : Schema :=
  mkSchema EmptyString EmptyString ty fmt None None None None EmptyString.

Definition setDescription (d : string) (s : Schema) : Schema :=
  mkSchema (Ref s) d (Type_ s) (Format s) (Properties s) (Items s) (Minimum s) (Maximum s) (Pattern s).

Definition setMinimum (b : bound) (s : Schema) : Schema :=
  mkSchema (Ref s) (Description s) (Type_ s) (Format s) (Properties s) (Items s) (Some b) (Maximum s) (Pattern s).

Definition setMaximum (b : bound) (s : Schema) : Schema :=
  mkSchema (Ref s) (Description s) (Type_ s) (Format s) (Properties s) (Items s) (Minimum s) (Some b) (Pattern s).

Definition setPattern (p : string) (s : Schema) : Schema :=
  mkSchema (Ref s) (Description s) (Type_ s) (Format s) (Properties s) (Items s) (Minimum s) (Maximum s) p.

End openapi.

(** ** Package [os]: temporary files *)

Module os.

(** The temporary directory, the open files (each with its read/write
    offset), the number of files [CreateTemp] has made so far (names are
    never reused), and the faults the file system answers with. *)
Record FS : Type := mkFS {
  files : gmap string string;
  handles : gmap string Z;
  created : nat;
  failCreate : bool;
  failWrite : bool;
  failSeek : bool
}.

Definition healthy : FS := mkFS ∅ ∅ 0 false false false.

Definition tempName (pattern : string) (n : nat) : string :=
  pattern ++ NilZero.string_of_uint (Nat.to_uint n).

(** [os.CreateTemp("", pattern)]: a new, empty, open file. *)
Definition CreateTemp (pattern : string) (fs : FS) : result string string * FS :=
  if failCreate fs then (Err "open: no space left on device", fs)
  else
    let name := tempName pattern (created fs) in
    (Ok name,
     mkFS (<[name := EmptyString]> (files fs)) (<[name := 0]> (handles fs))
       (S (created fs)) (failCreate fs) (failWrite fs) (failSeek fs)).

(** Writing [data] at the end of an open file. *)
Definition Write (name data : string) (fs : FS) : option string * FS :=
  match handles fs !! name, files fs !! name with
  | Some off, Some old =>
      if failWrite fs then (Some "write: no space left on device", fs)
      else
        (None,
         mkFS (<[name := old ++ data]> (files fs))
           (<[name := off + strings.len data]> (handles fs))
           (created fs) (failCreate fs) (failWrite fs) (failSeek fs))
  | _, _ => (Some "write: file already closed", fs)
  end.

(** [f.Seek(0, 0)] *)
Definition SeekStart (name : string) (fs : FS) : option string * FS :=
  match handles fs !! name with
  | Some _ =>
      if failSeek fs then (Some "seek: input/output error", fs)
      else
        (None,
         mkFS (files fs) (<[name := 0]> (handles fs))
           (created fs) (failCreate fs) (failWrite fs) (failSeek fs))
  | None => (Some "seek: file already closed", fs)
  end.

(** [f.Close()] *)
Definition Close (name : string) (fs : FS) : option string * FS :=
  match handles fs !! name with
  | Some _ =>
      (None,
       mkFS (files fs) (delete name (handles fs))
         (created fs) (failCreate fs) (failWrite fs) (failSeek fs))
  | None => (Some "close: file already closed", fs)
  end.

(** [os.Remove(name)] *)
Definition Remove (name : string) (fs : FS) : option string * FS :=
  match files fs !! name with
  | Some _ =>
      (None,
       mkFS (delete name (files fs)) (handles fs)
         (created fs) (failCreate fs) (failWrite fs) (failSeek fs))
  | None => (Some "remove: no such file or directory", fs)
  end.

(** [f.Stat()] then [Size()]; [None] when there is nothing to stat. *)
Definition StatSize (name : string) (fs : FS) : option Z :=
  match files fs !! name with
  | Some content => Some (strings.len content)
  | None => None
  end.

(** What is left to read from an open file. *)
Definition ReadAll (name : string) (fs : FS) : option string :=
  match handles fs !! name, files fs !! name with
  | Some off, Some content => Some (strings.drop (Z.to_nat off) content)
  | _, _ => None
  end.

End os.

(** ** Package [htb] *)

Module htb.

Definition paddingSize : nat := 32.

Definition characters : string :=
  "abcdefghijklmnopqrstuvwxyzABCDEFGHIJKLMNOPQRSTUVWXYZ0123456789".

Definition length : Z := strings.len characters.

(** [rand.Int(rand.Reader, max)]: the source of randomness is a parameter of
    the model, known by what its draws answer, the first one being draw 0. *)
Definition Rand : Type := nat -> result Z string.

(** The loop of [RandomString]: [n] bytes from the draw [i] on. *)
Fixpoint fill (rand : Rand) (i n : nat) : outcome string :=
  match n with
  | O => Done EmptyString
  | S n' =>
      match rand i with
      | Err e => Panic e
      | Ok k =>
          match strings.at_ characters k with
          | None => Panic "index out of range"
          | Some c => rest ← fill rand (S i) n'; Done (String c rest)
          end
      end
  end.

(** [RandomString] *)
Definition RandomString (rand : Rand) : outcome string := fill rand 0 paddingSize.

End htb.

(** ** Package [rpc] *)

Module rpc.

Import reflect.

Definition pkgPath : string := "github.com/go-qbit/rpc".

(** *** Files (file.go) *)

(** The two implementations of [File]: a buffer in memory, and a temporary
    file on disk known by its name. *)
Inductive File : Type :=
| buffer (b : string) (filename : string)
| tmpFile (name : string) (filename : string).

(** [buffer.Size]: the length of the unread part of the buffer;
    [tmpFile.Size]: the size [Stat] reports (a failed [Stat] leaves a nil
    [FileInfo], and calling [Size] on it panics). *)
Definition Size (f : File) (fs : os.FS) : outcome Z :=
  match f with
  | buffer b _ => Done (strings.len b)
  | tmpFile name _ =>
      match os.StatSize name fs with
      | Some n => Done n
      | None => Panic "invalid memory address or nil pointer dereference"
      end
  end.

Definition FileName (f : File) : string :=
  match f with
  | buffer _ filename => filename
  | tmpFile _ filename => filename
  end.

(** [buffer.Close] does nothing; [tmpFile.Close] closes the file and, when
    that succeeded, removes it. *)
Definition Close (f : File) (fs : os.FS) : option string * os.FS :=
  match f with
  | buffer _ _ => (None, fs)
  | tmpFile name _ =>
      match os.Close name fs with
      | (Some e, fs') => (Some e, fs')
      | (None, fs') => os.Remove name fs'
      end
  end.

(** What a reader gets from the file. *)
Definition ReadAll (f : File) (fs : os.FS) : option string :=
  match f with
  | buffer b _ => Some b
  | tmpFile name _ => os.ReadAll name fs
  end.

(** *** Values *)

(** The values a request or a response is made of.  A number carries the
    predeclared type it has. *)
Inductive Value : Type :=
| VNil                                   (* a nil pointer, slice, map or interface *)
| VBool (b : bool)
| VNum (t : basic) (n : Z)
| VString (s : string)
| VPtr (v : Value)
| VSlice (l : list Value)
| VStruct (fields : list Value)
| VFile (f : File).

(** *** Errors (error.go) *)

Record Error : Type := mkError {
  Code : string;
  Message : string;
  Data : option Value
}.

(** Go's [error] values: [io.EOF], a [*rpc.Error], or any other error. *)
Inductive error : Type :=
| EOF
| rpcError (e : Error)
| otherError (msg : string).

Definition errorText (e : error) : string :=
  match e with
  | EOF => "EOF"
  | rpcError e => "[" ++ Code e ++ "] " ++ Message e
  | otherError msg => msg
  end.

(** *** Constraint rules (validators.go) *)

(** [regexp.Compile] and [Regexp.MatchString] for the patterns that tags
    declare: the regular-expression engine is a parameter of the model. *)
Class Regexp : Type := {
  compileError : string -> option string;
  matchString : string -> string -> bool
}.

Inductive validator : Type :=
| vMinimumInt
| vMinimumUint
| vMaximumInt
| vPattern.

(** A compiled predicate: the closure [GetValidateFunc] returns, with the
    field and the parsed bound it captured. *)
Inductive validateFunc : Type :=
| minimumIntFunc (f : StructField) (targetVal : Z)
| minimumUintFunc (f : StructField) (targetVal : Z)
| maximumIntFunc (f : StructField) (targetVal : Z)
| patternFunc (f : StructField) (pattern : string).

(** The name a message gives the field: its [json] tag when it has one. *)
Definition messageName (f : StructField) : string :=
  match Lookup (Tag f) "json" with
  | Some tag => tag
  | None => Name f
  end.

Definition intValue (v : Value) : option Z :=
  match v with
  | VNum t_int n | VNum t_int8 n | VNum t_int16 n | VNum t_int32 n | VNum t_int64 n => Some n
  | _ => None
  end.

Definition uintValue (v : Value) : option Z :=
  match v with
  | VNum t_uint n | VNum t_uint8 n | VNum t_uint16 n | VNum t_uint32 n | VNum t_uint64 n => Some n
  | _ => None
  end.

Section Validators.

Context {re : Regexp}.

(** [GetValue] of the four rules: the parsed tag, [None] when the tag is
    absent, an error when it does not parse. *)
Definition minimumIntValue (f : StructField) : result (option Z) string :=
  match Lookup (Tag f) "minimum" with
  | Some t =>
      match strconv.ParseInt t with
      | Ok v => Ok (Some v)
      | Err e => Err (strconv.errorText "ParseInt" t e)
      end
  | None => Ok None
  end.

Definition minimumUintValue (f : StructField) : result (option Z) string :=
  match Lookup (Tag f) "minimum" with
  | Some t =>
      match strconv.ParseUint t with
      | Ok v => Ok (Some v)
      | Err e => Err (strconv.errorText "ParseUint" t e)
      end
  | None => Ok None
  end.

Definition maximumIntValue (f : StructField) : result (option Z) string :=
  match Lookup (Tag f) "maximum" with
  | Some t =>
      match strconv.ParseInt t with
      | Ok v => Ok (Some v)
      | Err e => Err (strconv.errorText "ParseInt" t e)
      end
  | None => Ok None
  end.

Definition patternValue (f : StructField) : result string string :=
  match Lookup (Tag f) "pattern" with
  | Some t =>
      match compileError t with
      | Some e => Err e
      | None => Ok t
      end
  | None => Ok EmptyString
  end.

(** [ToSwaggerSchema] *)
Definition ToSwaggerSchema (v : validator) (f : StructField) (schema : openapi.Schema)
  : result openapi.Schema string :=
  match v with
  | vMinimumInt =>
      match minimumIntValue f with
      | Err e => Err e
      | Ok (Some val) => Ok (openapi.setMinimum (openapi.I64 val) schema)
      | Ok None => Ok schema
      end
  | vMinimumUint =>
      match minimumUintValue f with
      | Err e => Err e
      | Ok (Some val) => Ok (openapi.setMinimum (openapi.U64 val) schema)
      | Ok None => Ok schema
      end
  | vMaximumInt =>
      match maximumIntValue f with
      | Err e => Err e
      | Ok (Some val) => Ok (openapi.setMinimum (openapi.I64 val) schema)
      | Ok None => Ok schema
      end
  | vPattern =>
      match patternValue f with
      | Err e => Err e
      | Ok val => if String.eqb val EmptyString then Ok schema
                  else Ok (openapi.setPattern val schema)
      end
  end.

(** [GetValidateFunc]: [Ok None] is the nil func of a field without the tag. *)
Definition GetValidateFunc (v : validator) (f : StructField)
  : result (option validateFunc) string :=
  match v with
  | vMinimumInt =>
      match minimumIntValue f with
      | Err e => Err e
      | Ok None => Ok None
      | Ok (Some targetVal) => Ok (Some (minimumIntFunc f targetVal))
      end
  | vMinimumUint =>
      match minimumUintValue f with
      | Err e => Err e
      | Ok None => Ok None
      | Ok (Some targetVal) => Ok (Some (minimumUintFunc f targetVal))
      end
  | vMaximumInt =>
      match maximumIntValue f with
      | Err e => Err e
      | Ok None => Ok None
      | Ok (Some targetVal) => Ok (Some (maximumIntFunc f targetVal))
      end
  | vPattern =>
      match patternValue f with
      | Err e => Err e
      | Ok pattern =>
          if String.eqb pattern EmptyString then Ok None
          else Ok (Some (patternFunc f pattern))
      end
  end.

(** Running a compiled predicate on a field value: [Done None] is the nil
    error.  The type switches panic on a value of another type. *)
Definition validate (vf : validateFunc) (v : Value) : outcome (option string) :=
  match vf with
  | minimumIntFunc f targetVal =>
      match intValue v with
      | None => Panic "Unknown int type"
      | Some intVal =>
          if intVal <? targetVal
          then Done (Some (messageName f ++ "=" ++ strconv.FormatInt intVal
                           ++ " is less than requred minimum " ++ strconv.FormatInt targetVal))
          else Done None
      end
  | minimumUintFunc f targetVal =>
      match uintValue v with
      | None => Panic "Unknown int type"
      | Some uintVal =>
          if uintVal <? targetVal
          then Done (Some (messageName f ++ "=" ++ strconv.FormatInt uintVal
                           ++ " is less than requred minimum " ++ strconv.FormatInt targetVal))
          else Done None
      end
  | maximumIntFunc f targetVal =>
      match intValue v with
      | None => Panic "Unknown int type"
      | Some intVal =>
          if targetVal <? intVal
          then Done (Some (messageName f ++ "=" ++ strconv.FormatInt intVal
                           ++ " is greater than requred maximum " ++ strconv.FormatInt targetVal))
          else Done None
      end
  | patternFunc f pattern =>
      match v with
      | VString val =>
          if negb (matchString pattern val)
          then
            let shown := if (25 <? String.length val)%nat
                         then strings.take 22 val ++ "..." else val in
            Done (Some (messageName f ++ "=" ++ shown
                        ++ " does not match the pattern " ++ pattern))
          else Done None
      | _ => Panic "interface conversion: interface {} is not string"
      end
  end.

End Validators.

Definition intValidators : list validator := [vMinimumInt; vMaximumInt].
Definition uintValidators : list validator := [vMinimumUint; vMinimumUint].

(** The predeclared signed and unsigned integer types. *)
Definition signedInt (t : Type_) : Prop :=
  t = TBasic t_int \/ t = TBasic t_int8 \/ t = TBasic t_int16 \/ t = TBasic t_int32
  \/ t = TBasic t_int64.


(** The rules bound to each kind; a kind without an entry has none. *)
Definition validators (k : Kind) : list validator :=
  match k with
  | Int | Int8 | Int16 | Int32 | Int64 => intValidators
  | Uint | Uint8 | Uint16 | Uint32 | Uint64 => uintValidators
  | String => [vPattern]
  | _ => []
  end.

(** *** The documentation projection (swagger.go) *)

(** The [File] interface type, which the source obtains by reflection on a nil
    pointer to [File]. *)
Definition fileType : Type_ := TInterface pkgPath "File".

Abbreviation Storage := (gmap string openapi.Schema) (only parsing).

Section Swagger.

Context {re : Regexp}.
Variable env : TypeEnv.
Variable trimPrefix : string.

(** [Rpc.typeName] *)
Definition typeName (t : Type_) : string :=
  let t := match t with TPtr e => e | _ => t end in
  let name := strings.TrimPrefix (PkgPath env t) trimPrefix ++ "/" ++ TypeName env t in
  let name := strings.TrimPrefix name "/" in
  let name := strings.replaceByte "/" "_" name in
  let name := strings.replaceByte "." "_" name in
  let name := strings.replaceByte "-" "_" name in
  strings.ToLower name.

Fixpoint addRestrictions (vs : list validator) (f : StructField) (schema : openapi.Schema)
  : result openapi.Schema string :=
  match vs with
  | [] => Ok schema
  | v :: rest =>
      match ToSwaggerSchema v f schema with
      | Err e => Err e
      | Ok schema' => addRestrictions rest f schema'
      end
  end.

(** [addFieldRestrictions]: every rule bound to the field's kind annotates
    the schema in turn. *)
Definition addFieldRestrictions (f : StructField) (schema : openapi.Schema)
  : result openapi.Schema string :=
  addRestrictions (validators (kind (Typ f))) f schema.

(** The name a field has in the document: the first element of its [json]
    tag when it has one. *)
Definition jsonName (f : StructField) : string :=
  match Lookup (Tag f) "json" with
  | Some jsonTag => hd EmptyString (strings.Split jsonTag ",")
  | None => Name f
  end.

(** The loop of [getSchema] over the fields of a struct; [rec] is
    [getSchema] itself. *)
Fixpoint schemaFields (rec : Type_ -> Storage -> outcome (openapi.Schema * Storage))
    (fields : list StructField) (jsonDataFields fileFields : gmap string openapi.Schema)
    (storage : Storage)
  : outcome (gmap string openapi.Schema * gmap string openapi.Schema * Storage) :=
  match fields with
  | [] => Done (jsonDataFields, fileFields, storage)
  | f :: rest =>
      if negb (IsExported f) then schemaFields rec rest jsonDataFields fileFields storage
      else if String.eqb (jsonName f) "-" then
        schemaFields rec rest jsonDataFields fileFields storage
      else
        '(fieldSchema, storage') ← rec (Typ f) storage;
        let fieldSchema := openapi.setDescription (Get (Tag f) "desc") fieldSchema in
        match addFieldRestrictions f fieldSchema with
        | Err e => Panic ("Invalid validator value: " ++ e)
        | Ok fieldSchema =>
            if decide (Typ f = fileType)
            then schemaFields rec rest jsonDataFields
                   (<[jsonName f := fieldSchema]> fileFields) storage'
            else schemaFields rec rest (<[jsonName f := fieldSchema]> jsonDataFields)
                   fileFields storage'
        end
  end.

Definition objectOf (properties : gmap string openapi.Schema) : openapi.Schema :=
  openapi.mkSchema EmptyString EmptyString "object" EmptyString (Some properties)
    None None None EmptyString.

Definition refTo (name : string) : openapi.Schema :=
  openapi.mkSchema ("#/components/schemas/" ++ name) EmptyString EmptyString EmptyString
    None None None None EmptyString.

(** [Rpc.getSchema]: the schema of [t], and the table of named schemas as
    the call leaves it.  A struct is looked up by name; when the name is
    absent its fields are walked, and only then is the schema stored. *)
Fixpoint getSchema (fuel : nat) (t : Type_) (storage : Storage)
  : outcome (openapi.Schema * Storage) :=
  match fuel with
  | O => OutOfFuel
  | S fuel' =>
      match t with
      | TPtr elem => getSchema fuel' elem storage
      | TBasic b =>
          match basicKind b with
          | String => Done (openapi.withType "string" EmptyString, storage)
          | Int | Int64 | Uint | Uint32 | Uint64 =>
              Done (openapi.withType "integer" "int64", storage)
          | Int8 | Int16 | Int32 | Uint8 | Uint16 =>
              Done (openapi.withType "integer" "int32", storage)
          | Bool => Done (openapi.withType "boolean" EmptyString, storage)
          | Float32 => Done (openapi.withType "number" "float", storage)
          | Float64 => Done (openapi.withType "number" "double", storage)
          | _ => Panic ("Unknown type " ++ TypeString env t)
          end
      | TSlice elem | TArray elem =>
          '(itemsSchema, storage') ← getSchema fuel' elem storage;
          Done (openapi.mkSchema EmptyString EmptyString "array" EmptyString None
                  (Some itemsSchema) None None EmptyString, storage')
      | TStruct id =>
          let name := typeName t in
          match storage !! name with
          | Some _ => Done (refTo name, storage)
          | None =>
              '(jsonDataFields, fileFields, storage') ←
                schemaFields (getSchema fuel') (sFields (structOf env id)) ∅ ∅ storage;
              let schema :=
                if (0 <? size fileFields)%nat
                then objectOf (<["json_data" := objectOf jsonDataFields]> fileFields)
                else objectOf jsonDataFields in
              Done (refTo name, <[name := schema]> storage')
          end
      | TInterface _ _ | TMap _ _ =>
          if decide (t = fileType)
          then Done (openapi.withType "string" "binary", storage)
          else Done (openapi.withType "object" EmptyString, storage)
      | TChan _ | TFunc _ _ => Panic ("Unknown type " ++ TypeString env t)
      end
  end.

End Swagger.

(** *** Method descriptors (method.go) *)

(** A handler: a version method bound to its service, from the context and
    a pointer to the request to a response and an error.  It may read the files of the request. *)
Definition Handler : Type := os.FS -> Value -> outcome (Value * option error).

(** What reflection finds behind a method of a service: a handler, an
    error-catalog accessor (known by the dynamic type of the value it
    returns, [None] for nil), or anything else. *)
Inductive FuncBody : Type :=
| handlerFunc (h : Handler)
| accessorFunc (dyn : option Type_)
| otherFunc.

(** A service object: a value of the [Method] interface, with its type and
    its method set in the order reflection lists it. *)
Record Method : Type := mkService {
  svcType : Type_;
  svcMethods : list (reflect.Method FuncBody);
  Caption : string;
  Description : string
}.

Record MethodDesc : Type := mkMethodDesc {
  Path : string;
  Method_ : Method;
  Request : Type_;
  Response : Type_;
  Func : FuncBody;
  Errors : gmap string string;
  Validators : gmap string (list validateFunc)
}.

(** [^V\d+$] and [^ErrorsV(\d+)$] *)
Definition reMethodVersion : regexp.regex :=
  regexp.Cat regexp.Bol (regexp.Cat (regexp.Lit "V") (regexp.Cat regexp.Digits regexp.Eol)).

Definition reErrorsVersion : regexp.regex :=
  regexp.Cat regexp.Bol
    (regexp.Cat (regexp.Lit "ErrorsV") (regexp.Cat regexp.Digits regexp.Eol)).

(** [reErrorsVersion.FindStringSubmatch(name)[1]]: the pattern is anchored at
    both ends, so the group is what follows the seven bytes of "ErrorsV". *)
Definition errorsVersion (name : string) : option string :=
  if regexp.MatchString reErrorsVersion name then Some (strings.drop 7 name) else None.

Abbreviation ValidatorsMap := (gmap string (list validateFunc)) (only parsing).

Abbreviation Methods := (gmap string MethodDesc) (only parsing).

Section Registry.

Context {re : Regexp}.
Variable env : TypeEnv.

(** The package path of a service: that of its type, or of the type it
    points to. *)
Definition servicePkgPath (m : Method) : string :=
  let mType := svcType m in
  let path := PkgPath env mType in
  match mType with
  | TPtr elem => if String.eqb path EmptyString then PkgPath env elem else path
  | _ => path
  end.

(** [getMethodPath] *)
Definition getMethodPath (m : Method) (trimPrefix : string) : result string string :=
  let trimPrefix := strings.TrimSuffix trimPrefix "/" in
  let path := servicePkgPath m in
  if negb (strings.HasPrefix path trimPrefix)
  then Err ("invalid trim prefix '" ++ trimPrefix ++ "' for '" ++ path ++ "'")
  else Ok (strings.TrimPrefix path trimPrefix).


(** [validatorsMap[path] = append(validatorsMap[path], vFunc)] *)
Definition appendValidator (path : string) (vFunc : validateFunc) (validatorsMap : ValidatorsMap)
  : ValidatorsMap :=
  <[path := (default [] (validatorsMap !! path) ++ [vFunc])%list]> validatorsMap.

(** The loop over the rules bound to a field's kind. *)
Fixpoint compileValidators (vs : list validator) (f : StructField) (path : string)
    (validatorsMap : ValidatorsMap) : result ValidatorsMap string :=
  match vs with
  | [] => Ok validatorsMap
  | v :: rest =>
      match GetValidateFunc v f with
      | Err e => Err e
      | Ok None => compileValidators rest f path validatorsMap
      | Ok (Some vFunc) =>
          compileValidators rest f path (appendValidator path vFunc validatorsMap)
      end
  end.

(** A field's type with one pointer taken off. *)
Definition derefOnce (t : Type_) : Type_ :=
  match t with
  | TPtr elem => elem
  | _ => t
  end.

(** The loop of [getValidators] over the fields of a struct; [rec] is
    [getValidators] itself. *)
Fixpoint validatorsOfFields
    (rec : Type_ -> ValidatorsMap -> string -> outcome (result ValidatorsMap string))
    (fields : list StructField) (validatorsMap : ValidatorsMap) (curPath : string)
  : outcome (result ValidatorsMap string) :=
  match fields with
  | [] => Done (Ok validatorsMap)
  | field :: rest =>
      match kind (derefOnce (Typ field)) with
      | Struct =>
          r ← rec (Typ field) validatorsMap (curPath ++ "/" ++ Name field);
          match r with
          | Err e => Done (Err e)
          | Ok validatorsMap' => validatorsOfFields rec rest validatorsMap' curPath
          end
      | _ =>
          match compileValidators (validators (kind (Typ field))) field
                  (curPath ++ "/" ++ Name field) validatorsMap with
          | Err e => Done (Err e)
          | Ok validatorsMap' => validatorsOfFields rec rest validatorsMap' curPath
          end
      end
  end.

(** [getValidators] *)
Fixpoint getValidators (fuel : nat) (t : Type_) (validatorsMap : ValidatorsMap)
    (curPath : string) : outcome (result ValidatorsMap string) :=
  match fuel with
  | O => OutOfFuel
  | S fuel' =>
      match t with
      | TPtr elem => getValidators fuel' elem validatorsMap curPath
      | TStruct id =>
          validatorsOfFields (getValidators fuel') (sFields (structOf env id))
            validatorsMap curPath
      | _ => Done (Ok validatorsMap)
      end
  end.

Definition isVersionMethod (name : string) : bool :=
  regexp.MatchString reMethodVersion name.

(** The loop of [descsFromMethod] over the method set. *)
Fixpoint descsOfMethods (fuel : nat) (m : Method) (path : string)
    (goMethods : list (reflect.Method FuncBody)) (res : list MethodDesc)
  : outcome (result (list MethodDesc) string) :=
  match goMethods with
  | [] => Done (Ok res)
  | goMethod :: rest =>
      if isVersionMethod (mName goMethod) then
        if negb (length (mIn goMethod) =? 3)%nat
           || negb (String.eqb (TypeString env (nth 1 (mIn goMethod) (TBasic t_bool)))
                      "context.Context")
        then Done (Err ("invalid method " ++ mName goMethod
                        ++ " signature, must be (context.Context, <request type>)"))
        else if negb (length (mOut goMethod) =? 2)%nat
                || negb (String.eqb (TypeString env (nth 1 (mOut goMethod) (TBasic t_bool)))
                           "error")
        then Done (Err ("invalid method " ++ mName goMethod
                        ++ " return signature, must be (<response type>), error"))
        else
          let request := nth 2 (mIn goMethod) (TBasic t_bool) in
          r ← getValidators fuel request ∅ EmptyString;
          match r with
          | Err e => Done (Err e)
          | Ok validators =>
              descsOfMethods fuel m path rest
                (res ++ [mkMethodDesc (path ++ "/" ++ strings.ToLower (mName goMethod)) m
                           request (nth 0 (mOut goMethod) (TBasic t_bool))
                           (mFunc goMethod) ∅ validators])%list
          end
      else descsOfMethods fuel m path rest res
  end.

(** [descsFromMethod] *)
Definition descsFromMethod (fuel : nat) (m : Method) (trimPrefix : string)
  : outcome (result (list MethodDesc) string) :=
  match getMethodPath m trimPrefix with
  | Err e => Done (Err e)
  | Ok path => descsOfMethods fuel m path (svcMethods m) []
  end.

Definition ParseMethodDesc := descsFromMethod.


Definition setError (code desc : string) (md : MethodDesc) : MethodDesc :=
  mkMethodDesc (Path md) (Method_ md) (Request md) (Response md) (Func md)
    (<[code := desc]> (Errors md)) (Validators md).

(** The loop of [bindErrors] over the fields of the catalog struct.  The
    store into [methods[methodPath].Errors] dereferences the descriptor the
    map holds at [methodPath]: a missing entry is a nil pointer. *)
Fixpoint bindErrorFields (methodPath : string) (fields : list StructField) (methods : Methods)
  : outcome (option string * Methods) :=
  match fields with
  | [] => Done (None, methods)
  | ft :: rest =>
      if negb (String.eqb (TypeName env (Typ ft)) "ErrorFunc")
         || negb (String.eqb (PkgPath env (Typ ft)) pkgPath)
      then Done (Some ("error type for " ++ Name ft
                       ++ " must be github.com/go-qbit/rpc.ErrorFunc"), methods)
      else
        match methods !! methodPath with
        | None => Panic "invalid memory address or nil pointer dereference"
        | Some md =>
            let methods' := <[methodPath := setError (Name ft) (Get (Tag ft) "desc") md]> methods in
            if negb (IsExported ft)
            then Panic "reflect.Value.Set using value obtained using unexported field"
            else bindErrorFields methodPath rest methods'
        end
  end.

(** [goMethod.Func.Call([m])[0].Elem()]: the type of the value behind the
    accessor's result, [None] for the zero [reflect.Value]. *)
Definition accessorResult (goMethod : reflect.Method FuncBody) : outcome (option Type_) :=
  if negb (length (mIn goMethod) =? 1)%nat
  then Panic "reflect: Call with too many input arguments"
  else
    match mOut goMethod, mFunc goMethod with
    | [], _ => Panic "index out of range [0] with length 0"
    | out :: _, accessorFunc dyn =>
        match kind out with
        | Interface => Done dyn
        | Ptr => Done (Elem out)
        | _ => Panic "reflect: call of reflect.Value.Elem on a value that is no interface or pointer"
        end
    | _ :: _, _ => Panic "reflect: Call of a function that is no accessor"
    end.

(** The loop of [bindErrors] over the method set. *)
Fixpoint bindErrorsOf (path : string) (goMethods : list (reflect.Method FuncBody))
    (methods : Methods) : outcome (option string * Methods) :=
  match goMethods with
  | [] => Done (None, methods)
  | goMethod :: rest =>
      match errorsVersion (mName goMethod) with
      | None => bindErrorsOf path rest methods
      | Some version =>
          let methodPath := path ++ "/v" ++ version in
          errorsVar ← accessorResult goMethod;
          match errorsVar with
          | Some (TPtr (TStruct id)) =>
              '(err, methods') ← bindErrorFields methodPath (sFields (structOf env id)) methods;
              match err with
              | Some e => Done (Some e, methods')
              | None => bindErrorsOf path rest methods'
              end
          | _ => Done (Some "errors variable must be a pointer to a structure", methods)
          end
      end
  end.

(** [bindErrors]: the error it returns, and the descriptors as it leaves them. *)
Definition bindErrors (m : Method) (trimPrefix : string) (methods : Methods)
  : outcome (option string * Methods) :=
  match getMethodPath m trimPrefix with
  | Err e => Done (Some e, methods)
  | Ok path => bindErrorsOf path (svcMethods m) methods
  end.

End Registry.

(** *** The request pipeline (method.go) *)

(** [encoding/json]: decoding the bytes of a document into the request the
    pointer [req] of type [t] points to.  The decoder is a parameter of the
    model; it answers with the request as the document leaves it, with
    [io.EOF] for an input without any document, or with another error. *)
Class Json : Type := {
  Decode : TypeEnv -> Type_ -> string -> Value -> result Value error
}.

(** One part of a multipart body: its form name, its file name, the bytes it
    carries, and the error its reader ends with ([None]: a clean end). *)
Record Part : Type := mkPart {
  FormName : string;
  PartFileName : string;
  PartData : string;
  ReadErr : option string
}.

(** The request body [r]: the bytes a JSON decoder reads from it, and what a
    multipart reader over it yields for the boundary of the call: the parts,
    then [io.EOF] ([None]) or an error. *)
Record Reader : Type := mkReader {
  body : string;
  parts : list Part;
  partsErr : option string
}.

(** What a call works on: the file system, and the requests the handler has
    been invoked with, oldest first. *)
Record World : Type := mkWorld {
  fs : os.FS;
  calls : list Value
}.

Definition min64 : Z := - 2 ^ 63.
Definition max64 : Z := 2 ^ 63 - 1.

(** An [int64] result: the mathematical value wrapped into range. *)
Definition wrap64 (z : Z) : Z := (z + 2 ^ 63) mod 2 ^ 64 - 2 ^ 63.

Definition add64 (a b : Z) : Z := wrap64 (a + b).

(** [io.CopyN(buf, p, n)] from a part carrying [data]: the count written,
    the error, the bytes that reached the buffer, the bytes still unread.
    A limit of zero or less reads nothing and is no error; a part that ends
    before [n] bytes ends the copy with its own error or [io.EOF]. *)
Definition CopyN (data : string) (readErr : option string) (n : Z)
  : Z * option error * string * string :=
  if n <=? 0 then (0, None, EmptyString, data)
  else if n <=? strings.len data
  then (n, None, strings.take (Z.to_nat n) data, strings.drop (Z.to_nat n) data)
  else (strings.len data,
        Some (match readErr with Some e => otherError e | None => EOF end),
        data, EmptyString).

(** [checkFileField]: the first field whose [json] tag is the part's name and
    whose type implements [File]. *)
Fixpoint checkFileField (partName : string) (fields : list StructField) : option string :=
  match fields with
  | [] => None
  | field :: rest =>
      if String.eqb partName (Get (Tag field) "json") && bool_decide (Typ field = fileType)
      then Some (Name field)
      else checkFileField partName rest
  end.

(** [FieldByName(name).Set(v)] on a struct value. *)
Fixpoint setField (name : string) (v : Value) (fields : list StructField) (vals : list Value)
  : list Value :=
  match fields, vals with
  | f :: fields', old :: vals' =>
      if String.eqb (Name f) name then v :: vals'
      else old :: setField name v fields' vals'
  | _, _ => vals
  end.

(** [newTmpFile(b, part)] (file.go), for a buffer holding [b] and a part of
    which [PartData part] is still unread: a temporary file receives the
    buffer and then the rest of the part ([io.Copy] from a [MultiReader]),
    and is rewound.  A failed copy or seek removes the file, and nothing
    closes it. *)
Definition newTmpFile (b : string) (part : Part) (fs : os.FS) : result File string * os.FS :=
  match os.CreateTemp "rpc-multipart-" fs with
  | (Err e, fs) => (Err e, fs)
  | (Ok tmp, fs) =>
      match os.Write tmp (b ++ PartData part) fs with
      | (Some e, fs) => (Err e, snd (os.Remove tmp fs))
      | (None, fs) =>
          match ReadErr part with
          | Some e => (Err e, snd (os.Remove tmp fs))
          | None =>
              match os.SeekStart tmp fs with
              | (Some e, fs) => (Err e, snd (os.Remove tmp fs))
              | (None, fs) => (Ok (tmpFile tmp (PartFileName part)), fs)
              end
          end
      end
  end.

Section Pipeline.

Context {re : Regexp} {json : Json}.
Variable env : TypeEnv.

(** The zero value of a type.  Struct values nest only as deep as the table
    has declarations (Go rejects a struct that contains itself by value), so
    [depth] is taken to be the size of the table. *)
Fixpoint zeroOf (depth : nat) (t : Type_) : Value :=
  match t with
  | TBasic t_bool => VBool false
  | TBasic t_string => VString EmptyString
  | TBasic b => VNum b 0
  | TStruct id =>
      match depth with
      | O => VNil
      | S depth' => VStruct (map (fun f => zeroOf depth' (Typ f)) (sFields (structOf env id)))
      end
  | _ => VNil
  end.

Definition zero (t : Type_) : Value := zeroOf (S (length env)) t.

(** Running the predicates bound to one path, in order. *)
Fixpoint runValidators (vs : list validateFunc) (v : Value) : outcome (option string) :=
  match vs with
  | [] => Done None
  | validate_ :: rest =>
      r ← validate validate_ v;
      match r with
      | Some e => Done (Some e)
      | None => runValidators rest v
      end
  end.

(** [MethodDesc.validateData]: [Done None] is the nil error. *)
Fixpoint validateData (m : MethodDesc) (t : Type_) (data : Value) (curPath : string)
    {struct data} : outcome (option string) :=
  match t, data with
  | TPtr elem, VPtr d => validateData m elem d curPath
  | TStruct id, VStruct vals =>
      (fix loop (fields : list StructField) (vals : list Value) {struct vals}
         : outcome (option string) :=
         match fields, vals with
         | fieldType :: fields', fieldVal :: vals' =>
             match kind (derefOnce (Typ fieldType)) with
             | Struct =>
                 r ← validateData m (Typ fieldType) fieldVal (curPath ++ "/" ++ Name fieldType);
                 match r with
                 | Some e => Done (Some e)
                 | None => loop fields' vals'
                 end
             | _ =>
                 r ← runValidators
                       (default [] (Validators m !! (curPath ++ "/" ++ Name fieldType)))
                       fieldVal;
                 match r with
                 | Some e => Done (Some e)
                 | None => loop fields' vals'
                 end
             end
         | _, _ => Done None
         end) (sFields (structOf env id)) vals
  | _, _ => Done None
  end.


Definition invalidJSON (message : string) : error :=
  rpcError (mkError "INVALID_JSON" message None).

Definition withFS (w : World) (fs' : os.FS) : World := mkWorld fs' (calls w).

(** The fields of the struct the request pointer points to:
    [req.Elem().Type()] and its [NumField]/[Field]. *)
Definition requestFields (m : MethodDesc) : list StructField :=
  match Request m with
  | TPtr (TStruct id) => sFields (structOf env id)
  | _ => []
  end.

(** Storing [file] into the field [name] of the request [req] points to. *)
Definition setRequestField (m : MethodDesc) (name : string) (file : File) (req : Value)
  : Value :=
  match req with
  | VPtr (VStruct vals) => VPtr (VStruct (setField name (VFile file) (requestFields m) vals))
  | _ => req
  end.

(** Capturing a file part: up to [maxMemory + 1] bytes go to a buffer; when
    that many were there, a temporary file receives the buffer and the rest
    of the part, and is rewound.  [Err] is the error [Call] returns. *)
Definition captureFile (p : Part) (maxMemory : Z) (fs : os.FS) : result File error * os.FS :=
  let '(n, err, buffered, unread) := CopyN (PartData p) (ReadErr p) (add64 maxMemory 1) in
  match err with
  | Some (otherError e) => (Err (otherError e), fs)
  | Some (rpcError e) => (Err (rpcError e), fs)
  | Some EOF | None =>
      if maxMemory <? n then
        match os.CreateTemp "rpc-multipart-" fs with
        | (Err e, fs) => (Err (otherError e), fs)
        | (Ok tmp, fs) =>
            match os.Write tmp (buffered ++ unread) fs with
            | (Some e, fs) => (Err (otherError e), snd (os.Remove tmp fs))
            | (None, fs) =>
                match ReadErr p with
                | Some e => (Err (otherError e), snd (os.Remove tmp fs))
                | None =>
                    match os.SeekStart tmp fs with
                    | (Some e, fs) => (Err (otherError e), snd (os.Remove tmp fs))
                    | (None, fs) => (Ok (tmpFile tmp EmptyString), fs)
                    end
                end
            end
        end
      else (Ok (buffer buffered EmptyString), fs)
  end.

(** The loop of [Call] over the parts of a multipart body: the request as
    the parts leave it, or the error [Call] returns. *)
Fixpoint readParts (m : MethodDesc) (ps : list Part) (end_ : option string) (maxMemory : Z)
    (req : Value) (fs : os.FS) : result Value error * os.FS :=
  match ps with
  | [] =>
      match end_ with
      | None => (Ok req, fs)
      | Some e => (Err (otherError e), fs)
      end
  | p :: rest =>
      match checkFileField (FormName p) (requestFields m) with
      | Some name =>
          match captureFile p maxMemory fs with
          | (Err e, fs) => (Err e, fs)
          | (Ok file, fs) =>
              readParts m rest end_ maxMemory (setRequestField m name file req) fs
          end
      | None =>
          match Decode env (Request m) (PartData p) req with
          | Ok req' => readParts m rest end_ maxMemory req' fs
          | Err EOF => readParts m rest end_ maxMemory req fs
          | Err e => (Err (invalidJSON (errorText e)), fs)
          end
      end
  end.

(** [MethodDesc.Call] *)
Definition Call (m : MethodDesc) (r : Reader) (boundary : string) (maxMemory : Z) (w : World)
  : outcome (result Value error * World) :=
  match Elem (Request m) with
  | None => Panic "reflect: Elem of invalid type"
  | Some elem =>
      let req := VPtr (zero elem) in
      let decoded :=
        if negb (String.eqb boundary EmptyString)
        then readParts m (parts r) (partsErr r) maxMemory req (fs w)
        else
          match Decode env (Request m) (body r) req with
          | Ok req' => (Ok req', fs w)
          | Err e => (Err (invalidJSON (errorText e)), fs w)
          end in
      match decoded with
      | (Err e, fs') => Done (Err e, withFS w fs')
      | (Ok req, fs') =>
          checked ←
            (if (0 <? size (Validators m))%nat
             then validateData m (Request m) req EmptyString
             else Done None);
          match checked with
          | Some e => Done (Err (invalidJSON e), withFS w fs')
          | None =>
              match Func m with
              | handlerFunc h =>
                  res ← h fs' req;
                  let w' := mkWorld fs' (calls w ++ [req]) in
                  match snd res with
                  | Some e => Done (Err e, w')
                  | None => Done (Ok (fst res), w')
                  end
              | _ => Panic "reflect: Call of a function that is no handler"
              end
          end
      end
  end.

End Pipeline.

(** *** The document (swagger.go) and the registry (rpc.go) *)

Record Operation : Type := mkOperation {
  Summary : string;
  opDescription : string;
  OperationId : string;
  Tags : list string;
  requestContentType : string;
  requestSchema : openapi.Schema;
  okSchema : openapi.Schema;               (* response 200 *)
  badRequestDescription : string;          (* response 400 *)
  badRequestSchema : openapi.Schema
}.

Record OpenApi : Type := mkOpenApi {
  Openapi : string;
  Paths : gmap string Operation;
  Schemas : Storage
}.

Record Rpc : Type := mkRpc {
  trimPrefix : string;
  methods : Methods;
  maxMemory : Z
}.

(** [rpc.New(trimPrefix, WithMaxMemory(size))]; without the option the
    threshold is zero. *)
Definition New (trimPrefix : string) (maxMemory : Z) : Rpc := mkRpc trimPrefix ∅ maxMemory.

Definition errorId : string := "github.com/go-qbit/rpc.Error".

(** The declaration of [Error] (error.go), which the document describes. *)
Definition errorDecl : StructDef :=
  mkStruct pkgPath "Error"
    [ mkField "Code" (TBasic t_string) [("json", "code")];
      mkField "Message" (TBasic t_string) [("json", "message,omitempty")];
      mkField "Data" (TInterface EmptyString EmptyString) [("json", "data,omitempty")] ].

Definition newline : string := String.String (ascii_of_nat 10) EmptyString.

Fixpoint insertByCode (e : string * string) (l : list (string * string)) : list (string * string) :=
  match l with
  | [] => [e]
  | x :: rest => if String.ltb (fst e) (fst x) then e :: l else x :: insertByCode e rest
  end.

(** [sort.Slice] by code. *)
Definition sortByCode (l : list (string * string)) : list (string * string) :=
  fold_right insertByCode [] l.

Definition errorsDescription (errors : gmap string string) : string :=
  fold_left
    (fun acc e =>
       acc ++ "* **" ++ fst e ++ "**"
       ++ (if String.eqb (snd e) EmptyString then EmptyString else ": " ++ snd e)
       ++ newline)
    (("INVALID_JSON", "Cannot parse JSON") :: sortByCode (map_to_list errors))
    ("### The business logic error" ++ newline ++ "Possible codes:" ++ newline).

Section Registration.

Context {re : Regexp}.
Variable env : TypeEnv.

(** The table [GetSwagger] reads types from: the program's, and [Error]. *)
Definition docEnv : TypeEnv := (errorId, errorDecl) :: env.

(** The body of the loop of [GetSwagger] over the registered methods. *)
Definition operationOf (fuel : nat) (r : Rpc) (path : string) (method : MethodDesc)
    (schemas : Storage) : outcome (Operation * Storage) :=
  match Request method with
  | TPtr (TStruct id) =>
      let contentType :=
        if existsb (fun f => bool_decide (Typ f = fileType)) (sFields (structOf docEnv id))
        then "multipart/form-data" else "application/json" in
      '(req, schemas) ← getSchema docEnv (trimPrefix r) fuel (Request method) schemas;
      '(ok, schemas) ← getSchema docEnv (trimPrefix r) fuel (Response method) schemas;
      '(bad, schemas) ← getSchema docEnv (trimPrefix r) fuel (TStruct errorId) schemas;
      Done (mkOperation (Caption (Method_ method)) (Description (Method_ method))
              (strings.replaceByte "/" "_" (strings.drop 1 path)) ["RPC methods"]
              contentType req ok (errorsDescription (Errors method)) bad,
            schemas)
  | _ => Panic "reflect: Elem or NumField of a type that is no pointer to a struct"
  end.

Fixpoint operationsOf (fuel : nat) (r : Rpc) (ms : list (string * MethodDesc)) (res : OpenApi)
  : outcome OpenApi :=
  match ms with
  | [] => Done res
  | (path, method) :: rest =>
      '(op, schemas) ← operationOf fuel r path method (Schemas res);
      operationsOf fuel r rest (mkOpenApi (Openapi res) (<[path := op]> (Paths res)) schemas)
  end.

(** [Rpc.GetSwagger] *)
Definition GetSwagger (fuel : nat) (r : Rpc) : outcome OpenApi :=
  operationsOf fuel r (map_to_list (methods r)) (mkOpenApi "3.0.3" ∅ ∅).

Definition registerDescs (mds : list MethodDesc) (ms : Methods) : Methods :=
  fold_left (fun acc md => <[Path md := md]> acc) mds ms.

(** [Rpc.RegisterMethod]: the error it returns, and the registry as it
    leaves it. *)
Definition RegisterMethod (fuel : nat) (r : Rpc) (method : Method) : outcome (option string * Rpc) :=
  d ← descsFromMethod env fuel method (trimPrefix r);
  match d with
  | Err e =>
      Done (Some ("cannot register mehtod " ++ TypeString env (svcType method) ++ ": " ++ e), r)
  | Ok mds =>
      let r := mkRpc (trimPrefix r) (registerDescs mds (methods r)) (maxMemory r) in
      '(err, ms) ← bindErrors env method (trimPrefix r) (methods r);
      let r := mkRpc (trimPrefix r) ms (maxMemory r) in
      match err with
      | Some e =>
          Done (Some ("cannot bind errors for method " ++ TypeString env (svcType method)
                      ++ ": " ++ e), r)
      | None =>
          _ ← GetSwagger fuel r;
          Done (None, r)
      end
  end.

(** [Rpc.RegisterMethods] *)
Fixpoint RegisterMethods (fuel : nat) (r : Rpc) (ms : list Method) : outcome (option string * Rpc) :=
  match ms with
  | [] => Done (None, r)
  | m :: rest =>
      '(err, r) ← RegisterMethod fuel r m;
      match err with
      | Some e => Done (Some e, r)
      | None => RegisterMethods fuel r rest
      end
  end.

(** [Rpc.GetMethod]: [None] is the nil descriptor. *)
Definition GetMethod (r : Rpc) (path : string) : option MethodDesc :=
  methods r !! strings.TrimSuffix path "/".

End Registration.

(** [sort.Strings]: ascending byte-wise order. *)
Fixpoint insertString (s : string) (l : list string) : list string :=
  match l with
  | [] => [s]
  | x :: rest => if String.ltb s x then s :: l else x :: insertString s rest
  end.

Definition sortStrings (l : list string) : list string := fold_right insertString [] l.

(** [Rpc.GetPaths]: the keys of the registry, sorted. *)
Definition GetPaths (r : Rpc) : list string :=
  sortStrings (map fst (map_to_list (methods r))).

(** *** Options (rpc.go) *)

Record cors : Type := mkCors {
  allowOrigin : string;
  allowHeaders : string;
  allowMethods : string;
  maxAge : string
}.

(** [opts]: [optCors] is the pointer [cors], [None] when it is nil. *)
Record opts : Type := mkOpts {
  optCors : option cors;
  optMaxMemory : Z
}.

(** An [OptsFunc] updates the options it is given. *)
Definition OptsFunc : Type := opts -> opts.

(** [WithCorsV2]; a nil slice is [None]. *)
Definition WithCorsV2 (origin headers methods : option (list string)) (maxAge : string)
  : OptsFunc :=
  fun o =>
    let joined (l : option (list string)) :=
      match l with
      | Some elems => strings.Join elems ", "
      | None => EmptyString
      end in
    mkOpts (Some (mkCors (joined origin) (joined headers) (joined methods) maxAge))
      (optMaxMemory o).

(** [WithCors]: the function it returns builds the function of [WithCorsV2]
    and does not call it, so the options stay as they are. *)
Definition WithCors (allowedOrigins : string) : OptsFunc :=
  fun o =>
    let _ := WithCorsV2 (Some (strings.Split allowedOrigins ", "))
               (Some ["X-API-Key"; "Content-Type"]) (Some ["POST"; "OPTIONS"]) "86400" in
    o.

Definition WithMaxMemory (size : Z) : OptsFunc :=
  fun o => mkOpts (optCors o) size.

(** [New(trimPrefix, options...)]: the options as the functions leave them,
    and the registry with them.  The record [Rpc] holds the memory threshold;
    the CORS settings go beside it. *)
Definition computedOpts (options : list OptsFunc) : opts :=
  fold_left (fun o f => f o) options (mkOpts None 0).

Definition NewWithOptions (trimPrefix : string) (options : list OptsFunc) : Rpc * option cors :=
  (mkRpc trimPrefix ∅ (optMaxMemory (computedOpts options)), optCors (computedOpts options)).

(** *** The HTTP handler (rpc.go) *)

(** What [ServeHTTP] reads of a request: the method, the path of the URL,
    two headers and the body. *)
Record HttpRequest : Type := mkRequest {
  reqMethod : string;
  reqPath : string;
  reqContentType : string;
  reqAcceptEncoding : string;
  reqBody : Reader
}.

(** An [http.ResponseWriter]: the headers, the status code once it is
    written, and the bytes of the body. *)
Record ResponseWriter : Type := mkResponse {
  respHeader : gmap string string;
  respStatus : option Z;
  respBody : string
}.

Definition newResponse : ResponseWriter := mkResponse ∅ None EmptyString.

(** [w.Header().Set(key, value)] *)
Definition setHeader (key value : string) (w : ResponseWriter) : ResponseWriter :=
  mkResponse (<[key := value]> (respHeader w)) (respStatus w) (respBody w).

(** [w.WriteHeader(code)]; a second call changes nothing. *)
Definition WriteHeader (code : Z) (w : ResponseWriter) : ResponseWriter :=
  match respStatus w with
  | Some _ => w
  | None => mkResponse (respHeader w) (Some code) (respBody w)
  end.

(** [w.Write(data)]: the first write sends the status 200 when none was
    written. *)
Definition write (data : string) (w : ResponseWriter) : ResponseWriter :=
  let w := WriteHeader 200 w in
  mkResponse (respHeader w) (respStatus w) (respBody w ++ data).

(** The status the client sees: 200 when the handler returns without
    having written one. *)
Definition statusOf (w : ResponseWriter) : Z := default 200 (respStatus w).

(** [http.Error(w, error, code)] *)
Definition httpError (error : string) (code : Z) (w : ResponseWriter) : ResponseWriter :=
  let w := mkResponse (delete "Content-Length" (respHeader w)) (respStatus w) (respBody w) in
  let w := setHeader "Content-Type" "text/plain; charset=utf-8" w in
  let w := setHeader "X-Content-Type-Options" "nosniff" w in
  let w := WriteHeader code w in
  write (error ++ newline) w.

(** [boundaryRe] and its [FindStringSubmatch].  The pattern is a semicolon,
    a greedy run of any bytes but a newline, the text [boundary=], and a
    group that is again a greedy run of any bytes but a newline.  So a match
    begins at the first semicolon after which its line holds [boundary=];
    the first run reaches to the last [boundary=] of that line, and the
    group is the rest of the line. *)
Fixpoint afterLast (sep s : string) : option string :=
  match s with
  | EmptyString => None
  | String.String _ s' =>
      match afterLast sep s' with
      | Some rest => Some rest
      | None => if strings.HasPrefix s sep then Some (strings.drop (String.length sep) s) else None
      end
  end.

Fixpoint line (s : string) : string :=
  match s with
  | EmptyString => EmptyString
  | String.String c s' => if Ascii.eqb c (ascii_of_nat 10) then EmptyString else String.String c (line s')
  end.

(** [subs[1]] of the leftmost match, [None] when there is no match. *)
Fixpoint boundarySubmatch (s : string) : option string :=
  match s with
  | EmptyString => None
  | String.String c s' =>
      if Ascii.eqb c ";" then
        match afterLast "boundary=" (line s') with
        | Some rest => Some rest
        | None => boundarySubmatch s'
        end
      else boundarySubmatch s'
  end.

(** [encoding/json], encoding: [Encoder.Encode] of a response and of an
    [*Error]; the bytes it writes, or its error.  The encoder is a parameter
    of the model. *)
Class JsonEncoder : Type := {
  Encode : Value -> result string string;
  EncodeError : Error -> result string string
}.

(** [compress/gzip]: the bytes a writer with the header name [name] has
    written when it is closed after [data] went in. *)
Class Gzip : Type := { compress : string -> string -> string }.

Section Serve.

Context {re : Regexp} {json : Json} {enc : JsonEncoder} {gz : Gzip}.
Variable env : TypeEnv.

(** [Rpc.ServeHTTP], for the registry [r] with the CORS settings [c]: the
    response, the world as the call leaves it, and the lines logged.  The
    request body is a string here, so the deferred [request.Body.Close] has
    nothing to act on. *)
Definition ServeHTTP (r : Rpc) (c : option cors) (rand : htb.Rand) (request : HttpRequest) (w : World)
  : outcome (ResponseWriter * World * list string) :=
  let rw := newResponse in
  let rw :=
    match c with
    | Some c =>
        setHeader "Access-Control-Max-Age" (maxAge c)
          (setHeader "Access-Control-Allow-Methods" (allowMethods c)
             (setHeader "Access-Control-Allow-Headers" (allowHeaders c)
                (setHeader "Access-Control-Allow-Origin" (allowOrigin c) rw)))
    | None => rw
    end in
  preflight ←
    (if String.eqb (reqMethod request) "OPTIONS"
     then match c with
          | None => Panic "invalid memory address or nil pointer dereference"
          | Some c => Done (negb (String.eqb (allowOrigin c) EmptyString))
          end
     else Done false);
  if (preflight : bool) then Done (WriteHeader 204 rw, w, [])
  else if negb (String.eqb (reqMethod request) "POST")
  then Done (httpError "Method Not Allowed" 405 rw, w, [])
  else
    match GetMethod r (reqPath request) with
    | None => Done (httpError "404 page not found" 404 rw, w, [])
    | Some method =>
        let rw := setHeader "Content-Type" "application/json; charset=utf-8" rw in
        let boundary := default EmptyString (boundarySubmatch (reqContentType request)) in
        '(res, w') ← Call env method (reqBody request) boundary (maxMemory r) w;
        match res with
        | Err (rpcError rpcErr) =>
            let rw := WriteHeader 400 rw in
            match EncodeError rpcErr with
            | Ok bytes => Done (write bytes rw, w', [])
            | Err e => Done (rw, w', ["Cannot marshal error response: " ++ e])
            end
        | Err err =>
            Done (httpError "Internal Server Error" 500 rw, w',
                  ["Cannot call " ++ Path method ++ ": " ++ errorText err])
        | Ok resp =>
            if header.CanGzipFast (reqAcceptEncoding request) then
              let rw := setHeader "Content-Encoding" "gzip" rw in
              name ← htb.RandomString rand;
              match Encode resp with
              | Ok bytes => Done (write (compress name bytes) rw, w', [])
              | Err e =>
                  Done (write (compress name EmptyString) rw, w', ["Cannot marshal response: " ++ e])
              end
            else
              match Encode resp with
              | Ok bytes => Done (write bytes rw, w', [])
              | Err e => Done (rw, w', ["Cannot marshal response: " ++ e])
              end
        end
    end.

End Serve.

End rpc.

(** ** Package [client/typescript] *)

Module typescript.

Import reflect.

(** [hash/crc32]: the checksum is a parameter of the model. *)
Class Crc32 : Type := { ChecksumIEEE : string -> N }.

Definition typesOverrides (key : string) : string :=
  if String.eqb key "time.Time" then "string" else EmptyString.

Section Client.

Context {crc : Crc32}.
Variable env : TypeEnv.
Variable prefix : string.

(** [toTsTypeName] *)
Fixpoint toTsTypeName (varType : Type_) : outcome string :=
  let override := typesOverrides (PkgPath env varType ++ "." ++ TypeName env varType) in
  if negb (String.eqb override EmptyString) then Done override
  else
    let typeParts :=
      map strings.Title (strings.Split (strings.TrimPrefix (PkgPath env varType) prefix) "/") in
    let typePrefix := strings.Join typeParts EmptyString in
    match varType with
    | TSlice elem => e ← toTsTypeName elem; Done (e ++ "[]")
    | TStruct id =>
        let sName :=
          if String.eqb (TypeName env varType) EmptyString
          then "Struct_" ++ HexadecimalString.NilZero.string_of_uint
                              (N.to_hex_uint (ChecksumIEEE (TypeString env varType)))
          else TypeName env varType in
        Done (typePrefix ++ strings.Title sName)
    | TMap key elem =>
        k ← toTsTypeName key; e ← toTsTypeName elem;
        Done ("Record<" ++ k ++ ", " ++ e ++ ">")
    | TPtr elem => toTsTypeName elem
    | TBasic t_string => Done "string"
    | TBasic t_bool => Done "boolean"
    | TBasic _ => Done "number"
    | TInterface _ _ =>
        if decide (varType = rpc.fileType) then Done "File" else Done "unknown"
    | TArray _ => Panic "Unknown kind array"
    | TChan _ => Panic "Unknown kind chan"
    | TFunc _ _ => Panic "Unknown kind func"
    end.

(** The loop of [addTsStructTypes] over the fields of a struct; [rec] is
    [addTsStructTypes] itself. *)
Fixpoint addTsFields (rec : Type_ -> gmap string Type_ -> outcome (gmap string Type_))
    (fields : list StructField) (m : gmap string Type_) : outcome (gmap string Type_) :=
  match fields with
  | [] => Done m
  | field :: rest =>
      if negb (String.eqb (Get (Tag field) "json") "-")
      then m' ← rec (Typ field) m; addTsFields rec rest m'
      else addTsFields rec rest m
  end.

(** [addTsStructTypes]: the table of client types as the call leaves it.  A
    struct is stored under its name, and its fields are walked, whether
    the name was in the table or not. *)
Fixpoint addTsStructTypes (fuel : nat) (st : Type_) (m : gmap string Type_)
  : outcome (gmap string Type_) :=
  match fuel with
  | O => OutOfFuel
  | S fuel' =>
      if negb (String.eqb (typesOverrides (PkgPath env st ++ "." ++ TypeName env st)) EmptyString)
      then Done m
      else
        match st with
        | TPtr elem | TSlice elem | TArray elem => addTsStructTypes fuel' elem m
        | TStruct id =>
            name ← toTsTypeName st;
            addTsFields (addTsStructTypes fuel') (sFields (structOf env id)) (<[name := st]> m)
        | TMap _ elem => addTsStructTypes fuel' elem m
        | TBasic _ | TInterface _ _ => Done m
        | TChan _ => Panic "Unknown kind chan"
        | TFunc _ _ => Panic "Unknown kind func"
        end
  end.

(** [checkContentType] *)
Definition checkContentType (st : Type_) : outcome string :=
  match st with
  | TPtr (TStruct id) =>
      if existsb (fun f => bool_decide (Typ f = rpc.fileType)) (sFields (structOf env id))
      then Done "multipart/form-data" else Done "application/json"
  | _ => Panic "reflect: Elem or NumField of a type that is no pointer to a struct"
  end.

End Client.

End typescript.

(** ** Stand-ins for the library parameters *)

(** A regular-expression engine that knows the one pattern the test service
    declares, [.{2,}]: two or more bytes (none of them a newline). *)
Definition twoOrMore (s : string) : bool :=
  (2 <=? String.length s)%nat
  && negb (existsb (String.eqb rpc.newline) (strings.explode s)).

Definition onePattern : rpc.Regexp := {|
  rpc.compileError p :=
    if String.eqb p ".{2,}" then None else Some "error parsing regexp";
  rpc.matchString p s := if String.eqb p ".{2,}" then twoOrMore s else false
|}.

(** A JSON decoder known by its graph on a few documents: each document is
    listed with what decoding it does to the request; an empty input is
    [io.EOF], any other input is malformed. *)
Fixpoint decodeBy (table : list (string * (rpc.Value -> rpc.Value))) (data : string)
    (req : rpc.Value) : result rpc.Value rpc.error :=
  match table with
  | [] =>
      if String.eqb data EmptyString then Err rpc.EOF
      else Err (rpc.otherError "invalid character in the document")
  | (doc, f) :: rest => if String.eqb doc data then Ok (f req) else decodeBy rest data req
  end.

Definition tableJson (table : list (string * (rpc.Value -> rpc.Value))) : rpc.Json :=
  {| rpc.Decode _ _ data req := decodeBy table data req |}.

(** A JSON encoder that writes a response as an opaque document and an
    error by its code; a gzip writer whose output shows its header name and
    its input; and a source of randomness whose draw [i] answers [i]. *)
Definition plainEncoder : rpc.JsonEncoder := {|
  rpc.Encode _ := Ok "{...}";
  rpc.EncodeError e := Ok ("{code: " ++ rpc.Code e ++ "}")
|}.

Definition taggedGzip : rpc.Gzip := {|
  rpc.compress name data := "gzip[" ++ name ++ "]" ++ data
|}.

Definition countingRand : htb.Rand := fun i => Ok (Z.of_nat i).

(** Storing [v] into the field at position [i] of the request behind [req]. *)
Definition setAt (i : nat) (v : rpc.Value) (req : rpc.Value) : rpc.Value :=
  match req with
  | rpc.VPtr (rpc.VStruct vals) => rpc.VPtr (rpc.VStruct (<[i := v]> vals))
  | _ => req
  end.

(** [{"name": n}] *)
Definition docInt (name : string) (n : Z) : string :=
  "{" ++ strconv.quote name ++ ": " ++ strconv.FormatInt n ++ "}".

(** ** The test service (internal/test/method/hello) *)

Module hello.

Import reflect.

Definition pkg : string := "github.com/go-qbit/rpc/internal/test/method/hello".

Definition tContext : Type_ := TInterface "context" "Context".
Definition tError : Type_ := TInterface EmptyString "error".
Definition tAny : Type_ := TInterface EmptyString EmptyString.
Definition tErrorFunc : Type_ := TFunc rpc.pkgPath "ErrorFunc".

Definition IntParamV1 : StructField :=
  mkField "IntParam" (TBasic t_int)
    [("json", "int_param"); ("desc", "An integer parameter");
     ("minimum", "100"); ("maximum", "200")].

Definition ReqV1 : StructDef :=
  mkStruct pkg "ReqV1"
    [ IntParamV1;
      mkField "StrParam" (TBasic t_string)
        [("json", "str_param"); ("desc", "A string parameter"); ("pattern", ".{2,}")];
      mkField "ArrParam" (TSlice (TBasic t_string))
        [("json", "arr_param"); ("desc", "An array parameter")];
      mkField "StructParam" (TStruct "hello.StructV1") [("json", "struct_param")];
      mkField "StructPtrParam" (TPtr (TStruct "hello.StructV1")) [("json", "struct_ptr_param")];
      mkField "WithErr" (TBasic t_bool) [("json", "with_err")] ].

Definition F1 : StructField :=
  mkField "F1" (TBasic t_uint) [("json", "f1"); ("minimum", "1"); ("maximum", "200")].

Definition StructV1 : StructDef := mkStruct pkg "StructV1" [F1].

Definition RespV1 : StructDef :=
  mkStruct pkg "RespV1"
    [ mkField "Message" (TBasic t_string) [("json", "message"); ("desc", "Just a message")];
      mkField "Data" (TStruct "hello.DataV1") [("json", "data")] ].

Definition DataV1 : StructDef :=
  mkStruct pkg "DataV1"
    [ mkField "Int" (TBasic t_int) [("json", "int,omitempty")];
      mkField "Str" (TBasic t_string) [("json", "str")] ].

(** [var ErrorsV1 struct{...}]: an anonymous struct. *)
Definition ErrorsV1 : StructDef :=
  mkStruct EmptyString EmptyString
    [ mkField "Error1" tErrorFunc [("desc", "Error 1")];
      mkField "Error2" tErrorFunc [("desc", "Error 2")];
      mkField "Error3" tErrorFunc [("desc", "Error 3")] ].

Definition ReqV2 : StructDef :=
  mkStruct pkg "ReqV2"
    [ mkField "IntParam" (TBasic t_int) [("json", "int_param"); ("desc", "An integer parameter")] ].

Definition ReqV3 : StructDef :=
  mkStruct pkg "ReqV3"
    [ mkField "IntParam" (TBasic t_int) [("json", "int_param"); ("desc", "An integer parameter")];
      mkField "Content" rpc.fileType [("json", "content"); ("desc", "Some file")] ].

Definition RespV3 : StructDef :=
  mkStruct pkg "RespV3"
    [ mkField "IntParam" (TBasic t_int) [("json", "int_param")];
      mkField "ContentLength" (TBasic t_int) [("json", "content_length")] ].

Definition MethodDecl : StructDef := mkStruct pkg "Method" [].

Definition env : TypeEnv :=
  [ ("hello.Method", MethodDecl); ("hello.ReqV1", ReqV1); ("hello.StructV1", StructV1);
    ("hello.RespV1", RespV1); ("hello.DataV1", DataV1); ("hello.ErrorsV1", ErrorsV1);
    ("hello.ReqV2", ReqV2); ("hello.ReqV3", ReqV3); ("hello.RespV3", RespV3) ].

Definition V1 : rpc.Handler := fun _ r =>
  match r with
  | rpc.VPtr (rpc.VStruct [rpc.VNum t_int intParam; rpc.VString strParam; _; _; _;
                           rpc.VBool withErr]) =>
      if withErr
      then Done (rpc.VNil, Some (rpc.rpcError (rpc.mkError "Error1" "test" None)))
      else Done (rpc.VPtr (rpc.VStruct
                   [rpc.VString "Hello, world";
                    rpc.VStruct [rpc.VNum t_int intParam; rpc.VString strParam]]), None)
  | _ => Panic "invalid memory address or nil pointer dereference"
  end.

Definition V2 : rpc.Handler := fun _ r =>
  match r with
  | rpc.VPtr (rpc.VStruct [rpc.VNum t_int intParam]) => Done (rpc.VNum t_int intParam, None)
  | _ => Panic "invalid memory address or nil pointer dereference"
  end.

(** [V3] reads the whole file and answers with its length. *)
Definition V3 : rpc.Handler := fun fs r =>
  match r with
  | rpc.VPtr (rpc.VStruct [rpc.VNum t_int intParam; rpc.VFile content]) =>
      match rpc.ReadAll content fs with
      | Some data =>
          Done (rpc.VPtr (rpc.VStruct [rpc.VNum t_int intParam;
                                       rpc.VNum t_int (strings.len data)]), None)
      | None =>
          Done (rpc.VPtr (rpc.VStruct [rpc.VNum t_int intParam; rpc.VNum t_int 0]),
                Some (rpc.otherError "read: file already closed"))
      end
  | _ => Panic "invalid memory address or nil pointer dereference"
  end.

Definition receiver : Type_ := TPtr (TStruct "hello.Method").

(** The method set of [*Method], in the order reflection lists it. *)
Definition methodSet : list (reflect.Method rpc.FuncBody) :=
  [ mkMethod "Caption" [receiver; tContext] [TBasic t_string] rpc.otherFunc;
    mkMethod "Description" [receiver; tContext] [TBasic t_string] rpc.otherFunc;
    mkMethod "ErrorsV1" [receiver] [tAny]
      (rpc.accessorFunc (Some (TPtr (TStruct "hello.ErrorsV1"))));
    mkMethod "V1" [receiver; tContext; TPtr (TStruct "hello.ReqV1")]
      [TPtr (TStruct "hello.RespV1"); tError] (rpc.handlerFunc V1);
    mkMethod "V2" [receiver; tContext; TPtr (TStruct "hello.ReqV2")]
      [TBasic t_int; tError] (rpc.handlerFunc V2);
    mkMethod "V3" [receiver; tContext; TPtr (TStruct "hello.ReqV3")]
      [TPtr (TStruct "hello.RespV3"); tError] (rpc.handlerFunc V3) ].

(** [hello.New()] *)
Definition New : rpc.Method := rpc.mkService receiver methodSet "Test" "Test method".

(** [rpc.New("github.com/go-qbit/rpc/internal/test/method")] of rpc_test.go. *)
Definition testRpc : rpc.Rpc := rpc.New "github.com/go-qbit/rpc/internal/test/method" 0.

(** The documents the examples post to [/hello/v1]; for brevity a document
    is known by its integer parameter, and carries a well-formed string and
    a well-formed nested struct beside it, as the request of rpc_test.go
    does. *)
Definition postInt (n : Z) : string * (rpc.Value -> rpc.Value) :=
  (docInt "int_param" n,
   fun req =>
     setAt 3 (rpc.VStruct [rpc.VNum t_uint 10])
       (setAt 1 (rpc.VString "test data") (setAt 0 (rpc.VNum t_int n) req))).

Definition json : rpc.Json := tableJson [postInt 99; postInt 150; postInt 201].

(** A multipart request for [/hello/v3]: the JSON part, then the file. *)
Definition jsonV3 : rpc.Json :=
  tableJson [(docInt "int_param" 7, setAt 0 (rpc.VNum t_int 7))].

Definition upload (content : string) : rpc.Reader :=
  rpc.mkReader EmptyString
    [ rpc.mkPart "json_data" EmptyString (docInt "int_param" 7) None;
      rpc.mkPart "content" "a.txt" content None ]
    None.

(** The same request with a malformed JSON part after the file. *)
Definition uploadThenGarbage (content : string) : rpc.Reader :=
  rpc.mkReader EmptyString
    [ rpc.mkPart "content" "a.txt" content None;
      rpc.mkPart "json_data" EmptyString "a: 10" None ]
    None.


(** The descriptor registration derives for [V3]. *)
Definition descV3 : rpc.MethodDesc :=
  rpc.mkMethodDesc "/hello/v3" New (TPtr (TStruct "hello.ReqV3")) (TPtr (TStruct "hello.RespV3"))
    (rpc.handlerFunc V3) ∅ ∅.

Definition start : rpc.World := rpc.mkWorld os.healthy [].

(** The descriptor registration derives for [V1]. *)
Definition validatorsV1 : gmap string (list rpc.validateFunc) :=
  match @rpc.getValidators onePattern env 20 (TPtr (TStruct "hello.ReqV1")) ∅ EmptyString with
  | Done (Ok validators) => validators
  | _ => ∅
  end.

Definition errorsV1 : gmap string string :=
  <["Error1" := "Error 1"]> (<["Error2" := "Error 2"]> (<["Error3" := "Error 3"]> ∅)).

Definition descV1 : rpc.MethodDesc :=
  rpc.mkMethodDesc "/hello/v1" New (TPtr (TStruct "hello.ReqV1")) (TPtr (TStruct "hello.RespV1"))
    (rpc.handlerFunc V1) errorsV1 validatorsV1.

(** The request the documents of [postInt] decode to. *)
Definition requestV1 (n : Z) : rpc.Value :=
  rpc.VPtr (rpc.VStruct
    [ rpc.VNum t_int n; rpc.VString "test data"; rpc.VNil;
      rpc.VStruct [rpc.VNum t_uint 10]; rpc.VNil; rpc.VBool false ]).

End hello.

(** ** Further services the theorems are evaluated on *)

(** A service whose response type refers to itself:
    [type Node struct { Value int; Next *Node }]. *)
Module tree.

Import reflect.

Definition pkg : string := "example.com/app/tree".

Definition Node : StructDef :=
  mkStruct pkg "Node"
    [ mkField "Value" (TBasic t_int) [("json", "value")];
      mkField "Next" (TPtr (TStruct "tree.Node")) [("json", "next")] ].

Definition Query : StructDef :=
  mkStruct pkg "Query" [ mkField "Depth" (TBasic t_int) [("json", "depth")] ].

Definition env : TypeEnv :=
  [ ("tree.Method", mkStruct pkg "Method" []); ("tree.Node", Node); ("tree.Query", Query) ].

(** [V1] answers with a list of one node. *)
Definition V1 : rpc.Handler := fun _ _ =>
  Done (rpc.VPtr (rpc.VStruct [rpc.VNum t_int 0; rpc.VNil]), None).

Definition receiver : Type_ := TPtr (TStruct "tree.Method").

Definition New : rpc.Method :=
  rpc.mkService receiver
    [ mkMethod "Caption" [receiver; hello.tContext] [TBasic t_string] rpc.otherFunc;
      mkMethod "Description" [receiver; hello.tContext] [TBasic t_string] rpc.otherFunc;
      mkMethod "V1" [receiver; hello.tContext; TPtr (TStruct "tree.Query")]
        [TPtr (TStruct "tree.Node"); hello.tError] (rpc.handlerFunc V1) ]
    "Tree" "A linked list".

Definition testRpc : rpc.Rpc := rpc.New "example.com/app" 0.

Definition noCrc : typescript.Crc32 := {| typescript.ChecksumIEEE _ := 0%N |}.

End tree.

(** A request field with an upper bound alone: [Limit int `maximum:"200"`]. *)
Definition limitField : reflect.StructField :=
  reflect.mkField "Limit" (reflect.TBasic reflect.t_int) [("json", "limit"); ("maximum", "200")].

(** A service in a package whose path has upper-case letters. *)
Module acme.

Import reflect.

Definition pkg : string := "github.com/Acme/Hello".

Definition env : TypeEnv :=
  [ ("acme.Method", mkStruct pkg "Method" []);
    ("acme.Req", mkStruct pkg "Req" [ mkField "Name" (TBasic t_string) [("json", "name")] ]) ].

Definition V1 : rpc.Handler := fun _ _ => Done (rpc.VString "hello", None).

Definition receiver : Type_ := TPtr (TStruct "acme.Method").

Definition New : rpc.Method :=
  rpc.mkService receiver
    [ mkMethod "Caption" [receiver; hello.tContext] [TBasic t_string] rpc.otherFunc;
      mkMethod "Description" [receiver; hello.tContext] [TBasic t_string] rpc.otherFunc;
      mkMethod "V1" [receiver; hello.tContext; TPtr (TStruct "acme.Req")]
        [TBasic t_string; hello.tError] (rpc.handlerFunc V1) ]
    "Acme" "Says hello".

End acme.

(** A service that declares the catalog [ErrorsV2] and no method [V2]. *)
Module orphan.

Import reflect.

Definition pkg : string := "example.com/app/orphan".

Definition ErrorsV2 : StructDef :=
  mkStruct EmptyString EmptyString
    [ mkField "NotFound" hello.tErrorFunc [("desc", "No such thing")] ].

Definition env : TypeEnv :=
  [ ("orphan.Method", mkStruct pkg "Method" []);
    ("orphan.Req", mkStruct pkg "Req" [ mkField "Id" (TBasic t_int) [("json", "id")] ]);
    ("orphan.ErrorsV2", ErrorsV2) ].

Definition V1 : rpc.Handler := fun _ _ => Done (rpc.VString "found", None).

Definition receiver : Type_ := TPtr (TStruct "orphan.Method").

Definition ErrorsV2Method : reflect.Method rpc.FuncBody :=
  mkMethod "ErrorsV2" [receiver] [hello.tAny]
    (rpc.accessorFunc (Some (TPtr (TStruct "orphan.ErrorsV2")))).

Definition New : rpc.Method :=
  rpc.mkService receiver
    [ mkMethod "Caption" [receiver; hello.tContext] [TBasic t_string] rpc.otherFunc;
      mkMethod "Description" [receiver; hello.tContext] [TBasic t_string] rpc.otherFunc;
      ErrorsV2Method;
      mkMethod "V1" [receiver; hello.tContext; TPtr (TStruct "orphan.Req")]
        [TBasic t_string; hello.tError] (rpc.handlerFunc V1) ]
    "Orphan" "A catalog without its method".

Definition testRpc : rpc.Rpc := rpc.New "example.com/app" 0.

End orphan.

(** The same service with a catalog for the absent version 2 that has no
    field: [func (m *Method) ErrorsV2() interface{} { return &struct{}{} }]. *)
Module vacant.

Import reflect.

Definition pkg : string := "example.com/app/vacant".

Definition ErrorsV2 : StructDef := mkStruct EmptyString EmptyString [].

Definition env : TypeEnv :=
  [ ("vacant.Method", mkStruct pkg "Method" []);
    ("vacant.Req", mkStruct pkg "Req" [ mkField "Id" (TBasic t_int) [("json", "id")] ]);
    ("vacant.ErrorsV2", ErrorsV2) ].

Definition V1 : rpc.Handler := fun _ _ => Done (rpc.VString "found", None).

Definition receiver : Type_ := TPtr (TStruct "vacant.Method").

Definition ErrorsV2Method : reflect.Method rpc.FuncBody :=
  mkMethod "ErrorsV2" [receiver] [hello.tAny]
    (rpc.accessorFunc (Some (TPtr (TStruct "vacant.ErrorsV2")))).

Definition New : rpc.Method :=
  rpc.mkService receiver
    [ mkMethod "Caption" [receiver; hello.tContext] [TBasic t_string] rpc.otherFunc;
      mkMethod "Description" [receiver; hello.tContext] [TBasic t_string] rpc.otherFunc;
      ErrorsV2Method;
      mkMethod "V1" [receiver; hello.tContext; TPtr (TStruct "vacant.Req")]
        [TBasic t_string; hello.tError] (rpc.handlerFunc V1) ]
    "Vacant" "A catalog without fields and without its method".

Definition testRpc : rpc.Rpc := rpc.New "example.com/app" 0.

End vacant.

(** A service with [V1] and its catalog [ErrorsV1], and a second catalog
    [ErrorsV2] for a version that has no method. *)
Module stray.

Import reflect.

Definition pkg : string := "example.com/app/stray".

Definition ErrorsV1 : StructDef :=
  mkStruct EmptyString EmptyString
    [ mkField "NotFound" hello.tErrorFunc [("desc", "No such thing")] ].

Definition ErrorsV2 : StructDef :=
  mkStruct EmptyString EmptyString
    [ mkField "Gone" hello.tErrorFunc [("desc", "No longer there")] ].

Definition env : TypeEnv :=
  [ ("stray.Method", mkStruct pkg "Method" []);
    ("stray.Req", mkStruct pkg "Req" [ mkField "Id" (TBasic t_int) [("json", "id")] ]);
    ("stray.ErrorsV1", ErrorsV1);
    ("stray.ErrorsV2", ErrorsV2) ].

Definition V1 : rpc.Handler := fun _ _ => Done (rpc.VString "found", None).

Definition receiver : Type_ := TPtr (TStruct "stray.Method").

Definition ErrorsV1Method : reflect.Method rpc.FuncBody :=
  mkMethod "ErrorsV1" [receiver] [hello.tAny]
    (rpc.accessorFunc (Some (TPtr (TStruct "stray.ErrorsV1")))).

Definition ErrorsV2Method : reflect.Method rpc.FuncBody :=
  mkMethod "ErrorsV2" [receiver] [hello.tAny]
    (rpc.accessorFunc (Some (TPtr (TStruct "stray.ErrorsV2")))).

Definition New : rpc.Method :=
  rpc.mkService receiver
    [ mkMethod "Caption" [receiver; hello.tContext] [TBasic t_string] rpc.otherFunc;
      mkMethod "Description" [receiver; hello.tContext] [TBasic t_string] rpc.otherFunc;
      ErrorsV1Method;
      ErrorsV2Method;
      mkMethod "V1" [receiver; hello.tContext; TPtr (TStruct "stray.Req")]
        [TBasic t_string; hello.tError] (rpc.handlerFunc V1) ]
    "Stray" "A bound catalog and one without its method".

Definition testRpc : rpc.Rpc := rpc.New "example.com/app" 0.

End stray.

(** A service with an unsigned field bounded from both sides at the top of
    its request: [Count uint `minimum:"1" maximum:"200"`]. *)
Module limits.

Import reflect.

Definition pkg : string := "example.com/app/limits".

Definition Count : StructField :=
  mkField "Count" (TBasic t_uint) [("json", "count"); ("minimum", "1"); ("maximum", "200")].

Definition Req : StructDef := mkStruct pkg "Req" [Count].

Definition env : TypeEnv := [ ("limits.Method", mkStruct pkg "Method" []); ("limits.Req", Req) ].

(** [V1] answers with the count it was given. *)
Definition V1 : rpc.Handler := fun _ r =>
  match r with
  | rpc.VPtr (rpc.VStruct [rpc.VNum t_uint count]) => Done (rpc.VNum t_uint count, None)
  | _ => Panic "invalid memory address or nil pointer dereference"
  end.

Definition receiver : Type_ := TPtr (TStruct "limits.Method").

Definition New : rpc.Method :=
  rpc.mkService receiver
    [ mkMethod "Caption" [receiver; hello.tContext] [TBasic t_string] rpc.otherFunc;
      mkMethod "Description" [receiver; hello.tContext] [TBasic t_string] rpc.otherFunc;
      mkMethod "V1" [receiver; hello.tContext; TPtr (TStruct "limits.Req")]
        [TBasic t_uint; hello.tError] (rpc.handlerFunc V1) ]
    "Limits" "Counts".

Definition validatorsV1 : gmap string (list rpc.validateFunc) :=
  match @rpc.getValidators onePattern env 20 (TPtr (TStruct "limits.Req")) ∅ EmptyString with
  | Done (Ok validators) => validators
  | _ => ∅
  end.

Definition descV1 : rpc.MethodDesc :=
  rpc.mkMethodDesc "/limits/v1" New (TPtr (TStruct "limits.Req")) (TBasic t_uint)
    (rpc.handlerFunc V1) ∅ validatorsV1.

Definition json : rpc.Json :=
  tableJson [(docInt "count" 500, setAt 0 (rpc.VNum t_uint 500))].

End limits.

(** A service whose catalog declares an error named [INVALID_JSON], and whose
    handler always answers with it. *)
Module picky.

Import reflect.

Definition pkg : string := "example.com/app/picky".

Definition ErrorsV1 : StructDef :=
  mkStruct EmptyString EmptyString
    [ mkField "INVALID_JSON" hello.tErrorFunc [("desc", "Not acceptable")] ].

Definition env : TypeEnv :=
  [ ("picky.Method", mkStruct pkg "Method" []);
    ("picky.Req", mkStruct pkg "Req" [ mkField "Id" (TBasic t_int) [("json", "id")] ]);
    ("picky.ErrorsV1", ErrorsV1) ].

(** [return nil, ErrorsV1.INVALID_JSON("not today")] *)
Definition V1 : rpc.Handler := fun _ _ =>
  Done (rpc.VNil, Some (rpc.rpcError (rpc.mkError "INVALID_JSON" "not today" None))).

Definition receiver : Type_ := TPtr (TStruct "picky.Method").

Definition New : rpc.Method :=
  rpc.mkService receiver
    [ mkMethod "Caption" [receiver; hello.tContext] [TBasic t_string] rpc.otherFunc;
      mkMethod "Description" [receiver; hello.tContext] [TBasic t_string] rpc.otherFunc;
      mkMethod "ErrorsV1" [receiver] [hello.tAny]
        (rpc.accessorFunc (Some (TPtr (TStruct "picky.ErrorsV1"))));
      mkMethod "V1" [receiver; hello.tContext; TPtr (TStruct "picky.Req")]
        [TPtr (TStruct "picky.Req"); hello.tError] (rpc.handlerFunc V1) ]
    "Picky" "Refuses".

Definition descV1 : rpc.MethodDesc :=
  rpc.mkMethodDesc "/picky/v1" New (TPtr (TStruct "picky.Req")) (TPtr (TStruct "picky.Req"))
    (rpc.handlerFunc V1) (<["INVALID_JSON" := "Not acceptable"]> ∅) ∅.

Definition json : rpc.Json := tableJson [(docInt "id" 1, setAt 0 (rpc.VNum t_int 1))].

End picky.

(** A service whose request declares a bound that is no number:
    [Limit int `json:"limit" minimum:"ten"`]. *)
Module sloppy.

Import reflect.

Definition pkg : string := "example.com/app/sloppy".

Definition Limit : StructField :=
  mkField "Limit" (TBasic t_int) [("json", "limit"); ("minimum", "ten")].

Definition Req : StructDef :=
  mkStruct pkg "Req" [ mkField "Name" (TBasic t_string) [("json", "name")]; Limit ].

Definition env : TypeEnv := [ ("sloppy.Method", mkStruct pkg "Method" []); ("sloppy.Req", Req) ].

Definition V1 : rpc.Handler := fun _ _ => Done (rpc.VString "ok", None).

Definition receiver : Type_ := TPtr (TStruct "sloppy.Method").

Definition V1Method : reflect.Method rpc.FuncBody :=
  mkMethod "V1" [receiver; hello.tContext; TPtr (TStruct "sloppy.Req")]
    [TBasic t_string; hello.tError] (rpc.handlerFunc V1).

Definition New : rpc.Method :=
  rpc.mkService receiver
    [ mkMethod "Caption" [receiver; hello.tContext] [TBasic t_string] rpc.otherFunc;
      mkMethod "Description" [receiver; hello.tContext] [TBasic t_string] rpc.otherFunc;
      V1Method ]
    "Sloppy" "A malformed bound".

Definition testRpc : rpc.Rpc := rpc.New "example.com/app" 0.

End sloppy.

(** A service whose catalog [ErrorsV1] holds a field that is no
    [rpc.ErrorFunc]: [var ErrorsV1 struct { NotFound rpc.ErrorFunc; Hint string }]. *)
Module mixed.

Import reflect.

Definition pkg : string := "example.com/app/mixed".

Definition ErrorsV1 : StructDef :=
  mkStruct EmptyString EmptyString
    [ mkField "NotFound" hello.tErrorFunc [("desc", "No such thing")];
      mkField "Hint" (TBasic t_string) [] ].

Definition env : TypeEnv :=
  [ ("mixed.Method", mkStruct pkg "Method" []);
    ("mixed.Req", mkStruct pkg "Req" [ mkField "Id" (TBasic t_int) [("json", "id")] ]);
    ("mixed.ErrorsV1", ErrorsV1) ].

Definition V1 : rpc.Handler := fun _ _ => Done (rpc.VString "found", None).

Definition receiver : Type_ := TPtr (TStruct "mixed.Method").

Definition New : rpc.Method :=
  rpc.mkService receiver
    [ mkMethod "Caption" [receiver; hello.tContext] [TBasic t_string] rpc.otherFunc;
      mkMethod "Description" [receiver; hello.tContext] [TBasic t_string] rpc.otherFunc;
      mkMethod "ErrorsV1" [receiver] [hello.tAny]
        (rpc.accessorFunc (Some (TPtr (TStruct "mixed.ErrorsV1"))));
      mkMethod "V1" [receiver; hello.tContext; TPtr (TStruct "mixed.Req")]
        [TBasic t_string; hello.tError] (rpc.handlerFunc V1) ]
    "Mixed" "A catalog with a stray field".

Definition testRpc : rpc.Rpc := rpc.New "example.com/app" 0.

End mixed.

(** A request with constraints on fields whose kinds have no rules:
    [Limit *int `minimum:"100"`] and [Tags []string `pattern:".{2,}"`]. *)
Module optional.

Import reflect.

Definition pkg : string := "example.com/app/optional".

Definition Limit : StructField :=
  mkField "Limit" (TPtr (TBasic t_int)) [("json", "limit"); ("minimum", "100")].

Definition Tags : StructField :=
  mkField "Tags" (TSlice (TBasic t_string)) [("json", "tags"); ("pattern", ".{2,}")].

Definition Req : StructDef := mkStruct pkg "Req" [Limit; Tags].

Definition env : TypeEnv := [ ("optional.Req", Req) ].

End optional.

(** ** Notions the statements use *)

(** A text without upper-case letters. *)
Definition isLower (s : string) : Prop := strings.ToLower s = s.

(** Every file open in [fs] is open in [fs']. *)
Definition keepsOpen (fs fs' : os.FS) : Prop :=
  forall name, is_Some (os.handles fs !! name) -> is_Some (os.handles fs' !! name).

(** The path of the descriptor derived for the method [goMethod] of a
    service whose stripped package path is [path]. *)
Definition descPath (path : string) (goMethod : reflect.Method rpc.FuncBody) : string :=
  path ++ "/" ++ strings.ToLower (reflect.mName goMethod).

Definition versionMethods (m : rpc.Method) : list (reflect.Method rpc.FuncBody) :=
  List.filter (fun g => rpc.isVersionMethod (reflect.mName g)) (rpc.svcMethods m).

(** The package path of a service with the trim prefix (less a final slash)
    taken off. *)
Definition strippedPath (env : reflect.TypeEnv) (m : rpc.Method) (trimPrefix : string) : string :=
  strings.TrimPrefix (rpc.servicePkgPath env m) (strings.TrimSuffix trimPrefix "/").

(** Does the byte [c] occur in [s]. *)
Fixpoint hasByte (c : ascii) (s : string) : bool :=
  match s with
  | EmptyString => false
  | String a s' => Ascii.eqb a c || hasByte c s'
  end.

(** The text [sub] occurs in [s]. *)
Definition occursIn (sub s : string) : Prop := exists x y, s = x ++ sub ++ y.

(** A line of text: no newline in it. *)
Definition oneLine (s : string) : Prop := hasByte (ascii_of_nat 10) s = false.

(** A letter or a digit. *)
Fixpoint alphanumeric (s : string) : bool :=
  match s with
  | EmptyString => true
  | String c s' => (strings.isLetter c || strings.isDigit c) && alphanumeric s'
  end.

(** The options [WithCors] and [WithMaxMemory] build. *)
Definition plainOption (f : rpc.OptsFunc) : Prop :=
  (exists allowedOrigins, f = rpc.WithCors allowedOrigins)
  \/ (exists size, f = rpc.WithMaxMemory size).

(** The registry of rpc_test.go once [/hello/v1] and [/hello/v3] are
    registered. *)
Definition helloRpc : rpc.Rpc :=
  rpc.mkRpc "github.com/go-qbit/rpc/internal/test/method"
    (<["/hello/v1" := hello.descV1]> (<["/hello/v3" := hello.descV3]> ∅)) 0.

(** A list of texts in strictly ascending byte-wise order. *)
Fixpoint ascending (l : list string) : bool :=
  match l with
  | x :: rest =>
      match rest with
      | y :: _ => String.ltb x y && ascending rest
      | [] => true
      end
  | [] => true
  end.

(** A text of decimal digits only. *)
Fixpoint digits (s : string) : bool :=
  match s with
  | EmptyString => true
  | String c s' => strings.isDigit c && digits s'
  end.

(** The signature [descsFromMethod] asks of a version method: the receiver,
    a [context.Context] and the request come in; the response and an
    [error] go out. *)
Definition versionSignature (env : reflect.TypeEnv) (g : reflect.Method rpc.FuncBody) : Prop :=
  length (reflect.mIn g) = 3%nat
  /\ reflect.TypeString env (nth 1 (reflect.mIn g) (reflect.TBasic reflect.t_bool))
     = "context.Context"
  /\ length (reflect.mOut g) = 2%nat
  /\ reflect.TypeString env (nth 1 (reflect.mOut g) (reflect.TBasic reflect.t_bool)) = "error".

(** The descriptor [md] is what [descsFromMethod] derives from the method
    [g] of the service [m]. *)
Definition describes `{rpc.Regexp} (env : reflect.TypeEnv) (fuel : nat) (m : rpc.Method)
    (md : rpc.MethodDesc) (g : reflect.Method rpc.FuncBody) : Prop :=
  rpc.Method_ md = m
  /\ rpc.Request md = nth 2 (reflect.mIn g) (reflect.TBasic reflect.t_bool)
  /\ rpc.Response md = nth 0 (reflect.mOut g) (reflect.TBasic reflect.t_bool)
  /\ rpc.Func md = reflect.mFunc g
  /\ rpc.Errors md = ∅
  /\ rpc.getValidators env fuel (rpc.Request md) ∅ "" = Done (Ok (rpc.Validators md)).

(** Two descriptors that differ in their error catalog at most. *)
Definition sameButErrors (md md' : rpc.MethodDesc) : Prop :=
  rpc.Path md' = rpc.Path md
  /\ rpc.Method_ md' = rpc.Method_ md
  /\ rpc.Request md' = rpc.Request md
  /\ rpc.Response md' = rpc.Response md
  /\ rpc.Func md' = rpc.Func md
  /\ rpc.Validators md' = rpc.Validators md.

(** The nesting depth of a type, when the struct [id] is given the depth
    [rank id]; and the type tables in which every field is shallower than
    the struct it belongs to, which therefore have no cycle. *)
Fixpoint typeDepth (rank : string -> nat) (t : reflect.Type_) : nat :=
  match t with
  | reflect.TPtr e | reflect.TSlice e | reflect.TArray e => S (typeDepth rank e)
  | reflect.TStruct id => S (rank id)
  | _ => 1
  end.

Definition ranked (env : reflect.TypeEnv) (rank : string -> nat) : bool :=
  forallb (fun '(id, d) =>
             forallb (fun f => (typeDepth rank (reflect.Typ f) <=? rank id)%nat)
                     (reflect.sFields d))
          env.

(** The predicates the rules [vs] compile to for the field [f], in order:
    what registration appends under the path of [f] when no tag of [f] is
    malformed. *)
Fixpoint compiledFuncs `{rpc.Regexp} (vs : list rpc.validator) (f : reflect.StructField)
  : list rpc.validateFunc :=
  match vs with
  | [] => []
  | v :: rest =>
      match rpc.GetValidateFunc v f with
      | Ok (Some vFunc) => vFunc :: compiledFuncs rest f
      | _ => compiledFuncs rest f
      end
  end.

(** The predicates of the field [f]: those of the rules bound to its kind. *)
Definition fieldFuncs `{rpc.Regexp} (f : reflect.StructField) : list rpc.validateFunc :=
  compiledFuncs (rpc.validators (reflect.kind (reflect.Typ f))) f.


(** The frame of a walk over a type: it leaves alone every key that does not
    extend [curPath/]. *)
Definition framed
    (rec : reflect.Type_ -> gmap string (list rpc.validateFunc) -> string
           -> outcome (result (gmap string (list rpc.validateFunc)) string)) : Prop :=
  forall t V cur V', rec t V cur = Done (Ok V') ->
  forall k, strings.HasPrefix k (cur ++ "/") = false -> V' !! k = V !! k.





Import header.

Lemma splitOn_cons c s : exists h tl, strings.splitOn c s = h :: tl.
Proof.
  induction s as [|a s IH]; simpl; [eauto|].
  destruct (Ascii.eqb a c); [eauto|].
  destruct IH as (h & tl & ->). eauto.
Qed.

Lemma headTok_String a s :
  headTok (String a s) = if Ascii.eqb a "," then "" else String a (headTok s).
Proof.
  unfold headTok. simpl.
  destruct (Ascii.eqb a ","); [reflexivity|].
  destruct (splitOn_cons "," s) as (h & tl & ->). reflexivity.
Qed.

Lemma tokHere_headTok t : noComma t = true -> forall s, tokHere t s = String.eqb (headTok s) t.
Proof.
  induction t as [|c t IH]; intros Hc s.
  - unfold tokHere. simpl. destruct s as [|a s]; [reflexivity|].
    rewrite headTok_String. simpl.
    destruct (Ascii.eqb_spec a ","); [subst; reflexivity|].
    simpl. reflexivity.
  - simpl in Hc. apply andb_prop in Hc as [Hc1 Hc2].
    destruct s as [|a s]; [reflexivity|].
    rewrite headTok_String. unfold tokHere in *. simpl.
    destruct (Ascii.eqb_spec a ",") as [->|Hne].
    + destruct (Ascii.eqb_spec "," c); [subst; discriminate|]. reflexivity.
    + simpl. destruct (Ascii.eqb_spec a c) as [->|Hca]; [|reflexivity].
      apply IH, Hc2.
Qed.

Lemma matchesHere_reGzip bol s :
  regexp.matchesHere header.reGzip bol s
  = (bol && tokHere "gzip" s) || (strings.HasPrefix s "," && tokHere "gzip" (strings.drop 1 s)).
Proof.
  unfold regexp.matchesHere, header.reGzip, tokHere.
  cbn [regexp.matchHere String.length].
  destruct bol; cbn [app flat_map andb orb].
  - destruct (strings.HasPrefix s "gzip") eqn:E1; cbn [app flat_map andb orb].
    + destruct (strings.HasPrefix (strings.drop 4 s) ",") eqn:E2; cbn [app flat_map andb orb]; [reflexivity|].
      destruct (strings.drop 4 s =? "")%string eqn:E3; cbn [app flat_map andb orb]; [reflexivity|].
      destruct (strings.HasPrefix s ",") eqn:E4; cbn [app flat_map andb orb]; [|reflexivity].
      destruct s as [|a s]; [discriminate|]. simpl in E1, E4.
      destruct (Ascii.eqb_spec a ","); [subst; discriminate|discriminate].
    + destruct (strings.HasPrefix s ",") eqn:E4; cbn [app flat_map andb orb]; [|reflexivity].
      destruct (strings.HasPrefix (strings.drop 1 s) "gzip") eqn:E5; cbn [app flat_map andb orb]; [|reflexivity].
      destruct (strings.HasPrefix (strings.drop 4 (strings.drop 1 s)) ","); cbn [app flat_map andb orb]; [reflexivity|].
      destruct (strings.drop 4 (strings.drop 1 s) =? "")%string; reflexivity.
  - destruct (strings.HasPrefix s ",") eqn:E4; cbn [app flat_map andb orb]; [|reflexivity].
    destruct (strings.HasPrefix (strings.drop 1 s) "gzip") eqn:E5; cbn [app flat_map andb orb]; [|reflexivity].
    destruct (strings.HasPrefix (strings.drop 4 (strings.drop 1 s)) ","); cbn [app flat_map andb orb]; [reflexivity|].
    destruct (strings.drop 4 (strings.drop 1 s) =? "")%string; reflexivity.
Qed.

Lemma search_reGzip s : forall bol,
  regexp.search header.reGzip bol s
  = (bol && String.eqb (headTok s) "gzip")
    || existsb (String.eqb "gzip") (tl (strings.splitOn "," s)).
Proof.
  induction s as [|a s IH]; intros bol.
  - destruct bol; reflexivity.
  - cbn [regexp.search]. rewrite IH, matchesHere_reGzip.
    rewrite !tokHere_headTok by reflexivity.
    rewrite headTok_String. cbn [strings.HasPrefix strings.drop strings.splitOn].
    destruct (Ascii.eqb_spec a ",") as [->|Hne].
    + cbn [tl]. destruct (splitOn_cons "," s) as (h & t & E). unfold headTok. rewrite E.
      cbn [hd existsb andb orb]. rewrite (String.eqb_sym "gzip" h).
      destruct bol; cbn; destruct (h =? "gzip")%string; reflexivity.
    + destruct (splitOn_cons "," s) as (h & t & E). unfold headTok. rewrite E.
      cbn [hd tl andb orb]. rewrite Bool.orb_false_r. reflexivity.
Qed.

Theorem CanGzip_iff_token s :
  header.CanGzip s = true <-> In "gzip" (strings.Split s ",").
Proof.
  unfold header.CanGzip, regexp.MatchString. rewrite search_reGzip.
  change (strings.Split s ",") with (strings.splitOn "," s).
  unfold headTok. destruct (splitOn_cons "," s) as (h & t & ->).
  cbn [hd tl andb]. rewrite Bool.orb_true_iff, existsb_exists. split.
  - intros [H | (x & Hx & E)].
    + apply String.eqb_eq in H. left. exact H.
    + apply String.eqb_eq in E. subst. right. exact Hx.
  - intros [H | H].
    + left. apply String.eqb_eq. exact H.
    + right. exists "gzip". split; [exact H | apply String.eqb_refl].
Qed.

(* ---------- CanGzipFast is sound, and misses tokens ---------- *)

Lemma drop_drop n : forall m s, strings.drop n (strings.drop m s) = strings.drop (m + n) s.
Proof.
  intros m. induction m as [|m IH]; intros s; [reflexivity|].
  destruct s as [|a s]; simpl; [destruct n; reflexivity | apply IH].
Qed.

Lemma drop_all n : forall s, (String.length s <= n)%nat -> strings.drop n s = "".
Proof.
  induction n as [|n IH]; intros [|a s] H; simpl in *; try reflexivity; try lia.
  apply IH. lia.
Qed.

Lemma get_drop n : forall s c,
  String.get n s = Some c -> strings.HasPrefix (strings.drop n s) (String c "") = true.
Proof.
  induction n as [|n IH]; intros [|a s] c H; simpl in *; try discriminate.
  - injection H as ->. rewrite Ascii.eqb_refl. reflexivity.
  - apply IH, H.
Qed.

Lemma Index_lower s sub : -1 <= strings.Index s sub.
Proof.
  induction s as [|a s IH]; simpl.
  - destruct (strings.HasPrefix "" sub); lia.
  - destruct (strings.HasPrefix (String a s) sub); [lia|].
    destruct (strings.Index s sub <? 0) eqn:E; [lia|]. apply Z.ltb_ge in E. lia.
Qed.

Lemma Index_found sub : forall s,
  0 <= strings.Index s sub ->
  strings.HasPrefix (strings.drop (Z.to_nat (strings.Index s sub)) s) sub = true
  /\ (Z.to_nat (strings.Index s sub) <= String.length s)%nat.
Proof.
  induction s as [|a s IH]; simpl.
  - destruct (strings.HasPrefix "" sub) eqn:E; [simpl; auto | lia].
  - destruct (strings.HasPrefix (String a s) sub) eqn:E; [simpl; split; [exact E | lia]|].
    destruct (strings.Index s sub <? 0) eqn:E'; [lia|]. apply Z.ltb_ge in E'.
    intros _. destruct (IH E') as [H1 H2].
    replace (Z.to_nat (strings.Index s sub + 1)) with (S (Z.to_nat (strings.Index s sub))) by lia.
    simpl. split; [exact H1 | lia].
Qed.

Lemma search_at r : forall k s bol,
  (k <= String.length s)%nat ->
  regexp.matchesHere r (bol && Nat.eqb k 0) (strings.drop k s) = true ->
  regexp.search r bol s = true.
Proof.
  induction k as [|k IH]; intros s bol Hk H.
  - simpl in H. rewrite Bool.andb_true_r in H.
    destruct s; simpl; rewrite H; reflexivity.
  - destruct s as [|a s]; [simpl in Hk; lia|].
    cbn [regexp.search]. apply Bool.orb_true_iff. right.
    apply (IH s false); [simpl in Hk; lia|].
    simpl in H. rewrite Bool.andb_false_r in H. exact H.
Qed.

Lemma after_token s n :
  (Z.of_nat n =? strings.len s) || header.isComma (strings.at_ s (Z.of_nat n)) = true ->
  strings.HasPrefix (strings.drop n s) "," || String.eqb (strings.drop n s) "" = true.
Proof.
  intros H. apply Bool.orb_true_iff in H as [H | H].
  - apply Z.eqb_eq in H. unfold strings.len in H.
    rewrite (drop_all n s) by lia. reflexivity.
  - unfold strings.at_ in H. destruct (Z.of_nat n <? 0) eqn:E; [discriminate|].
    rewrite Nat2Z.id in H. destruct (String.get n s) as [c|] eqn:G; [|discriminate].
    simpl in H. apply Ascii.eqb_eq in H. subst c.
    rewrite (get_drop _ _ _ G). reflexivity.
Qed.

Theorem CanGzipFast_sound s :
  header.CanGzipFast s = true -> header.CanGzip s = true.
Proof.
  unfold header.CanGzipFast, header.CanGzip, regexp.MatchString.
  set (pos := strings.Index s "gzip").
  destruct (pos <? 0) eqn:Hneg; [discriminate|]. apply Z.ltb_ge in Hneg.
  destruct (Index_found "gzip" s Hneg) as [Hpre Hlen]. fold pos in Hpre, Hlen.
  destruct ((pos =? 0) || header.isComma (strings.at_ s (pos - 1))) eqn:Hleft;
    [|discriminate].
  cbn [negb]. intros Hright.
  assert (Hafter : strings.HasPrefix (strings.drop (Z.to_nat pos + 4) s) ","
                   || String.eqb (strings.drop (Z.to_nat pos + 4) s) "" = true).
  { apply after_token. replace (Z.of_nat (Z.to_nat pos + 4)) with (pos + 4) by lia.
    exact Hright. }
  apply Bool.orb_true_iff in Hleft as [H0 | Hc].
  - apply Z.eqb_eq in H0. rewrite H0 in *.
    change (Z.to_nat 0) with 0%nat in *. cbn [strings.drop Nat.add] in Hpre, Hafter.
    apply (search_at _ 0%nat); [lia|].
    rewrite matchesHere_reGzip. unfold tokHere at 1.
    cbn [andb Nat.eqb strings.drop String.length]. rewrite Hpre, Hafter. reflexivity.
  - unfold strings.at_ in Hc. destruct (pos - 1 <? 0) eqn:E; [discriminate|].
    apply Z.ltb_ge in E.
    destruct (String.get (Z.to_nat (pos - 1)) s) as [c|] eqn:G; [|discriminate].
    simpl in Hc. apply Ascii.eqb_eq in Hc. subst c.
    apply (search_at _ (Z.to_nat (pos - 1))); [lia|].
    rewrite matchesHere_reGzip. apply Bool.orb_true_iff. right.
    rewrite (get_drop _ _ _ G). cbn [andb]. unfold tokHere.
    rewrite !drop_drop. cbn [String.length].
    replace (Z.to_nat (pos - 1) + 1)%nat with (Z.to_nat pos) by lia.
    rewrite Hpre. cbn [andb]. exact Hafter.
Qed.

(** C1, at the failing input [gziptest,gzip]: [gzip] is the second
    comma-separated token, the regular expression of [CanGzip] finds it, and
    [CanGzipFast], which [ServeHTTP] calls, answers false, because the first
    occurrence of [gzip] in the text is no token. *)
Theorem CanGzipFast_misses_later_token :
  header.CanGzipFast "gziptest,gzip" = false
  /\ header.CanGzip "gziptest,gzip" = true
  /\ In "gzip" (strings.Split "gziptest,gzip" ",").
Proof.
  split; [reflexivity|]. split; [reflexivity|]. simpl. auto.
Qed.


(** ** Documentation of the constraint rules *)

Lemma ToSwaggerSchema_keeps_Maximum `{rpc.Regexp} v f schema schema' :
  rpc.ToSwaggerSchema v f schema = Ok schema' ->
  openapi.Maximum schema' = openapi.Maximum schema.
Proof.
  destruct v; simpl.
  - destruct (rpc.minimumIntValue f) as [[?|]|]; intros E; inversion E; reflexivity.
  - destruct (rpc.minimumUintValue f) as [[?|]|]; intros E; inversion E; reflexivity.
  - destruct (rpc.maximumIntValue f) as [[?|]|]; intros E; inversion E; reflexivity.
  - destruct (rpc.patternValue f) as [p|]; [|discriminate].
    destruct (String.eqb p ""); intros E; inversion E; reflexivity.
Qed.

(** No rule ever writes the [Maximum] of a schema: whatever the field and
    its tags, the documented maximum is the one the schema came with. *)
Theorem addFieldRestrictions_keeps_Maximum `{rpc.Regexp} f schema schema' :
  rpc.addFieldRestrictions f schema = Ok schema' ->
  openapi.Maximum schema' = openapi.Maximum schema.
Proof.
  unfold rpc.addFieldRestrictions.
  generalize (rpc.validators (reflect.kind (reflect.Typ f))) as vs.
  intros vs. revert schema. induction vs as [|v vs IH]; intros schema; simpl.
  - intros E. inversion E. reflexivity.
  - destruct (rpc.ToSwaggerSchema v f schema) as [s1|] eqn:E1; [|discriminate].
    intros E. rewrite (IH _ E). eapply ToSwaggerSchema_keeps_Maximum, E1.
Qed.

(** A signed-integer field that declares [maximum:"N"] gets [N] as the
    minimum of its schema, whatever minimum it declares. *)
Theorem maximum_documented_as_minimum `{rpc.Regexp} f t N schema schema' :
  rpc.signedInt (reflect.Typ f) ->
  reflect.Lookup (reflect.Tag f) "maximum" = Some t ->
  strconv.ParseInt t = Ok N ->
  rpc.addFieldRestrictions f schema = Ok schema' ->
  openapi.Minimum schema' = Some (openapi.I64 N)
  /\ openapi.Maximum schema' = openapi.Maximum schema.
Proof.
  intros Ht Hl Hp E. split; [|eapply addFieldRestrictions_keeps_Maximum, E].
  unfold rpc.addFieldRestrictions in E.
  assert (Hv : rpc.validators (reflect.kind (reflect.Typ f)) = rpc.intValidators).
  { destruct Ht as [-> | [-> | [-> | [-> | ->]]]]; reflexivity. }
  rewrite Hv in E. simpl in E.
  destruct (rpc.minimumIntValue f) as [[m|]|]; try discriminate;
    unfold rpc.maximumIntValue in E; rewrite Hl, Hp in E; inversion E; reflexivity.
Qed.

(** C2, at the failing input: for [Limit int `maximum:"200"`] the generated
    schema carries 200 as its minimum and no maximum at all; for the test
    service's [IntParam] (minimum 100, maximum 200) the documented minimum is
    200 and there is no maximum either, while the validator compiled from the
    same tags enforces 200 as the upper bound. *)
Theorem maximum_tag_is_documented_as_minimum (re : rpc.Regexp) :
  rpc.addFieldRestrictions limitField (openapi.withType "integer" "int64")
  = Ok (openapi.mkSchema "" "" "integer" "int64" None None (Some (openapi.I64 200)) None "")
  /\ rpc.addFieldRestrictions hello.IntParamV1 (openapi.withType "integer" "int64")
     = Ok (openapi.mkSchema "" "" "integer" "int64" None None (Some (openapi.I64 200)) None "")
  /\ rpc.GetValidateFunc rpc.vMaximumInt limitField = Ok (Some (rpc.maximumIntFunc limitField 200)).
Proof. repeat split; reflexivity. Qed.


(** ** Self-referential types *)

Lemma schemaFields_step `{rpc.Regexp} rec f rest j fl st :
  reflect.IsExported f = true ->
  String.eqb (rpc.jsonName f) "-" = false ->
  rpc.schemaFields rec (f :: rest) j fl st
  = rec (reflect.Typ f) st ≫= (fun '(fieldSchema, storage') =>
      match rpc.addFieldRestrictions f
              (openapi.setDescription (reflect.Get (reflect.Tag f) "desc") fieldSchema) with
      | Err e => Panic ("Invalid validator value: " ++ e)
      | Ok fieldSchema =>
          if decide (reflect.Typ f = rpc.fileType)
          then rpc.schemaFields rec rest j (<[rpc.jsonName f := fieldSchema]> fl) storage'
          else rpc.schemaFields rec rest (<[rpc.jsonName f := fieldSchema]> j) fl storage'
      end).
Proof. intros He Hn. cbn [rpc.schemaFields]. rewrite He, Hn. reflexivity. Qed.

(** [getSchema] looks the struct up, finds nothing (the name is stored only
    after the fields), and walks into the field [Next] again. *)
Lemma getSchema_Node_diverges `{rpc.Regexp} fuel : forall storage : rpc.Storage,
  storage !! "tree_node" = None ->
  rpc.getSchema tree.env "example.com/app" fuel (reflect.TStruct "tree.Node") storage = OutOfFuel
  /\ rpc.getSchema tree.env "example.com/app" fuel
       (reflect.TPtr (reflect.TStruct "tree.Node")) storage = OutOfFuel.
Proof.
  induction fuel as [|fuel IH]; intros storage Hs; [split; reflexivity|].
  destruct (IH storage Hs) as [IH1 IH2]. split; [|exact IH1].
  cbn [rpc.getSchema].
  change (rpc.typeName tree.env "example.com/app" (reflect.TStruct "tree.Node")) with "tree_node".
  rewrite Hs.
  change (reflect.sFields (reflect.structOf tree.env "tree.Node"))
    with (reflect.sFields tree.Node).
  destruct fuel as [|fuel]; [reflexivity|].
  unfold tree.Node, reflect.sFields.
  rewrite schemaFields_step by reflexivity.
  cbn [reflect.Typ].
  change (rpc.getSchema tree.env "example.com/app" (S fuel) (reflect.TBasic reflect.t_int) storage)
    with (Done (openapi.withType "integer" "int64", storage)).
  cbn [mbind outcome_bind obind].
  change (rpc.addFieldRestrictions ?f ?s) with (Ok (A:=openapi.Schema) (E:=string) s).
  destruct (decide _) as [Heq|_]; [discriminate Heq|].
  rewrite schemaFields_step by reflexivity.
  cbn [reflect.Typ]. rewrite IH2. reflexivity.
Qed.

Lemma addTsFields_step `{typescript.Crc32} rec f rest m :
  String.eqb (reflect.Get (reflect.Tag f) "json") "-" = false ->
  typescript.addTsFields rec (f :: rest) m
  = rec (reflect.Typ f) m ≫= (fun m' => typescript.addTsFields rec rest m').
Proof. intros Hn. cbn [typescript.addTsFields]. rewrite Hn. reflexivity. Qed.

(** [addTsStructTypes] stores the struct and walks its fields without ever
    asking whether the name was already stored. *)
Lemma addTsStructTypes_Node_diverges `{typescript.Crc32} fuel :
  forall m : gmap string reflect.Type_,
  typescript.addTsStructTypes tree.env "example.com/app" fuel (reflect.TStruct "tree.Node") m
  = OutOfFuel
  /\ typescript.addTsStructTypes tree.env "example.com/app" fuel
       (reflect.TPtr (reflect.TStruct "tree.Node")) m = OutOfFuel.
Proof.
  induction fuel as [|fuel IH]; intros m; [split; reflexivity|].
  split; [|apply IH].
  cbn [typescript.addTsStructTypes].
  change (typescript.typesOverrides _) with "". cbn [String.eqb negb].
  change (typescript.toTsTypeName tree.env "example.com/app" (reflect.TStruct "tree.Node"))
    with (Done (A:=string) "TreeNode").
  cbn [mbind outcome_bind obind].
  change (reflect.sFields (reflect.structOf tree.env "tree.Node"))
    with (reflect.sFields tree.Node).
  unfold tree.Node, reflect.sFields.
  rewrite addTsFields_step by reflexivity. cbn [reflect.Typ].
  destruct fuel as [|fuel]; [reflexivity|].
  change (typescript.addTsStructTypes tree.env "example.com/app" (S fuel)
            (reflect.TBasic reflect.t_int) ?m0) with (Done m0).
  cbn [mbind outcome_bind obind].
  rewrite addTsFields_step by reflexivity. cbn [reflect.Typ].
  rewrite (proj2 (IH _)). reflexivity.
Qed.

(** C3, at the failing input [type Node struct { Value int; Next *Node }]:
    whatever the fuel, neither projection returns. *)
Theorem projections_diverge_on_self_reference
    (re : rpc.Regexp) (crc : typescript.Crc32) (fuel : nat) :
  rpc.getSchema tree.env "example.com/app" fuel (reflect.TPtr (reflect.TStruct "tree.Node")) ∅
  = OutOfFuel
  /\ typescript.addTsStructTypes tree.env "example.com/app" fuel
       (reflect.TPtr (reflect.TStruct "tree.Node")) ∅ = OutOfFuel.
Proof.
  split.
  - apply getSchema_Node_diverges. reflexivity.
  - apply addTsStructTypes_Node_diverges.
Qed.


(** ** Release of files *)

(** Closing a spooled file deletes its storage, and a second close fails
    without touching the file system: the storage is deleted at most once. *)
Theorem tmpFile_Close_removes name filename fs content off :
  os.files fs !! name = Some content ->
  os.handles fs !! name = Some off ->
  exists fs',
    rpc.Close (rpc.tmpFile name filename) fs = (None, fs')
    /\ os.files fs' !! name = None
    /\ os.handles fs' !! name = None
    /\ rpc.Close (rpc.tmpFile name filename) fs' = (Some "close: file already closed", fs').
Proof.
  intros Hf Hh. unfold rpc.Close, os.Close, os.Remove. rewrite Hh. cbn [os.files os.handles].
  rewrite Hf. eexists. split; [reflexivity|]. cbn [os.files os.handles].
  rewrite !lookup_delete_eq. auto.
Qed.

Lemma keepsOpen_refl fs : keepsOpen fs fs.
Proof. intros name H. exact H. Qed.

Lemma keepsOpen_trans fs1 fs2 fs3 : keepsOpen fs1 fs2 -> keepsOpen fs2 fs3 -> keepsOpen fs1 fs3.
Proof. intros H1 H2 name H. apply H2, H1, H. Qed.

Lemma CreateTemp_keepsOpen pattern fs : keepsOpen fs (os.CreateTemp pattern fs).2.
Proof.
  unfold os.CreateTemp. destruct (os.failCreate fs); [apply keepsOpen_refl|].
  intros name H. cbn [snd os.handles].
  destruct (decide (os.tempName pattern (os.created fs) = name)) as [->|Hne].
  - rewrite lookup_insert_eq. eauto.
  - rewrite lookup_insert_ne by exact Hne. exact H.
Qed.

Lemma Write_keepsOpen name data fs : keepsOpen fs (os.Write name data fs).2.
Proof.
  unfold os.Write.
  destruct (os.handles fs !! name) as [off|]; [|apply keepsOpen_refl].
  destruct (os.files fs !! name) as [old|]; [|apply keepsOpen_refl].
  destruct (os.failWrite fs); [apply keepsOpen_refl|].
  intros n H. cbn [snd os.handles].
  destruct (decide (name = n)) as [->|Hne].
  - rewrite lookup_insert_eq. eauto.
  - rewrite lookup_insert_ne by exact Hne. exact H.
Qed.

Lemma SeekStart_keepsOpen name fs : keepsOpen fs (os.SeekStart name fs).2.
Proof.
  unfold os.SeekStart.
  destruct (os.handles fs !! name) as [off|]; [|apply keepsOpen_refl].
  destruct (os.failSeek fs); [apply keepsOpen_refl|].
  intros n H. cbn [snd os.handles].
  destruct (decide (name = n)) as [->|Hne].
  - rewrite lookup_insert_eq. eauto.
  - rewrite lookup_insert_ne by exact Hne. exact H.
Qed.

Lemma Remove_keepsOpen name fs : keepsOpen fs (os.Remove name fs).2.
Proof.
  unfold os.Remove. destruct (os.files fs !! name); intros n H; exact H.
Qed.

Lemma captureFile_keepsOpen p maxMemory fs : keepsOpen fs (rpc.captureFile p maxMemory fs).2.
Proof.
  unfold rpc.captureFile.
  destruct (rpc.CopyN _ _ _) as [[[n err] buffered] unread].
  assert (Hspool : keepsOpen fs
    (match os.CreateTemp "rpc-multipart-" fs with
     | (Err e, fs0) => (Err (rpc.otherError e), fs0)
     | (Ok tmp, fs0) =>
         match os.Write tmp (buffered ++ unread) fs0 with
         | (Some e, fs1) => (Err (rpc.otherError e), (os.Remove tmp fs1).2)
         | (None, fs1) =>
             match rpc.ReadErr p with
             | Some e => (Err (rpc.otherError e), (os.Remove tmp fs1).2)
             | None =>
                 match os.SeekStart tmp fs1 with
                 | (Some e, fs2) => (Err (rpc.otherError e), (os.Remove tmp fs2).2)
                 | (None, fs2) => (Ok (rpc.tmpFile tmp ""), fs2)
                 end
             end
         end
     end : result rpc.File rpc.error * os.FS).2).
  { pose proof (CreateTemp_keepsOpen "rpc-multipart-" fs) as H0.
    destruct (os.CreateTemp "rpc-multipart-" fs) as [[tmp|e] fs0]; cbn [snd] in *; [|exact H0].
    pose proof (Write_keepsOpen tmp (buffered ++ unread) fs0) as H1.
    destruct (os.Write tmp (buffered ++ unread) fs0) as [[e|] fs1]; cbn [snd] in *.
    { eapply keepsOpen_trans; [exact H0|]. eapply keepsOpen_trans; [exact H1|].
      apply Remove_keepsOpen. }
    destruct (rpc.ReadErr p) as [e|]; cbn [snd].
    { eapply keepsOpen_trans; [exact H0|]. eapply keepsOpen_trans; [exact H1|].
      apply Remove_keepsOpen. }
    pose proof (SeekStart_keepsOpen tmp fs1) as H2.
    destruct (os.SeekStart tmp fs1) as [[e|] fs2]; cbn [snd] in *.
    { eapply keepsOpen_trans; [exact H0|]. eapply keepsOpen_trans; [exact H1|].
      eapply keepsOpen_trans; [exact H2|]. apply Remove_keepsOpen. }
    eapply keepsOpen_trans; [exact H0|]. eapply keepsOpen_trans; [exact H1|]. exact H2. }
  destruct err as [[| |]|]; try apply keepsOpen_refl;
    (destruct (maxMemory <? n); [exact Hspool | apply keepsOpen_refl]).
Qed.

Lemma readParts_keepsOpen `{rpc.Regexp} `{rpc.Json} env m ps end_ maxMemory :
  forall req fs, keepsOpen fs (rpc.readParts env m ps end_ maxMemory req fs).2.
Proof.
  induction ps as [|p ps IH]; intros req fs; cbn [rpc.readParts].
  - destruct end_; apply keepsOpen_refl.
  - destruct (rpc.checkFileField _ _) as [name|].
    + pose proof (captureFile_keepsOpen p maxMemory fs) as Hc.
      destruct (rpc.captureFile p maxMemory fs) as [[file|e] fs0]; cbn [snd] in *; [|exact Hc].
      eapply keepsOpen_trans; [exact Hc | apply IH].
    + destruct (rpc.Decode _ _ _ _) as [req'|[| |]]; try apply IH; apply keepsOpen_refl.
Qed.

(** The pipeline closes nothing: every file that was open when [Call] began
    is open when it returns, and so is every file it opened itself and did
    not fail on.  No path of [Call] reaches [Close]. *)
Theorem Call_closes_nothing `{rpc.Regexp} `{rpc.Json} env m r boundary maxMemory w res w' :
  rpc.Call env m r boundary maxMemory w = Done (res, w') ->
  keepsOpen (rpc.fs w) (rpc.fs w').
Proof.
  unfold rpc.Call. destruct (reflect.Elem (rpc.Request m)) as [elem|]; [|discriminate].
  set (req := rpc.VPtr (rpc.zero env elem)).
  assert (Hd : keepsOpen (rpc.fs w)
    (if negb (String.eqb boundary "")
     then rpc.readParts env m (rpc.parts r) (rpc.partsErr r) maxMemory req (rpc.fs w)
     else match rpc.Decode env (rpc.Request m) (rpc.body r) req with
          | Ok req' => (Ok req', rpc.fs w)
          | Err e => (Err (rpc.invalidJSON (rpc.errorText e)), rpc.fs w)
          end).2).
  { destruct (negb (String.eqb boundary "")); [apply readParts_keepsOpen|].
    destruct (rpc.Decode _ _ _ _); apply keepsOpen_refl. }
  destruct (if negb (String.eqb boundary "") then _ else _) as [[req1|e] fs1]; cbn [snd] in Hd.
  - destruct (if (0 <? size (rpc.Validators m))%nat then _ else _) as [[msg|]| |];
      cbn [mbind outcome_bind obind]; try discriminate.
    + intros E. inversion E. subst. exact Hd.
    + destruct (rpc.Func m) as [h| |]; try discriminate.
      destruct (h fs1 req1) as [[resp err]| |]; cbn [mbind outcome_bind obind]; try discriminate.
      destruct err; intros E; inversion E; subst; exact Hd.
  - intros E. inversion E. subst. exact Hd.
Qed.

(** C4, at the failing input: a file of three bytes posted to [/hello/v3]
    with the default threshold 0 is spooled; when [Call] has returned the
    handler's response the temporary file is still on disk and still open.
    The same holds on an error path: when a later part is malformed, [Call]
    answers INVALID_JSON without invoking the handler and leaves the
    temporary file behind. *)
Theorem spooled_file_is_never_released :
  @rpc.Call onePattern hello.jsonV3 hello.env hello.descV3 (hello.upload "abc") "xyz" 0
    hello.start
  = Done (Ok (rpc.VPtr (rpc.VStruct [rpc.VNum reflect.t_int 7; rpc.VNum reflect.t_int 3])),
          rpc.mkWorld
            (os.mkFS {["rpc-multipart-0" := "abc"]} {["rpc-multipart-0" := 0]} 1
               false false false)
            [rpc.VPtr (rpc.VStruct [rpc.VNum reflect.t_int 7;
                                    rpc.VFile (rpc.tmpFile "rpc-multipart-0" "")])])
  /\ @rpc.Call onePattern hello.jsonV3 hello.env hello.descV3 (hello.uploadThenGarbage "abc")
       "xyz" 0 hello.start
     = Done (Err (rpc.invalidJSON "invalid character in the document"),
             rpc.mkWorld
               (os.mkFS {["rpc-multipart-0" := "abc"]} {["rpc-multipart-0" := 0]} 1
                  false false false)
               []).
Proof. split; vm_compute; reflexivity. Qed.


(** ** Paths of descriptors *)

Lemma append_cons c (a b : string) : String c a ++ b = String c (a ++ b).
Proof. reflexivity. Qed.

Lemma append_nil (b : string) : "" ++ b = b.
Proof. reflexivity. Qed.

Lemma ToLower_app a b : strings.ToLower (a ++ b) = strings.ToLower a ++ strings.ToLower b.
Proof.
  induction a as [|c a IH]; [reflexivity|].
  rewrite append_cons. cbn [strings.ToLower]. rewrite append_cons, IH. reflexivity.
Qed.

Lemma lowerByte_idem c : strings.lowerByte (strings.lowerByte c) = strings.lowerByte c.
Proof. destruct c as [[] [] [] [] [] [] [] []]; reflexivity. Qed.

Lemma ToLower_idem s : strings.ToLower (strings.ToLower s) = strings.ToLower s.
Proof.
  induction s as [|c s IH]; [reflexivity|].
  cbn [strings.ToLower]. rewrite lowerByte_idem, IH. reflexivity.
Qed.

Lemma ToLower_length s : String.length (strings.ToLower s) = String.length s.
Proof. induction s as [|c s IH]; [reflexivity|]. cbn. rewrite IH. reflexivity. Qed.

Lemma append_inj_length (a a' b b' : string) :
  String.length a = String.length a' -> a ++ b = a' ++ b' -> a = a' /\ b = b'.
Proof.
  revert a'. induction a as [|c a IH]; intros [|c' a'] Hl E; try discriminate.
  - rewrite !append_nil in E. auto.
  - rewrite !append_cons in E. injection E as -> E. injection Hl as Hl.
    destruct (IH _ Hl E) as [-> ->]. auto.
Qed.

Lemma append_cancel (a b c : string) : a ++ b = a ++ c -> b = c.
Proof.
  intros E. apply append_inj_length in E; [tauto | reflexivity].
Qed.

Lemma isLower_app a b : isLower (a ++ b) <-> isLower a /\ isLower b.
Proof.
  unfold isLower. rewrite ToLower_app. split.
  - intros E. apply append_inj_length in E; [exact E | apply ToLower_length].
  - intros [-> ->]. reflexivity.
Qed.

Lemma descPath_lower path g : isLower (descPath path g) <-> isLower path.
Proof.
  unfold descPath. rewrite !isLower_app. split; [tauto|].
  intros Hp. split; [exact Hp|]. split; [reflexivity | apply ToLower_idem].
Qed.

Lemma descsOfMethods_paths `{rpc.Regexp} env fuel m path gs : forall res mds,
  rpc.descsOfMethods env fuel m path gs res = Done (Ok mds) ->
  map rpc.Path mds
  = (map rpc.Path res
     ++ map (descPath path) (List.filter (fun g => rpc.isVersionMethod (reflect.mName g)) gs))%list.
Proof.
  induction gs as [|g gs IH]; intros res mds E; cbn [rpc.descsOfMethods List.filter] in *.
  - injection E as ->. cbn [map]. rewrite app_nil_r. reflexivity.
  - destruct (rpc.isVersionMethod (reflect.mName g)); [|apply IH, E].
    destruct (negb _ || negb _); [discriminate|].
    destruct (negb _ || negb _); [discriminate|].
    destruct (rpc.getValidators _ _ _ _ _) as [[v|e]| |]; cbn [mbind outcome_bind obind] in E;
      try discriminate.
    rewrite (IH _ _ E). rewrite map_app. cbn [map rpc.Path]. rewrite <- app_assoc. reflexivity.
Qed.

(** The paths of the descriptors of a service, one per version method. *)
Lemma descsFromMethod_paths `{rpc.Regexp} env fuel m trimPrefix mds :
  rpc.descsFromMethod env fuel m trimPrefix = Done (Ok mds) ->
  rpc.getMethodPath env m trimPrefix = Ok (strippedPath env m trimPrefix)
  /\ map rpc.Path mds = map (descPath (strippedPath env m trimPrefix)) (versionMethods m).
Proof.
  unfold rpc.descsFromMethod, rpc.getMethodPath.
  destruct (negb _); [discriminate|]. intros E.
  apply descsOfMethods_paths in E. cbn [map app] in E.
  split; [reflexivity | exact E].
Qed.

(** C5, as amended: when registration derives descriptors for a service,
    there is one per version method, in order; the path of each is the
    package path of the service with the trim prefix (less a final slash)
    taken off, then a slash, then the lower-cased method name; and such a
    path is all lower-case exactly when the stripped package path is. *)
Theorem descriptor_paths `{rpc.Regexp} env fuel m trimPrefix mds :
  rpc.descsFromMethod env fuel m trimPrefix = Done (Ok mds) ->
  map rpc.Path mds = map (descPath (strippedPath env m trimPrefix)) (versionMethods m)
  /\ Forall (fun md => isLower (rpc.Path md) <-> isLower (strippedPath env m trimPrefix)) mds.
Proof.
  unfold rpc.descsFromMethod, rpc.getMethodPath.
  destruct (negb _); [discriminate|]. intros E.
  apply descsOfMethods_paths in E. cbn [map app] in E.
  fold (strippedPath env m trimPrefix) in E.
  split; [exact E|].
  apply Forall_forall. intros md Hmd.
  assert (Hin : In (rpc.Path md) (map rpc.Path mds)) by (apply in_map, list_elem_of_In, Hmd).
  rewrite E in Hin. apply in_map_iff in Hin as (g & Hg & _). rewrite <- Hg.
  apply descPath_lower.
Qed.

(** The theorem at the test service: its three version methods get the
    paths [/hello/v1], [/hello/v2] and [/hello/v3]. *)
Lemma descriptor_paths_witness :
  exists mds,
    @rpc.descsFromMethod onePattern hello.env 20 hello.New
      "github.com/go-qbit/rpc/internal/test/method" = Done (Ok mds)
    /\ map rpc.Path mds = ["/hello/v1"; "/hello/v2"; "/hello/v3"]
    /\ Forall (fun md => isLower (rpc.Path md) <-> isLower "/hello") mds.
Proof.
  destruct (@rpc.descsFromMethod onePattern hello.env 20 hello.New
              "github.com/go-qbit/rpc/internal/test/method") as [[mds|e]| |] eqn:E;
    try (vm_compute in E; discriminate E).
  exists mds. split; [reflexivity|].
  pose proof (@descriptor_paths onePattern hello.env 20 hello.New
                "github.com/go-qbit/rpc/internal/test/method" mds E) as [H1 H2].
  split; [exact H1 | exact H2].
Defined.

(** C5 as stated fails: for a service of the package [github.com/Acme/Hello]
    registered with the trim prefix [github.com], the path derived for [V1]
    is [/Acme/Hello/v1], which is not all lower-case. *)
Lemma path_keeps_upper_case_of_package :
  exists md,
    @rpc.descsFromMethod onePattern acme.env 20 acme.New "github.com" = Done (Ok [md])
    /\ rpc.Path md = "/Acme/Hello/v1"
    /\ strings.ToLower (rpc.Path md) = "/acme/hello/v1"
    /\ ~ isLower (rpc.Path md).
Proof.
  eexists. split; [vm_compute; reflexivity|]. cbn [rpc.Path].
  split; [reflexivity|]. split; [reflexivity|]. unfold isLower. discriminate.
Qed.


(** ** Capturing a file part *)

Lemma take_drop_string n : forall s, strings.take n s ++ strings.drop n s = s.
Proof.
  induction n as [|n IH]; intros [|a s]; simpl; try reflexivity.
  change (String a (strings.take n s ++ strings.drop n s) = String a s).
  f_equal. apply IH.
Qed.

Lemma wrap64_id z : rpc.min64 <= z <= rpc.max64 -> rpc.wrap64 z = z.
Proof.
  unfold rpc.wrap64, rpc.min64, rpc.max64. intros Hz.
  rewrite Z.mod_small by lia. lia.
Qed.

Lemma len_nonneg s : 0 <= strings.len s.
Proof. unfold strings.len. lia. Qed.

(** The file a healthy part yields on a healthy file system, when the
    threshold is below the largest [int64]: it is spooled exactly when the
    part is longer than the threshold, the temporary file then holds the
    bytes of the part and is rewound, and either way the size is the number
    of bytes of the part. *)
Theorem captureFile_size (p : rpc.Part) (maxMemory : Z) (fs : os.FS) :
  rpc.min64 <= maxMemory < rpc.max64 ->
  rpc.ReadErr p = None ->
  os.failCreate fs = false -> os.failWrite fs = false -> os.failSeek fs = false ->
  exists file fs',
    rpc.captureFile p maxMemory fs = (Ok file, fs')
    /\ rpc.Size file fs' = Done (strings.len (rpc.PartData p))
    /\ (maxMemory < strings.len (rpc.PartData p) ->
        exists name, file = rpc.tmpFile name ""
          /\ os.files fs' !! name = Some (rpc.PartData p)
          /\ os.handles fs' !! name = Some 0)
    /\ (strings.len (rpc.PartData p) <= maxMemory ->
        file = rpc.buffer (rpc.PartData p) "" /\ fs' = fs).
Proof.
  intros Hm Hr Hc Hw Hs. destruct p as [form fname data rerr]. simpl in *. subst rerr.
  pose proof (len_nonneg data) as Hlen.
  unfold rpc.captureFile, rpc.CopyN, rpc.add64. cbn [rpc.PartData rpc.ReadErr].
  rewrite wrap64_id by (unfold rpc.min64, rpc.max64 in *; lia).
  assert (Hspool : forall buffered unread, buffered ++ unread = data ->
    exists file fs',
      match os.CreateTemp "rpc-multipart-" fs with
      | (Err e, fs0) => (Err (rpc.otherError e), fs0)
      | (Ok tmp, fs0) =>
          match os.Write tmp (buffered ++ unread) fs0 with
          | (Some e, fs1) => (Err (rpc.otherError e), (os.Remove tmp fs1).2)
          | (None, fs1) =>
              match os.SeekStart tmp fs1 with
              | (Some e, fs2) => (Err (rpc.otherError e), (os.Remove tmp fs2).2)
              | (None, fs2) => (Ok (rpc.tmpFile tmp ""), fs2)
              end
          end
      end = (Ok file, fs')
      /\ rpc.Size file fs' = Done (strings.len data)
      /\ exists name, file = rpc.tmpFile name ""
          /\ os.files fs' !! name = Some data /\ os.handles fs' !! name = Some 0).
  { intros buffered unread ->.
    unfold os.CreateTemp. rewrite Hc.
    unfold os.Write. cbn [os.handles os.files os.failWrite].
    rewrite !lookup_insert_eq, Hw.
    unfold os.SeekStart. cbn [os.handles os.files os.failSeek].
    rewrite lookup_insert_eq, Hs.
    eexists _, _. split; [reflexivity|].
    unfold rpc.Size, os.StatSize. cbn [os.handles os.files].
    rewrite !lookup_insert_eq.
    split; [reflexivity|]. eexists. split; [reflexivity|].
    rewrite !lookup_insert_eq. split; reflexivity. }
  destruct (maxMemory + 1 <=? 0) eqn:E0.
  - apply Z.leb_le in E0.
    assert (E1 : (maxMemory <? 0) = true) by (apply Z.ltb_lt; lia). rewrite E1.
    destruct (Hspool "" data eq_refl) as (file & fs' & E & Hsz & Hn).
    exists file, fs'. rewrite E. split; [reflexivity|]. split; [exact Hsz|].
    split; [intros _; exact Hn | intros; lia].
  - apply Z.leb_gt in E0.
    destruct (maxMemory + 1 <=? strings.len data) eqn:E2.
    + apply Z.leb_le in E2.
      assert (E1 : (maxMemory <? maxMemory + 1) = true) by (apply Z.ltb_lt; lia). rewrite E1.
      destruct (Hspool _ _ (take_drop_string (Z.to_nat (maxMemory + 1)) data))
        as (file & fs' & E & Hsz & Hn).
      exists file, fs'. rewrite E. split; [reflexivity|]. split; [exact Hsz|].
    split; [intros _; exact Hn | intros; lia].
    + apply Z.leb_gt in E2.
      assert (E1 : (maxMemory <? strings.len data) = false) by (apply Z.ltb_ge; lia).
      rewrite E1. eexists _, _. split; [reflexivity|]. split; [reflexivity|].
      split; [lia|]. auto.
Qed.

(** C8, at the failing input: with the threshold at the largest [int64],
    [maxMemory + 1] wraps to the smallest one, [io.CopyN] copies nothing, and
    the file the handler gets for a part of three bytes is an empty buffer of
    size 0; the test handler [V3] reports a content length of 0. *)
Theorem largest_threshold_loses_the_file :
  rpc.add64 rpc.max64 1 = rpc.min64
  /\ rpc.captureFile (rpc.mkPart "content" "a.txt" "abc" None) rpc.max64 os.healthy
     = (Ok (rpc.buffer "" ""), os.healthy)
  /\ rpc.Size (rpc.buffer "" "") os.healthy = Done 0
  /\ @rpc.Call onePattern hello.jsonV3 hello.env hello.descV3 (hello.upload "abc") "xyz"
       rpc.max64 hello.start
     = Done (Ok (rpc.VPtr (rpc.VStruct [rpc.VNum reflect.t_int 7; rpc.VNum reflect.t_int 0])),
             rpc.mkWorld os.healthy
               [rpc.VPtr (rpc.VStruct [rpc.VNum reflect.t_int 7;
                                       rpc.VFile (rpc.buffer "" "")])]).
Proof. repeat split; vm_compute; reflexivity. Qed.


(** ** Binding an error catalog *)

Lemma flat_map_nonempty {A B : Type} (f : A -> list B) (l : list A) :
  flat_map f l <> [] -> exists x, In x l /\ f x <> [].
Proof.
  induction l as [|a l IH]; cbn [flat_map]; [congruence|].
  intros Hne. destruct (f a) as [|b bs] eqn:E.
  - destruct (IH Hne) as (x & Hx & Hfx). exists x. split; [right; exact Hx | exact Hfx].
  - exists a. split; [left; reflexivity | rewrite E; discriminate].
Qed.

Lemma isDigit_lowerByte c : strings.isDigit c = true -> strings.lowerByte c = c.
Proof. destruct c as [[] [] [] [] [] [] [] []]; intros E; (reflexivity || discriminate E). Qed.

Lemma digitRuns_whole ds : In "" (regexp.digitRuns ds) -> strings.ToLower ds = ds.
Proof.
  induction ds as [|a ds IH]; cbn [regexp.digitRuns]; [intros []|].
  destruct (strings.isDigit a) eqn:Ea; [|intros []].
  intros [-> | Hin]; cbn [strings.ToLower]; rewrite (isDigit_lowerByte _ Ea).
  - reflexivity.
  - rewrite (IH Hin). reflexivity.
Qed.

Lemma search_reMethodVersion_later s : regexp.search rpc.reMethodVersion false s = false.
Proof. induction s as [|a s IH]; [reflexivity|]. cbn [regexp.search]. rewrite IH. reflexivity. Qed.

(** A version method is named [V] and then digits, so its lower-cased name
    is [v] and then the same digits. *)
Lemma isVersionMethod_name name :
  rpc.isVersionMethod name = true ->
  exists ds, name = String "V" ds /\ strings.ToLower name = String "v" ds.
Proof.
  unfold rpc.isVersionMethod, regexp.MatchString. intros E.
  assert (Em : regexp.matchesHere rpc.reMethodVersion true name = true).
  { destruct name as [|a s]; cbn [regexp.search] in E.
    - rewrite Bool.orb_false_r in E. exact E.
    - rewrite search_reMethodVersion_later, Bool.orb_false_r in E. exact E. }
  clear E. unfold regexp.matchesHere, rpc.reMethodVersion in Em.
  cbn [regexp.matchHere flat_map app] in Em. rewrite app_nil_r in Em.
  destruct name as [|a ds]; [discriminate Em|].
  cbn [strings.HasPrefix] in Em.
  destruct (Ascii.eqb_spec a "V") as [->|Hne]; [|discriminate Em].
  cbn [andb flat_map app String.length strings.drop] in Em. rewrite app_nil_r in Em.
  destruct (flat_map _ _) as [|x xs] eqn:Ef; [discriminate Em|].
  destruct (flat_map_nonempty _ _ ltac:(rewrite Ef; discriminate)) as ([b rest] & Hin & Hne).
  apply in_map_iff in Hin as (rest' & Heq & Hin). injection Heq as <- <-.
  cbn [regexp.matchHere] in Hne.
  destruct (String.eqb_spec rest' ""); [subst rest'|congruence].
  exists ds. split; [reflexivity|].
  cbn [strings.ToLower]. rewrite (digitRuns_whole _ Hin). reflexivity.
Qed.



Lemma registerDescs_other mds : forall (ms : gmap string rpc.MethodDesc) k,
  ms !! k = None -> ~ In k (map rpc.Path mds) -> rpc.registerDescs mds ms !! k = None.
Proof.
  unfold rpc.registerDescs.
  induction mds as [|md mds IH]; intros ms k Hk Hn; cbn [fold_left]; [exact Hk|].
  apply IH.
  - rewrite lookup_insert_ne; [exact Hk|]. intros E. apply Hn. left. exact E.
  - intros Hin. apply Hn. right. exact Hin.
Qed.

Lemma bindErrorFields_absent env path fields : forall (ms ms' : gmap string rpc.MethodDesc) err k,
  rpc.bindErrorFields env path fields ms = Done (err, ms') ->
  ms !! k = None -> ms' !! k = None.
Proof.
  induction fields as [|ft fields IH]; intros ms ms' err k E Hk; cbn [rpc.bindErrorFields] in E.
  - injection E as <- <-. exact Hk.
  - destruct (negb _ || negb _); [injection E as <- <-; exact Hk|].
    destruct (ms !! path) as [mdp|] eqn:Hp; [|discriminate].
    destruct (negb (reflect.IsExported ft)); [discriminate|].
    apply (IH _ _ _ k E). rewrite lookup_insert_ne; [exact Hk|].
    intros <-. rewrite Hp in Hk. discriminate Hk.
Qed.

Lemma bindErrorsOf_absent env path gs : forall (ms ms' : gmap string rpc.MethodDesc) err k,
  rpc.bindErrorsOf env path gs ms = Done (err, ms') ->
  ms !! k = None -> ms' !! k = None.
Proof.
  induction gs as [|g gs IH]; intros ms ms' err k E Hk; cbn [rpc.bindErrorsOf] in E.
  - injection E as <- <-. exact Hk.
  - destruct (rpc.errorsVersion (reflect.mName g)) as [version|]; [|apply (IH _ _ _ k E Hk)].
    destruct (rpc.accessorResult g) as [errorsVar| |]; cbn [mbind outcome_bind obind] in E;
      try discriminate.
    assert (Hstop : Done (Some "errors variable must be a pointer to a structure", ms)
                    = Done (err, ms') -> ms' !! k = None).
    { intros E0. injection E0 as <- <-. exact Hk. }
    destruct errorsVar as [[b|[b|e|e|e|k0 e|e|p n|p n|id]|e|e|k0 e|e|p n|p n|id]|];
      try (apply Hstop, E).
    destruct (rpc.bindErrorFields env _ _ ms) as [[err1 ms1]| |] eqn:E1;
      cbn [mbind outcome_bind obind] in E; try discriminate.
    pose proof (bindErrorFields_absent _ _ _ _ _ _ k E1 Hk) as Hk1.
    destruct err1 as [e1|].
    + injection E as <- <-. exact Hk1.
    + apply (IH _ _ _ k E Hk1).
Qed.

(** The loop of [bindErrors] goes on after a part of the method set that
    bound without error. *)
Lemma bindErrorsOf_app env path pre : forall rest (ms ms1 : gmap string rpc.MethodDesc),
  rpc.bindErrorsOf env path pre ms = Done (None, ms1) ->
  rpc.bindErrorsOf env path (pre ++ rest) ms = rpc.bindErrorsOf env path rest ms1.
Proof.
  induction pre as [|g pre IH]; intros rest ms ms1 E; cbn [rpc.bindErrorsOf] in E.
  - injection E as <-. reflexivity.
  - cbn [app rpc.bindErrorsOf].
    destruct (rpc.errorsVersion (reflect.mName g)) as [version|]; [|apply IH, E].
    destruct (rpc.accessorResult g) as [errorsVar| |]; cbn [mbind outcome_bind obind] in E |- *;
      try discriminate.
    destruct errorsVar as [[b|[b|e|e|e|k0 e|e|p n|p n|id]|e|e|k0 e|e|p n|p n|id]|];
      try discriminate.
    destruct (rpc.bindErrorFields env _ _ ms) as [[err1 ms2]| |];
      cbn [mbind outcome_bind obind] in E |- *; try discriminate.
    destruct err1 as [e1|]; [discriminate|]. apply IH, E.
Qed.

Lemma bindErrorsOf_plain env path gs : forall (ms : gmap string rpc.MethodDesc),
  Forall (fun g => rpc.errorsVersion (reflect.mName g) = None) gs ->
  rpc.bindErrorsOf env path gs ms = Done (None, ms).
Proof.
  induction gs as [|g gs IH]; intros ms Hgs; [reflexivity|].
  apply Forall_cons in Hgs as [Hg Hgs].
  cbn [rpc.bindErrorsOf]. rewrite Hg. apply IH, Hgs.
Qed.

(** C10: a catalog accessor [ErrorsV<N>] of a service without a method
    [V<N>], which the loop of [bindErrors] reaches because the accessors
    before it bound without error, and which returns [res].  When [res] is
    a pointer to a struct whose first field is an [ErrorFunc], [bindErrors]
    dereferences the nil descriptor at the derived path: it panics, and so
    does [RegisterMethod], instead of returning an error.  When the struct
    has no field the accessor is passed over and the loop goes on.  When the
    first field is no [ErrorFunc], or [res] is no pointer to a struct,
    [bindErrors] returns an error that [RegisterMethod] wraps. *)
Theorem orphan_catalog_panics `{rpc.Regexp} env fuel r m mds pre acc post version res ms1 :
  rpc.descsFromMethod env fuel m (rpc.trimPrefix r) = Done (Ok mds) ->
  rpc.svcMethods m = (pre ++ acc :: post)%list ->
  rpc.bindErrorsOf env (strippedPath env m (rpc.trimPrefix r)) pre
    (rpc.registerDescs mds (rpc.methods r)) = Done (None, ms1) ->
  rpc.errorsVersion (reflect.mName acc) = Some version ->
  rpc.accessorResult acc = Done res ->
  Forall (fun g => reflect.mName g <> String "V" version) (rpc.svcMethods m) ->
  rpc.methods r !! (strippedPath env m (rpc.trimPrefix r) ++ "/v" ++ version) = None ->
  let bound := rpc.bindErrors env m (rpc.trimPrefix r) (rpc.registerDescs mds (rpc.methods r)) in
  let wrapped e :=
    Done (Some ("cannot bind errors for method " ++ reflect.TypeString env (rpc.svcType m)
                ++ ": " ++ e),
          rpc.mkRpc (rpc.trimPrefix r) ms1 (rpc.maxMemory r)) in
  (forall id ft rest,
      res = Some (reflect.TPtr (reflect.TStruct id)) ->
      reflect.sFields (reflect.structOf env id) = ft :: rest ->
      reflect.TypeName env (reflect.Typ ft) = "ErrorFunc" ->
      reflect.PkgPath env (reflect.Typ ft) = rpc.pkgPath ->
      bound = Panic "invalid memory address or nil pointer dereference"
      /\ rpc.RegisterMethod env fuel r m
         = Panic "invalid memory address or nil pointer dereference")
  /\ (forall id,
      res = Some (reflect.TPtr (reflect.TStruct id)) ->
      reflect.sFields (reflect.structOf env id) = [] ->
      bound = rpc.bindErrorsOf env (strippedPath env m (rpc.trimPrefix r)) post ms1)
  /\ (forall id ft rest,
      res = Some (reflect.TPtr (reflect.TStruct id)) ->
      reflect.sFields (reflect.structOf env id) = ft :: rest ->
      reflect.TypeName env (reflect.Typ ft) <> "ErrorFunc"
      \/ reflect.PkgPath env (reflect.Typ ft) <> rpc.pkgPath ->
      let e := "error type for " ++ reflect.Name ft
               ++ " must be github.com/go-qbit/rpc.ErrorFunc" in
      bound = Done (Some e, ms1) /\ rpc.RegisterMethod env fuel r m = wrapped e)
  /\ ((forall id, res <> Some (reflect.TPtr (reflect.TStruct id))) ->
      let e := "errors variable must be a pointer to a structure" in
      bound = Done (Some e, ms1) /\ rpc.RegisterMethod env fuel r m = wrapped e).
Proof.
  intros Hd Hms Hpre Hv Hacc Hno Hfree bound wrapped.
  pose proof (descsFromMethod_paths _ _ _ _ _ Hd) as [Hpath Hpaths].
  set (path := strippedPath env m (rpc.trimPrefix r)) in *.
  assert (Hnil : ms1 !! (path ++ "/v" ++ version) = None).
  { apply (bindErrorsOf_absent _ _ _ _ _ _ _ Hpre).
    apply registerDescs_other; [exact Hfree|]. rewrite Hpaths. intros Hin.
    apply in_map_iff in Hin as (g & Hg & Hgin). unfold versionMethods in Hgin.
    apply filter_In in Hgin as [Hgin Hgv].
    unfold descPath in Hg. apply append_cancel in Hg.
    destruct (isVersionMethod_name _ Hgv) as (ds & Hn & Hl). rewrite Hl in Hg.
    change ("/" ++ String "v" ds) with (String "/" (String "v" ds)) in Hg.
    change ("/v" ++ version) with (String "/" (String "v" version)) in Hg.
    injection Hg as ->.
    rewrite Forall_forall in Hno. apply (Hno g); [apply list_elem_of_In, Hgin | exact Hn]. }
  assert (Hb : bound
               = (errorsVar ← rpc.accessorResult acc;
                  match errorsVar with
                  | Some (reflect.TPtr (reflect.TStruct id)) =>
                      '(err, methods') ← rpc.bindErrorFields env (path ++ "/v" ++ version)
                                           (reflect.sFields (reflect.structOf env id)) ms1;
                      match err with
                      | Some e => Done (Some e, methods')
                      | None => rpc.bindErrorsOf env path post methods'
                      end
                  | _ => Done (Some "errors variable must be a pointer to a structure", ms1)
                  end)).
  { unfold bound, rpc.bindErrors. rewrite Hpath, Hms, (bindErrorsOf_app _ _ _ _ _ _ Hpre).
    cbn [rpc.bindErrorsOf]. rewrite Hv. reflexivity. }
  rewrite Hacc in Hb. cbn [mbind outcome_bind obind] in Hb.
  assert (Hreg : forall e, bound = Done (Some e, ms1) ->
                           rpc.RegisterMethod env fuel r m = wrapped e).
  { intros e Hbe. unfold rpc.RegisterMethod. rewrite Hd.
    cbn [mbind outcome_bind obind rpc.trimPrefix rpc.methods rpc.maxMemory].
    fold bound. rewrite Hbe. reflexivity. }
  split; [|split; [|split]].
  - intros id ft rest -> Hf Hn Hp.
    assert (Hpanic : bound = Panic "invalid memory address or nil pointer dereference").
    { rewrite Hb, Hf. cbn [rpc.bindErrorFields]. rewrite Hn, Hp.
      rewrite !String.eqb_refl. cbn [negb orb]. rewrite Hnil. reflexivity. }
    split; [exact Hpanic|].
    unfold rpc.RegisterMethod. rewrite Hd.
    cbn [mbind outcome_bind obind rpc.trimPrefix rpc.methods rpc.maxMemory].
    fold bound. rewrite Hpanic. reflexivity.
  - intros id -> Hf. rewrite Hb, Hf. reflexivity.
  - intros id ft rest -> Hf Hn e.
    assert (He : bound = Done (Some e, ms1)).
    { rewrite Hb, Hf. cbn [rpc.bindErrorFields].
      destruct Hn as [Hn | Hn]; apply String.eqb_neq in Hn; rewrite Hn;
        rewrite ?Bool.orb_true_r; reflexivity. }
    split; [exact He | apply Hreg, He].
  - intros Hres e.
    assert (He : bound = Done (Some e, ms1)).
    { rewrite Hb.
      destruct res as [[b|[b|e0|e0|e0|k0 e0|e0|p n|p n|id]|e0|e0|k0 e0|e0|p n|p n|id]|];
        try reflexivity. exfalso. exact (Hres id eq_refl). }
    split; [exact He | apply Hreg, He].
Qed.

(** The theorem at a service that declares [ErrorsV2] beside [V1] alone, and
    at one whose [ErrorsV1] is bound before the loop comes to [ErrorsV2]. *)
Lemma orphan_catalog_panics_witness :
  @rpc.RegisterMethod onePattern orphan.env 6 orphan.testRpc orphan.New
  = Panic "invalid memory address or nil pointer dereference"
  /\ @rpc.RegisterMethod onePattern stray.env 6 stray.testRpc stray.New
     = Panic "invalid memory address or nil pointer dereference".
Proof.
  split.
  - assert (Hd : match @rpc.descsFromMethod onePattern orphan.env 6 orphan.New
                         (rpc.trimPrefix orphan.testRpc) with
                 | Done (Ok _) => true
                 | _ => false
                 end = true) by (vm_compute; reflexivity).
    destruct (@rpc.descsFromMethod onePattern orphan.env 6 orphan.New
                (rpc.trimPrefix orphan.testRpc)) as [[mds|e]| |] eqn:E; try discriminate Hd.
    apply (proj1 (@orphan_catalog_panics onePattern orphan.env 6 orphan.testRpc orphan.New mds
             [reflect.mkMethod "Caption" [orphan.receiver; hello.tContext]
                [reflect.TBasic reflect.t_string] rpc.otherFunc;
              reflect.mkMethod "Description" [orphan.receiver; hello.tContext]
                [reflect.TBasic reflect.t_string] rpc.otherFunc]
             orphan.ErrorsV2Method
             [reflect.mkMethod "V1"
                [orphan.receiver; hello.tContext; reflect.TPtr (reflect.TStruct "orphan.Req")]
                [reflect.TBasic reflect.t_string; hello.tError] (rpc.handlerFunc orphan.V1)]
             "2" (Some (reflect.TPtr (reflect.TStruct "orphan.ErrorsV2")))
             (rpc.registerDescs mds (rpc.methods orphan.testRpc))
             E eq_refl
             ltac:(apply bindErrorsOf_plain; repeat constructor)
             eq_refl eq_refl
             ltac:(repeat constructor; discriminate)
             eq_refl)
           "orphan.ErrorsV2"
           (reflect.mkField "NotFound" hello.tErrorFunc [("desc", "No such thing")]) []
           eq_refl eq_refl eq_refl eq_refl).
  - set (pre := [reflect.mkMethod "Caption" [stray.receiver; hello.tContext]
                   [reflect.TBasic reflect.t_string] rpc.otherFunc;
                 reflect.mkMethod "Description" [stray.receiver; hello.tContext]
                   [reflect.TBasic reflect.t_string] rpc.otherFunc;
                 stray.ErrorsV1Method]).
    assert (Hd : match @rpc.descsFromMethod onePattern stray.env 6 stray.New
                         (rpc.trimPrefix stray.testRpc) with
                 | Done (Ok mds) =>
                     match rpc.bindErrorsOf stray.env
                             (strippedPath stray.env stray.New (rpc.trimPrefix stray.testRpc))
                             pre (rpc.registerDescs mds (rpc.methods stray.testRpc)) with
                     | Done (None, _) => true
                     | _ => false
                     end
                 | _ => false
                 end = true) by (vm_compute; reflexivity).
    destruct (@rpc.descsFromMethod onePattern stray.env 6 stray.New
                (rpc.trimPrefix stray.testRpc)) as [[mds|e]| |] eqn:E; try discriminate Hd.
    destruct (rpc.bindErrorsOf stray.env
                (strippedPath stray.env stray.New (rpc.trimPrefix stray.testRpc))
                pre (rpc.registerDescs mds (rpc.methods stray.testRpc)))
      as [[[e|] ms1]| |] eqn:Eb; try discriminate Hd.
    apply (proj1 (@orphan_catalog_panics onePattern stray.env 6 stray.testRpc stray.New mds
             pre stray.ErrorsV2Method
             [reflect.mkMethod "V1"
                [stray.receiver; hello.tContext; reflect.TPtr (reflect.TStruct "stray.Req")]
                [reflect.TBasic reflect.t_string; hello.tError] (rpc.handlerFunc stray.V1)]
             "2" (Some (reflect.TPtr (reflect.TStruct "stray.ErrorsV2"))) ms1
             E eq_refl Eb eq_refl eq_refl
             ltac:(repeat constructor; discriminate)
             eq_refl)
           "stray.ErrorsV2"
           (reflect.mkField "Gone" hello.tErrorFunc [("desc", "No longer there")]) []
           eq_refl eq_refl eq_refl eq_refl).
Defined.

(** C10, where the claim fails: beside [V1] alone the service declares an
    [ErrorsV2] whose catalog struct has no field.  No store is reached, and
    registration ends without panic and without error. *)
Lemma orphan_with_empty_catalog_registers :
  In vacant.ErrorsV2Method (rpc.svcMethods vacant.New)
  /\ rpc.errorsVersion (reflect.mName vacant.ErrorsV2Method) = Some "2"
  /\ Forall (fun g => reflect.mName g <> "V2") (rpc.svcMethods vacant.New)
  /\ exists r',
       @rpc.RegisterMethod onePattern vacant.env 6 vacant.testRpc vacant.New = Done (None, r')
       /\ rpc.methods r' !! "/vacant/v2" = None
       /\ is_Some (rpc.methods r' !! "/vacant/v1").
Proof.
  split; [right; right; left; reflexivity|].
  split; [reflexivity|].
  split; [repeat constructor; discriminate|].
  assert (Hr : match @rpc.RegisterMethod onePattern vacant.env 6 vacant.testRpc vacant.New with
               | Done (None, r') =>
                   bool_decide (rpc.methods r' !! "/vacant/v2" = None)
                   && bool_decide (is_Some (rpc.methods r' !! "/vacant/v1"))
               | _ => false
               end = true) by (vm_compute; reflexivity).
  destruct (@rpc.RegisterMethod onePattern vacant.env 6 vacant.testRpc vacant.New)
    as [[[e|] r']| |]; try discriminate Hr.
  apply andb_prop in Hr as [H1 H2].
  exists r'. split; [reflexivity|].
  split; [exact (bool_decide_unpack _ (Is_true_eq_left _ H1))
         | exact (bool_decide_unpack _ (Is_true_eq_left _ H2))].
Qed.


(** ** Paths of fields and the validator map *)

Lemma append_assoc_string (a b c : string) : (a ++ b) ++ c = a ++ (b ++ c).
Proof.
  induction a as [|x a IH]; [reflexivity|].
  rewrite !append_cons, IH. reflexivity.
Qed.

Lemma HasPrefix_app_same a b c : strings.HasPrefix (a ++ b) (a ++ c) = strings.HasPrefix b c.
Proof.
  induction a as [|x a IH]; [reflexivity|].
  rewrite !append_cons. cbn [strings.HasPrefix]. rewrite Ascii.eqb_refl, IH. reflexivity.
Qed.

Lemma HasPrefix_app_l k a b :
  strings.HasPrefix k (a ++ b) = true -> strings.HasPrefix k a = true.
Proof.
  revert k. induction a as [|x a IH]; intros k E; [destruct k; reflexivity|].
  rewrite append_cons in E. destruct k as [|y k]; cbn [strings.HasPrefix] in *; [discriminate|].
  apply andb_prop in E as [E1 E2]. rewrite E1, (IH _ E2). reflexivity.
Qed.

Lemma HasPrefix_self a b : strings.HasPrefix (a ++ b) a = true.
Proof.
  induction a as [|x a IH]; [destruct b; reflexivity|].
  rewrite append_cons. cbn [strings.HasPrefix]. rewrite Ascii.eqb_refl, IH. reflexivity.
Qed.

Lemma HasPrefix_slash s p :
  strings.HasPrefix s (p ++ "/") = true -> hasByte "/" s = true.
Proof.
  revert s. induction p as [|x p IH]; intros [|y s] E; try discriminate.
  - cbn in E. cbn [hasByte]. apply andb_prop in E as [E _]. rewrite E. reflexivity.
  - rewrite append_cons in E. cbn [strings.HasPrefix] in E. apply andb_prop in E as [_ E].
    cbn [hasByte]. rewrite (IH _ E). apply Bool.orb_true_r.
Qed.

(** The key of a field does not extend the key of a sibling, unless its
    name has a slash. *)
Lemma sibling_key cur nf ng :
  hasByte "/" nf = false ->
  strings.HasPrefix (cur ++ "/" ++ nf) ((cur ++ "/" ++ ng) ++ "/") = false.
Proof.
  intros Hf. rewrite append_assoc_string, HasPrefix_app_same.
  rewrite append_assoc_string, HasPrefix_app_same.
  destruct (strings.HasPrefix nf (ng ++ "/")) eqn:E; [|reflexivity].
  apply HasPrefix_slash in E. congruence.
Qed.

Section ValidatorMap.

Context `{re : rpc.Regexp}.
Variable env : reflect.TypeEnv.

(** What one field's rules do to the map: they extend the entry of the
    field's path by the field's compiled predicates and touch nothing else. *)
Lemma compileValidators_spec vs f path : forall (V V' : gmap string (list rpc.validateFunc)),
  rpc.compileValidators vs f path V = Ok V' ->
  default [] (V' !! path) = (default [] (V !! path) ++ compiledFuncs vs f)%list
  /\ (compiledFuncs vs f <> [] -> is_Some (V' !! path))
  /\ (forall k, k <> path -> V' !! k = V !! k).
Proof.
  induction vs as [|v vs IH]; intros V V' E; cbn [rpc.compileValidators compiledFuncs] in *.
  - injection E as <-. rewrite app_nil_r. split; [reflexivity|]. split; [congruence|]. auto.
  - destruct (rpc.GetValidateFunc v f) as [[vf|]|e]; [| |discriminate].
    + destruct (IH _ _ E) as (H1 & H2 & H3). unfold rpc.appendValidator in *.
      rewrite lookup_insert_eq in H1. cbn [from_option id] in H1.
      split; [rewrite H1, <- app_assoc; reflexivity|].
      split.
      * intros _. destruct (compiledFuncs vs f) as [|x xs] eqn:Ec.
        -- destruct (V' !! path) eqn:El; [eauto|].
           cbn [from_option id] in H1. destruct (default [] (V !! path)); discriminate H1.
        -- apply H2. discriminate.
      * intros k Hk. rewrite (H3 k Hk). apply lookup_insert_ne. congruence.
    + apply IH, E.
Qed.



Lemma validatorsOfFields_frame rec fields :
  framed rec ->
  forall V cur V', rpc.validatorsOfFields rec fields V cur = Done (Ok V') ->
  forall k, strings.HasPrefix k (cur ++ "/") = false -> V' !! k = V !! k.
Proof.
  intros Hrec. induction fields as [|g fields IH]; intros V cur V' E k Hk;
    cbn [rpc.validatorsOfFields] in E.
  - injection E as <-. reflexivity.
  - assert (Hstruct : forall V1,
        rec (reflect.Typ g) V (cur ++ "/" ++ reflect.Name g) = Done (Ok V1) -> V1 !! k = V !! k).
    { intros V1 E1. apply (Hrec _ _ _ _ E1).
      destruct (strings.HasPrefix k ((cur ++ "/" ++ reflect.Name g) ++ "/")) eqn:Ep; [|reflexivity].
      apply HasPrefix_app_l in Ep. rewrite <- append_assoc_string in Ep.
      apply HasPrefix_app_l in Ep. congruence. }
    assert (Hdef : forall V1,
        rpc.compileValidators (rpc.validators (reflect.kind (reflect.Typ g))) g
          (cur ++ "/" ++ reflect.Name g) V = Ok V1 -> V1 !! k = V !! k).
    { intros V1 E1. apply (compileValidators_spec _ _ _ _ _ E1).
      intros ->. rewrite <- append_assoc_string, HasPrefix_self in Hk. discriminate. }
    destruct (reflect.kind (rpc.derefOnce (reflect.Typ g)));
      try (destruct (rpc.compileValidators _ _ _ _) as [V1|e] eqn:E1; [|discriminate];
           rewrite (IH _ _ _ E k Hk); apply Hdef; reflexivity).
    destruct (rec _ _ _) as [[V1|e]| |] eqn:E1; cbn [mbind outcome_bind obind] in E;
      try discriminate.
    rewrite (IH _ _ _ E k Hk). apply Hstruct. reflexivity.
Qed.

Lemma getValidators_framed fuel : framed (rpc.getValidators env fuel).
Proof.
  induction fuel as [|fuel IH]; intros t V cur V' E k Hk; [discriminate|].
  cbn [rpc.getValidators] in E. destruct t; try (injection E as <-; reflexivity).
  - apply (IH _ _ _ _ E k Hk).
  - apply (validatorsOfFields_frame _ _ IH _ _ _ E k Hk).
Qed.

(** Fields with other names leave the entry of [cur/name] alone. *)
Lemma validatorsOfFields_others rec fields name :
  framed rec ->
  hasByte "/" name = false ->
  Forall (fun g => reflect.Name g <> name) fields ->
  forall V cur V', rpc.validatorsOfFields rec fields V cur = Done (Ok V') ->
  V' !! (cur ++ "/" ++ name) = V !! (cur ++ "/" ++ name).
Proof.
  intros Hrec Hname. induction fields as [|g fields IH]; intros Hne V cur V' E;
    cbn [rpc.validatorsOfFields] in E.
  - injection E as <-. reflexivity.
  - apply Forall_cons in Hne as [Hg Hne].
    assert (Hdef : forall V1,
        rpc.compileValidators (rpc.validators (reflect.kind (reflect.Typ g))) g
          (cur ++ "/" ++ reflect.Name g) V = Ok V1 ->
        V1 !! (cur ++ "/" ++ name) = V !! (cur ++ "/" ++ name)).
    { intros V1 E1. apply (compileValidators_spec _ _ _ _ _ E1).
      intros Heq. apply append_cancel in Heq. apply append_cancel in Heq. congruence. }
    destruct (reflect.kind (rpc.derefOnce (reflect.Typ g)));
      try (destruct (rpc.compileValidators _ _ _ _) as [V1|e] eqn:E1; [|discriminate];
           rewrite (IH Hne _ _ _ E); apply Hdef; reflexivity).
    destruct (rec _ _ _) as [[V1|e]| |] eqn:E1; cbn [mbind outcome_bind obind] in E;
      try discriminate.
    rewrite (IH Hne _ _ _ E). apply (Hrec _ _ _ _ E1). apply sibling_key, Hname.
Qed.

Lemma validatorsOfFields_app rec pre post : forall V cur V',
  rpc.validatorsOfFields rec (pre ++ post) V cur = Done (Ok V') ->
  exists V1, rpc.validatorsOfFields rec pre V cur = Done (Ok V1)
             /\ rpc.validatorsOfFields rec post V1 cur = Done (Ok V').
Proof.
  induction pre as [|g pre IH]; intros V cur V' E; cbn [app rpc.validatorsOfFields] in *.
  - eauto.
  - destruct (reflect.kind (rpc.derefOnce (reflect.Typ g)));
      try (destruct (rpc.compileValidators _ _ _ _) as [V1|e]; [|discriminate]; apply IH, E).
    destruct (rec _ _ _) as [[V1|e]| |]; cbn [mbind outcome_bind obind] in *; try discriminate.
    apply IH, E.
Qed.

(** The entry registration leaves under the path of a top-level field that
    is no struct: the field's own predicates, in order. *)
Theorem registered_validators fuel id pre f post V :
  reflect.sFields (reflect.structOf env id) = (pre ++ f :: post)%list ->
  NoDup (map reflect.Name (pre ++ f :: post)) ->
  hasByte "/" (reflect.Name f) = false ->
  reflect.kind (rpc.derefOnce (reflect.Typ f)) <> reflect.Struct ->
  rpc.getValidators env fuel (reflect.TPtr (reflect.TStruct id)) ∅ "" = Done (Ok V) ->
  default [] (V !! ("/" ++ reflect.Name f)) = fieldFuncs f
  /\ (fieldFuncs f <> [] -> (0 < size V)%nat).
Proof.
  intros Hfields Hnd Hslash Hkind E.
  destruct fuel as [|[|fuel]]; try discriminate.
  cbn [rpc.getValidators] in E. rewrite Hfields in E.
  pose proof (getValidators_framed fuel) as Hrec.
  rewrite map_app in Hnd. cbn [map] in Hnd.
  apply NoDup_app in Hnd as (_ & Hpre & Hnd). apply NoDup_cons in Hnd as [Hpost _].
  assert (Hpre' : Forall (fun g => reflect.Name g <> reflect.Name f) pre).
  { apply Forall_forall. intros g Hg Heq. apply (Hpre (reflect.Name g)).
    - apply list_elem_of_fmap. exists g. auto.
    - rewrite Heq. left. }
  assert (Hpost' : Forall (fun g => reflect.Name g <> reflect.Name f) post).
  { apply Forall_forall. intros g Hg Heq. apply Hpost. rewrite <- Heq.
    apply list_elem_of_fmap. exists g. auto. }
  apply validatorsOfFields_app in E as (V1 & E1 & E2).
  pose proof (validatorsOfFields_others _ _ _ Hrec Hslash Hpre' _ _ _ E1) as H1.
  cbn [rpc.validatorsOfFields] in E2.
  assert (E3 : exists V2,
    rpc.compileValidators (rpc.validators (reflect.kind (reflect.Typ f))) f
      ("" ++ "/" ++ reflect.Name f) V1 = Ok V2
    /\ rpc.validatorsOfFields (rpc.getValidators env fuel) post V2 "" = Done (Ok V)).
  { destruct (reflect.kind (rpc.derefOnce (reflect.Typ f))); try congruence;
      (destruct (rpc.compileValidators _ _ _ _) as [V2|e]; [|discriminate]; eauto). }
  destruct E3 as (V2 & E3 & E4).
  pose proof (validatorsOfFields_others _ _ _ Hrec Hslash Hpost' _ _ _ E4) as H4.
  destruct (compileValidators_spec _ _ _ _ _ E3) as (H2 & H3 & _).
  change ("" ++ "/" ++ reflect.Name f) with ("/" ++ reflect.Name f) in *.
  rewrite H1, lookup_empty in H2. cbn [from_option app] in H2.
  split.
  - rewrite H4. exact H2.
  - intros Hne. rewrite <- H4 in H3. destruct (H3 Hne) as [x Hx].
    destruct (decide (size V = 0%nat)) as [Hz|Hz]; [|lia].
    apply map_size_empty_inv in Hz. rewrite Hz, lookup_empty in Hx. discriminate.
Qed.

End ValidatorMap.

(** ** Validation of a decoded request *)

Section Validation.

Context `{re : rpc.Regexp} `{json : rpc.Json}.
Variable env : reflect.TypeEnv.








End Validation.


(** ** A field between 100 and 200 *)








(** ** Unsigned fields and their maximum *)






(** ** The outcomes of [Call] *)













(** ** Further properties: Accept-Encoding negotiation *)

(** X1: [CanGzip] accepts a header exactly when one of its comma-separated
    tokens is [gzip], letter for letter. *)
Theorem CanGzip_accepts_exactly_a_gzip_token s :
  header.CanGzip s = true <-> In "gzip" (strings.Split s ",").
Proof. apply CanGzip_iff_token. Qed.

(** X2: [CanGzipFast] accepts only what [CanGzip] accepts: whenever the
    fast check says yes, a comma-separated token of the header is [gzip]. *)
Theorem CanGzipFast_accepts_only_what_CanGzip_accepts s :
  header.CanGzipFast s = true ->
  header.CanGzip s = true /\ In "gzip" (strings.Split s ",").
Proof.
  intros E. apply CanGzipFast_sound in E. split; [exact E | apply CanGzip_iff_token, E].
Qed.

Lemma CanGzipFast_accepts_only_what_CanGzip_accepts_witness :
  header.CanGzip "gzip,br" = true /\ In "gzip" (strings.Split "gzip,br" ",").
Proof.
  apply (CanGzipFast_accepts_only_what_CanGzip_accepts "gzip,br"). reflexivity.
Defined.

(** ** Further properties: files *)

Lemma length_append_string (a b : string) :
  String.length (a ++ b) = (String.length a + String.length b)%nat.
Proof.
  induction a as [|c a IH]; [reflexivity|].
  rewrite append_cons. cbn [String.length]. rewrite IH. reflexivity.
Qed.

(** X3: closing a spooled file that is open and on disk closes it and
    removes it; closing it again fails and changes nothing, so the storage
    is deleted once. *)
Theorem closing_a_spooled_file_removes_it_once name filename fs content off :
  os.files fs !! name = Some content ->
  os.handles fs !! name = Some off ->
  exists fs',
    rpc.Close (rpc.tmpFile name filename) fs = (None, fs')
    /\ os.files fs' !! name = None
    /\ os.handles fs' !! name = None
    /\ rpc.Close (rpc.tmpFile name filename) fs' = (Some "close: file already closed", fs').
Proof. apply tmpFile_Close_removes. Qed.

Lemma closing_a_spooled_file_removes_it_once_witness :
  exists fs',
    rpc.Close (rpc.tmpFile "rpc-multipart-0" "a.txt")
      (os.mkFS {["rpc-multipart-0" := "abc"]} {["rpc-multipart-0" := 0]} 1 false false false)
    = (None, fs')
    /\ os.files fs' !! "rpc-multipart-0" = None
    /\ os.handles fs' !! "rpc-multipart-0" = None
    /\ rpc.Close (rpc.tmpFile "rpc-multipart-0" "a.txt") fs'
       = (Some "close: file already closed", fs').
Proof.
  apply (closing_a_spooled_file_removes_it_once "rpc-multipart-0" "a.txt" _ "abc" 0);
    reflexivity.
Defined.

(** X4: [newTmpFile] on a file system without faults and a part that reads
    cleanly: the file carries the file name of the part, its size is that of
    the buffer and the rest of the part together, and a reader gets exactly
    those bytes, from the first one on. *)
Theorem newTmpFile_holds_buffer_and_rest (b : string) (part : rpc.Part) (fs : os.FS) :
  rpc.ReadErr part = None ->
  os.failCreate fs = false -> os.failWrite fs = false -> os.failSeek fs = false ->
  exists file fs',
    rpc.newTmpFile b part fs = (Ok file, fs')
    /\ rpc.FileName file = rpc.PartFileName part
    /\ rpc.Size file fs' = Done (strings.len b + strings.len (rpc.PartData part))
    /\ rpc.ReadAll file fs' = Some (b ++ rpc.PartData part).
Proof.
  intros Hr Hc Hw Hs. unfold rpc.newTmpFile. rewrite Hr.
  unfold os.CreateTemp. rewrite Hc.
  unfold os.Write. cbn [os.handles os.files os.failWrite].
  rewrite !lookup_insert_eq, Hw.
  unfold os.SeekStart. cbn [os.handles os.files os.failSeek].
  rewrite lookup_insert_eq, Hs.
  eexists _, _. split; [reflexivity|]. split; [reflexivity|].
  unfold rpc.Size, rpc.ReadAll, os.StatSize, os.ReadAll. cbn [os.handles os.files].
  rewrite !lookup_insert_eq. split; [|reflexivity].
  f_equal. unfold strings.len. rewrite append_nil.
  rewrite length_append_string. lia.
Qed.

Lemma newTmpFile_holds_buffer_and_rest_witness :
  exists file fs',
    rpc.newTmpFile "ab" (rpc.mkPart "content" "a.txt" "c" None) os.healthy = (Ok file, fs')
    /\ rpc.FileName file = "a.txt"
    /\ rpc.Size file fs' = Done (2 + 1)
    /\ rpc.ReadAll file fs' = Some "abc".
Proof.
  apply (newTmpFile_holds_buffer_and_rest "ab" (rpc.mkPart "content" "a.txt" "c" None) os.healthy);
    reflexivity.
Defined.

Lemma Remove_restores tmp (F : gmap string string) fs0 :
  is_Some (os.files fs0 !! tmp) ->
  delete tmp (os.files fs0) = F ->
  os.files (os.Remove tmp fs0).2 = F /\ os.handles (os.Remove tmp fs0).2 = os.handles fs0.
Proof.
  intros [c Hc] Hd. unfold os.Remove. rewrite Hc. cbn [snd os.files os.handles]. auto.
Qed.

(** X5: [newTmpFile] when the temporary file was created and the copy or the
    seek then failed: the error is returned and the file is removed again,
    so the directory is as it was; the file is not closed. *)
Theorem newTmpFile_failure_removes_and_keeps_open (b : string) (part : rpc.Part) (fs : os.FS) e fs' :
  os.failCreate fs = false ->
  os.files fs !! os.tempName "rpc-multipart-" (os.created fs) = None ->
  rpc.newTmpFile b part fs = (Err e, fs') ->
  os.files fs' = os.files fs
  /\ is_Some (os.handles fs' !! os.tempName "rpc-multipart-" (os.created fs)).
Proof.
  intros Hc Hfresh. unfold rpc.newTmpFile, os.CreateTemp. rewrite Hc.
  set (tmp := os.tempName "rpc-multipart-" (os.created fs)) in *.
  unfold os.Write. cbn [os.handles os.files os.failWrite].
  rewrite !lookup_insert_eq.
  assert (Hd1 : forall x, delete tmp (<[tmp := x]> (os.files fs)) = os.files fs).
  { intros x. apply delete_insert_id. exact Hfresh. }
  assert (Hd2 : forall x y, delete tmp (<[tmp := x]> (<[tmp := y]> (os.files fs))) = os.files fs).
  { intros x y. rewrite insert_insert_eq. apply Hd1. }
  destruct (os.failWrite fs) eqn:Hw.
  - intros E. inversion E; subst.
    match goal with |- context [os.Remove tmp ?fs0] =>
      destruct (Remove_restores tmp (os.files fs) fs0) as [-> ->] end.
    + cbn [os.files]. rewrite lookup_insert_eq. eauto.
    + apply Hd1.
    + cbn [os.handles]. rewrite lookup_insert_eq. eauto.
  - destruct (rpc.ReadErr part) as [er|].
    + intros E. inversion E; subst.
      match goal with |- context [os.Remove tmp ?fs0] =>
        destruct (Remove_restores tmp (os.files fs) fs0) as [-> ->] end.
      * cbn [os.files]. rewrite lookup_insert_eq. eauto.
      * apply Hd2.
      * cbn [os.handles]. rewrite lookup_insert_eq. eauto.
    + unfold os.SeekStart. cbn [os.handles os.files os.failSeek].
      rewrite lookup_insert_eq. destruct (os.failSeek fs) eqn:Hs; [|discriminate].
      intros E. inversion E; subst.
      match goal with |- context [os.Remove tmp ?fs0] =>
        destruct (Remove_restores tmp (os.files fs) fs0) as [-> ->] end.
      * cbn [os.files]. rewrite lookup_insert_eq. eauto.
      * apply Hd2.
      * cbn [os.handles]. rewrite lookup_insert_eq. eauto.
Qed.

Lemma newTmpFile_failure_removes_and_keeps_open_witness :
  os.files (rpc.newTmpFile "ab" (rpc.mkPart "content" "a.txt" "c" (Some "unexpected EOF"))
              os.healthy).2 = os.files os.healthy
  /\ is_Some (os.handles (rpc.newTmpFile "ab" (rpc.mkPart "content" "a.txt" "c"
                                                 (Some "unexpected EOF")) os.healthy).2
              !! os.tempName "rpc-multipart-" (os.created os.healthy)).
Proof.
  apply (newTmpFile_failure_removes_and_keeps_open "ab"
           (rpc.mkPart "content" "a.txt" "c" (Some "unexpected EOF")) os.healthy
           "unexpected EOF"); reflexivity.
Defined.

(** X6: the file [Call] captures from a part that reads cleanly, on a file
    system without faults and with a threshold below the largest [int64]:
    it is spooled to a temporary file exactly when the part is longer than
    the threshold, the temporary file then holds the bytes of the part and
    is rewound, and either way [Size] is the number of bytes of the part. *)
Theorem captured_file_has_the_size_of_the_part (p : rpc.Part) (maxMemory : Z) (fs : os.FS) :
  rpc.min64 <= maxMemory < rpc.max64 ->
  rpc.ReadErr p = None ->
  os.failCreate fs = false -> os.failWrite fs = false -> os.failSeek fs = false ->
  exists file fs',
    rpc.captureFile p maxMemory fs = (Ok file, fs')
    /\ rpc.Size file fs' = Done (strings.len (rpc.PartData p))
    /\ (maxMemory < strings.len (rpc.PartData p) ->
        exists name, file = rpc.tmpFile name ""
          /\ os.files fs' !! name = Some (rpc.PartData p)
          /\ os.handles fs' !! name = Some 0)
    /\ (strings.len (rpc.PartData p) <= maxMemory ->
        file = rpc.buffer (rpc.PartData p) "" /\ fs' = fs).
Proof. apply captureFile_size. Qed.

Lemma captured_file_has_the_size_of_the_part_witness :
  exists file fs',
    rpc.captureFile (rpc.mkPart "content" "a.txt" "abc" None) 2 os.healthy = (Ok file, fs')
    /\ rpc.Size file fs' = Done 3
    /\ (2 < 3 ->
        exists name, file = rpc.tmpFile name ""
          /\ os.files fs' !! name = Some "abc"
          /\ os.handles fs' !! name = Some 0)
    /\ (3 <= 2 -> file = rpc.buffer "abc" "" /\ fs' = os.healthy).
Proof.
  assert (Hm : rpc.min64 <= 2 < rpc.max64) by (unfold rpc.min64, rpc.max64; lia).
  exact (captured_file_has_the_size_of_the_part (rpc.mkPart "content" "a.txt" "abc" None) 2
           os.healthy Hm eq_refl eq_refl eq_refl eq_refl).
Defined.

(** X7: [Call] closes no file: every file that is open when it begins is
    open when it returns, whatever it returns. *)
Theorem Call_closes_no_file `{rpc.Regexp} `{rpc.Json} env m r boundary maxMemory w res w' :
  rpc.Call env m r boundary maxMemory w = Done (res, w') ->
  keepsOpen (rpc.fs w) (rpc.fs w').
Proof. apply Call_closes_nothing. Qed.

Lemma Call_closes_no_file_witness :
  exists res w',
    @rpc.Call onePattern hello.jsonV3 hello.env hello.descV3 (hello.upload "abc") "xyz" 0
      (rpc.mkWorld (os.CreateTemp "other-" os.healthy).2 []) = Done (res, w')
    /\ keepsOpen (os.CreateTemp "other-" os.healthy).2 (rpc.fs w').
Proof.
  eexists _, _. split; [vm_compute; reflexivity|].
  eapply (@Call_closes_no_file onePattern hello.jsonV3 hello.env hello.descV3
            (hello.upload "abc") "xyz" 0 (rpc.mkWorld (os.CreateTemp "other-" os.healthy).2 [])).
  vm_compute. reflexivity.
Defined.


(** ** Further properties: constraint rules *)

Lemma take_length_le n : forall s, (String.length (strings.take n s) <= n)%nat.
Proof.
  induction n as [|n IH]; intros [|c s]; cbn [strings.take String.length]; try lia.
  specialize (IH s). lia.
Qed.

(** X8: the message of a failed pattern rule quotes at most 25 bytes of the
    offending value: a longer value is cut to its first 22 bytes and three
    dots. *)
Theorem pattern_message_quotes_at_most_25_bytes `{rpc.Regexp} f pattern val msg :
  rpc.validate (rpc.patternFunc f pattern) (rpc.VString val) = Done (Some msg) ->
  rpc.matchString pattern val = false
  /\ exists shown,
       msg = rpc.messageName f ++ "=" ++ shown ++ " does not match the pattern " ++ pattern
       /\ (String.length shown <= 25)%nat
       /\ ((String.length val <= 25)%nat -> shown = val)
       /\ ((25 < String.length val)%nat -> shown = strings.take 22 val ++ "...").
Proof.
  cbn [rpc.validate]. destruct (rpc.matchString pattern val); [discriminate|].
  cbn [negb]. intros E. injection E as <-. split; [reflexivity|].
  destruct (25 <? String.length val)%nat eqn:El.
  - apply Nat.ltb_lt in El. exists (strings.take 22 val ++ "..."). split; [reflexivity|].
    split; [|split; [lia | reflexivity]].
    rewrite length_append_string. pose proof (take_length_le 22 val). cbn [String.length]. lia.
  - apply Nat.ltb_ge in El. exists val. split; [reflexivity|].
    split; [lia|]. split; [reflexivity | lia].
Qed.

Lemma pattern_message_quotes_at_most_25_bytes_witness :
  @rpc.matchString onePattern ".{2,}" "t" = false
  /\ exists shown,
       "str_param=t does not match the pattern .{2,}"
       = rpc.messageName (reflect.mkField "StrParam" (reflect.TBasic reflect.t_string)
                            [("json", "str_param"); ("pattern", ".{2,}")])
         ++ "=" ++ shown ++ " does not match the pattern " ++ ".{2,}"
       /\ (String.length shown <= 25)%nat
       /\ ((String.length "t" <= 25)%nat -> shown = "t")
       /\ ((25 < String.length "t")%nat -> shown = strings.take 22 "t" ++ "...").
Proof.
  apply (@pattern_message_quotes_at_most_25_bytes onePattern
           (reflect.mkField "StrParam" (reflect.TBasic reflect.t_string)
              [("json", "str_param"); ("pattern", ".{2,}")]) ".{2,}" "t").
  reflexivity.
Defined.

(** *** Malformed bounds *)

Lemma descsOfMethods_skip `{rpc.Regexp} env fuel m path before : forall rest res,
  Forall (fun h => rpc.isVersionMethod (reflect.mName h) = false) before ->
  rpc.descsOfMethods env fuel m path (before ++ rest) res
  = rpc.descsOfMethods env fuel m path rest res.
Proof.
  induction before as [|h before IH]; intros rest res Hb; [reflexivity|].
  apply Forall_cons in Hb as [Hh Hb].
  cbn [app rpc.descsOfMethods]. rewrite Hh. apply IH, Hb.
Qed.

Lemma validatorsOfFields_app_run `{rpc.Regexp} rec pre post : forall V cur V1,
  rpc.validatorsOfFields rec pre V cur = Done (Ok V1) ->
  rpc.validatorsOfFields rec (pre ++ post) V cur = rpc.validatorsOfFields rec post V1 cur.
Proof.
  induction pre as [|g pre IH]; intros V cur V1 E; cbn [app rpc.validatorsOfFields] in *.
  - injection E as <-. reflexivity.
  - destruct (reflect.kind (rpc.derefOnce (reflect.Typ g)));
      try (destruct (rpc.compileValidators _ _ _ _) as [V2|e]; [|discriminate]; apply IH, E).
    destruct (rec _ _ _) as [[V2|e]| |]; cbn [mbind outcome_bind obind] in *; try discriminate.
    apply IH, E.
Qed.

Lemma signedInt_validators t : rpc.signedInt t ->
  rpc.validators (reflect.kind t) = rpc.intValidators
  /\ reflect.kind (rpc.derefOnce t) <> reflect.Struct.
Proof.
  intros [-> | [-> | [-> | [-> | ->]]]]; split; (reflexivity || discriminate).
Qed.

(** X9: a request struct with a signed integer field whose [minimum] tag is no
    decimal [int64]: when the fields before it compile, [getValidators]
    answers with the error of [strconv.ParseInt], and [RegisterMethod]
    returns it, wrapped, and leaves the registry as it was. *)
Theorem malformed_minimum_fails_registration `{rpc.Regexp}
    env fuel r m path before g rest rcv ctx resp err id pre f post t e V1 :
  rpc.getMethodPath env m (rpc.trimPrefix r) = Ok path ->
  rpc.svcMethods m = (before ++ g :: rest)%list ->
  Forall (fun h => rpc.isVersionMethod (reflect.mName h) = false) before ->
  rpc.isVersionMethod (reflect.mName g) = true ->
  reflect.mIn g = [rcv; ctx; reflect.TPtr (reflect.TStruct id)] ->
  reflect.TypeString env ctx = "context.Context" ->
  reflect.mOut g = [resp; err] ->
  reflect.TypeString env err = "error" ->
  reflect.sFields (reflect.structOf env id) = (pre ++ f :: post)%list ->
  rpc.validatorsOfFields (rpc.getValidators env fuel) pre ∅ "" = Done (Ok V1) ->
  rpc.signedInt (reflect.Typ f) ->
  reflect.Lookup (reflect.Tag f) "minimum" = Some t ->
  strconv.ParseInt t = Err e ->
  rpc.getValidators env (S (S fuel)) (reflect.TPtr (reflect.TStruct id)) ∅ ""
  = Done (Err (strconv.errorText "ParseInt" t e))
  /\ rpc.RegisterMethod env (S (S fuel)) r m
     = Done (Some ("cannot register mehtod " ++ reflect.TypeString env (rpc.svcType m) ++ ": "
                   ++ strconv.errorText "ParseInt" t e), r).
Proof.
  intros Hpath Hm Hbefore Hg Hin Hctx Hout Herr Hfields Hpre Hsigned Htag Hparse.
  assert (Hv : rpc.getValidators env (S (S fuel)) (reflect.TPtr (reflect.TStruct id)) ∅ ""
               = Done (Err (strconv.errorText "ParseInt" t e))).
  { cbn [rpc.getValidators]. rewrite Hfields.
    rewrite (validatorsOfFields_app_run _ _ _ _ _ _ Hpre).
    cbn [rpc.validatorsOfFields].
    destruct (signedInt_validators _ Hsigned) as [Hvs Hk]. rewrite Hvs.
    assert (Hc : forall p V, rpc.compileValidators rpc.intValidators f p V
                             = Err (strconv.errorText "ParseInt" t e)).
    { intros p V. unfold rpc.intValidators. cbn [rpc.compileValidators rpc.GetValidateFunc].
      unfold rpc.minimumIntValue. rewrite Htag, Hparse. reflexivity. }
    destruct (reflect.kind (rpc.derefOnce (reflect.Typ f))); try congruence;
      rewrite Hc; reflexivity. }
  split; [exact Hv|].
  unfold rpc.RegisterMethod, rpc.descsFromMethod. rewrite Hpath, Hm.
  rewrite descsOfMethods_skip by exact Hbefore.
  cbn [rpc.descsOfMethods]. rewrite Hg, Hin, Hout. cbn [length Nat.eqb negb nth orb].
  rewrite Hctx, Herr. cbn [String.eqb Ascii.eqb Bool.eqb negb orb].
  rewrite ?String.eqb_refl. cbn [negb orb].
  rewrite Hv. reflexivity.
Qed.

Lemma malformed_minimum_fails_registration_witness :
  @rpc.getValidators onePattern sloppy.env 3 (reflect.TPtr (reflect.TStruct "sloppy.Req")) ∅ ""
  = Done (Err (strconv.errorText "ParseInt" "ten" strconv.ErrSyntax))
  /\ @rpc.RegisterMethod onePattern sloppy.env 3 sloppy.testRpc sloppy.New
     = Done (Some ("cannot register mehtod "
                   ++ reflect.TypeString sloppy.env (rpc.svcType sloppy.New) ++ ": "
                   ++ strconv.errorText "ParseInt" "ten" strconv.ErrSyntax), sloppy.testRpc).
Proof.
  apply (@malformed_minimum_fails_registration onePattern sloppy.env 1 sloppy.testRpc sloppy.New
           "/sloppy"
           [ reflect.mkMethod "Caption" [sloppy.receiver; hello.tContext]
               [reflect.TBasic reflect.t_string] rpc.otherFunc;
             reflect.mkMethod "Description" [sloppy.receiver; hello.tContext]
               [reflect.TBasic reflect.t_string] rpc.otherFunc ]
           sloppy.V1Method [] sloppy.receiver hello.tContext
           (reflect.TBasic reflect.t_string) hello.tError "sloppy.Req"
           [ reflect.mkField "Name" (reflect.TBasic reflect.t_string) [("json", "name")] ]
           sloppy.Limit [] "ten" strconv.ErrSyntax ∅);
    first [ reflexivity
          | repeat constructor
          | left; reflexivity ].
Defined.

Lemma schemaFields_app_run `{rpc.Regexp} rec pre post : forall j fl st j1 fl1 st1,
  rpc.schemaFields rec pre j fl st = Done (j1, fl1, st1) ->
  rpc.schemaFields rec (pre ++ post) j fl st = rpc.schemaFields rec post j1 fl1 st1.
Proof.
  induction pre as [|g pre IH]; intros j fl st j1 fl1 st1 E; cbn [app rpc.schemaFields] in *.
  - injection E as <- <- <-. reflexivity.
  - destruct (negb (reflect.IsExported g)); [apply IH, E|].
    destruct (String.eqb (rpc.jsonName g) "-"); [apply IH, E|].
    destruct (rec (reflect.Typ g) st) as [[s st']| |]; cbn [mbind outcome_bind obind] in *;
      try discriminate.
    destruct (rpc.addFieldRestrictions g _) as [s'|e]; [|discriminate].
    destruct (decide _); apply IH, E.
Qed.

(** X10: the same tag in a type the document describes: when the fields before
    it are described, [getSchema] panics on the field, so [GetSwagger]
    panics, where registration of a request would have returned an error. *)
Theorem malformed_minimum_panics_the_document `{rpc.Regexp}
    env trimPrefix fuel id pre f post t e (st : gmap string openapi.Schema) j fl st1 :
  reflect.sFields (reflect.structOf env id) = (pre ++ f :: post)%list ->
  st !! rpc.typeName env trimPrefix (reflect.TStruct id) = None ->
  rpc.schemaFields (rpc.getSchema env trimPrefix (S fuel)) pre ∅ ∅ st = Done (j, fl, st1) ->
  reflect.IsExported f = true ->
  String.eqb (rpc.jsonName f) "-" = false ->
  rpc.signedInt (reflect.Typ f) ->
  reflect.Lookup (reflect.Tag f) "minimum" = Some t ->
  strconv.ParseInt t = Err e ->
  rpc.getSchema env trimPrefix (S (S fuel)) (reflect.TStruct id) st
  = Panic ("Invalid validator value: " ++ strconv.errorText "ParseInt" t e).
Proof.
  intros Hfields Hst Hpre Hex Hname Hsigned Htag Hparse.
  cbn [rpc.getSchema]. rewrite Hst, Hfields.
  rewrite (schemaFields_app_run _ _ _ _ _ _ _ _ _ Hpre).
  cbn [rpc.schemaFields]. rewrite Hex, Hname. cbn [negb].
  assert (Hr : forall s, rpc.addFieldRestrictions f s
                         = Err (strconv.errorText "ParseInt" t e)).
  { intros s. unfold rpc.addFieldRestrictions.
    destruct (signedInt_validators _ Hsigned) as [-> _].
    unfold rpc.intValidators. cbn [rpc.addRestrictions rpc.ToSwaggerSchema].
    unfold rpc.minimumIntValue. rewrite Htag, Hparse. reflexivity. }
  destruct Hsigned as [Ht | [Ht | [Ht | [Ht | Ht]]]]; rewrite Ht in *;
    cbn [rpc.getSchema reflect.basicKind mbind outcome_bind obind];
    rewrite Hr; reflexivity.
Qed.

Lemma malformed_minimum_panics_the_document_witness :
  @rpc.getSchema onePattern sloppy.env "example.com/app" 3 (reflect.TStruct "sloppy.Req") ∅
  = Panic ("Invalid validator value: " ++ strconv.errorText "ParseInt" "ten" strconv.ErrSyntax).
Proof.
  apply (@malformed_minimum_panics_the_document onePattern sloppy.env "example.com/app" 1
           "sloppy.Req"
           [ reflect.mkField "Name" (reflect.TBasic reflect.t_string) [("json", "name")] ]
           sloppy.Limit [] "ten" strconv.ErrSyntax ∅
           {[ "name" := openapi.withType "string" "" ]} ∅ ∅);
    first [ reflexivity | left; reflexivity ].
Defined.

(** *** Kinds without rules *)

(** X11: a top-level request field whose kind has no rules bound to it (a
    pointer, a slice, a map, a boolean, a float, an interface) gets no
    predicate at registration, whatever its tags declare: every value of the
    field passes. *)
Theorem kinds_without_rules_are_never_validated `{rpc.Regexp}
    env fuel id pre f post (V : gmap string (list rpc.validateFunc)) :
  reflect.sFields (reflect.structOf env id) = (pre ++ f :: post)%list ->
  NoDup (map reflect.Name (pre ++ f :: post)) ->
  hasByte "/" (reflect.Name f) = false ->
  reflect.kind (rpc.derefOnce (reflect.Typ f)) <> reflect.Struct ->
  rpc.validators (reflect.kind (reflect.Typ f)) = [] ->
  rpc.getValidators env fuel (reflect.TPtr (reflect.TStruct id)) ∅ "" = Done (Ok V) ->
  default [] (V !! ("/" ++ reflect.Name f)) = []
  /\ forall v, rpc.runValidators (default [] (V !! ("/" ++ reflect.Name f))) v = Done None.
Proof.
  intros Hfields Hnd Hslash Hkind Hnone E.
  destruct (registered_validators env fuel id pre f post V Hfields Hnd Hslash Hkind E) as [Hv _].
  unfold fieldFuncs in Hv. rewrite Hnone in Hv. cbn [compiledFuncs] in Hv.
  split; [exact Hv|]. intros v. rewrite Hv. reflexivity.
Qed.

Lemma kinds_without_rules_are_never_validated_witness :
  exists V,
    @rpc.getValidators onePattern optional.env 3 (reflect.TPtr (reflect.TStruct "optional.Req"))
      ∅ "" = Done (Ok V)
    /\ default [] (V !! ("/" ++ reflect.Name optional.Limit)) = []
    /\ forall v, @rpc.runValidators onePattern
                   (default [] (V !! ("/" ++ reflect.Name optional.Limit))) v = Done None.
Proof.
  eexists. split; [vm_compute; reflexivity|].
  apply (@kinds_without_rules_are_never_validated onePattern optional.env 3 "optional.Req"
           [] optional.Limit [optional.Tags]);
    first [ reflexivity | discriminate | apply (bool_decide_unpack _); vm_compute; exact I ].
Defined.


(** ** Further properties: the documentation projection *)

(** *** Names of components *)

Lemma hasByte_app c a b : hasByte c (a ++ b) = hasByte c a || hasByte c b.
Proof.
  induction a as [|x a IH]; [reflexivity|].
  rewrite append_cons. cbn [hasByte]. rewrite IH, Bool.orb_assoc. reflexivity.
Qed.

Lemma hasByte_replaceByte_same c s :
  Ascii.eqb "_" c = false -> hasByte c (strings.replaceByte c "_" s) = false.
Proof.
  intros Hc. induction s as [|a s IH]; [reflexivity|]. cbn [strings.replaceByte].
  destruct (Ascii.eqb a c) eqn:E.
  - rewrite append_cons, append_nil. cbn [hasByte]. rewrite Hc, IH. reflexivity.
  - cbn [hasByte]. rewrite E, IH. reflexivity.
Qed.

Lemma hasByte_replaceByte_other c d s :
  Ascii.eqb "_" c = false -> hasByte c s = false ->
  hasByte c (strings.replaceByte d "_" s) = false.
Proof.
  intros Hc. induction s as [|a s IH]; [reflexivity|]. cbn [strings.replaceByte hasByte].
  intros H. apply Bool.orb_false_iff in H as [Ha Hs].
  destruct (Ascii.eqb a d).
  - rewrite append_cons, append_nil. cbn [hasByte]. rewrite Hc, (IH Hs). reflexivity.
  - cbn [hasByte]. rewrite Ha, (IH Hs). reflexivity.
Qed.

Lemma hasByte_ToLower c s :
  (forall x, Ascii.eqb (strings.lowerByte x) c = Ascii.eqb x c) ->
  hasByte c (strings.ToLower s) = hasByte c s.
Proof.
  intros Hc. induction s as [|a s IH]; [reflexivity|].
  cbn [strings.ToLower hasByte]. rewrite Hc, IH. reflexivity.
Qed.

Lemma lowerByte_slash x : Ascii.eqb (strings.lowerByte x) "/" = Ascii.eqb x "/".
Proof. destruct x as [[] [] [] [] [] [] [] []]; reflexivity. Qed.

Lemma lowerByte_dot x : Ascii.eqb (strings.lowerByte x) "." = Ascii.eqb x ".".
Proof. destruct x as [[] [] [] [] [] [] [] []]; reflexivity. Qed.

Lemma lowerByte_dash x : Ascii.eqb (strings.lowerByte x) "-" = Ascii.eqb x "-".
Proof. destruct x as [[] [] [] [] [] [] [] []]; reflexivity. Qed.

(** X12: the name a type has among the components of the document holds no
    slash, no dot, no dash and no upper-case letter, whatever the package
    path, the type name and the trim prefix are. *)
Theorem typeName_is_a_plain_lower_case_word env trimPrefix t :
  hasByte "/" (rpc.typeName env trimPrefix t) = false
  /\ hasByte "." (rpc.typeName env trimPrefix t) = false
  /\ hasByte "-" (rpc.typeName env trimPrefix t) = false
  /\ isLower (rpc.typeName env trimPrefix t).
Proof.
  unfold rpc.typeName.
  set (name := strings.TrimPrefix (_ ++ "/" ++ _) "/").
  split; [|split; [|split]].
  - rewrite (hasByte_ToLower _ _ lowerByte_slash).
    do 2 (apply hasByte_replaceByte_other; [reflexivity|]).
    apply hasByte_replaceByte_same. reflexivity.
  - rewrite (hasByte_ToLower _ _ lowerByte_dot).
    apply hasByte_replaceByte_other; [reflexivity|].
    apply hasByte_replaceByte_same. reflexivity.
  - rewrite (hasByte_ToLower _ _ lowerByte_dash).
    apply hasByte_replaceByte_same. reflexivity.
  - apply ToLower_idem.
Qed.

(** *** The table of components *)

Lemma schemaFields_keeps `{rpc.Regexp} rec fields (name : string) (sch : openapi.Schema) :
  (forall t st s st', rec t st = Done (s, st') -> st !! name = Some sch -> st' !! name = Some sch) ->
  forall j fl st j' fl' st',
    rpc.schemaFields rec fields j fl st = Done (j', fl', st') ->
    st !! name = Some sch -> st' !! name = Some sch.
Proof.
  intros Hrec. induction fields as [|g fields IH]; intros j fl st j' fl' st' E Hst;
    cbn [rpc.schemaFields] in E.
  - injection E as <- <- <-. exact Hst.
  - destruct (negb (reflect.IsExported g)); [apply (IH _ _ _ _ _ _ E Hst)|].
    destruct (String.eqb (rpc.jsonName g) "-"); [apply (IH _ _ _ _ _ _ E Hst)|].
    destruct (rec (reflect.Typ g) st) as [[s st1]| |] eqn:Er; cbn [mbind outcome_bind obind] in E;
      try discriminate.
    destruct (rpc.addFieldRestrictions g _) as [s'|e]; [|discriminate].
    pose proof (Hrec _ _ _ _ Er Hst) as H1.
    destruct (decide _); apply (IH _ _ _ _ _ _ E H1).
Qed.

Lemma getSchema_keeps `{rpc.Regexp} env trimPrefix fuel :
  forall t (st : gmap string openapi.Schema) s st' name sch,
  rpc.getSchema env trimPrefix fuel t st = Done (s, st') ->
  st !! name = Some sch ->
  st' !! name = Some sch.
Proof.
  induction fuel as [|fuel IH]; intros t st s st' name sch E Hst; [discriminate|].
  cbn [rpc.getSchema] in E. destruct t as [b|e|e|e|k e|e|p n|p n|id].
  - destruct (reflect.basicKind b); try discriminate; injection E as <- <-; exact Hst.
  - apply (IH _ _ _ _ _ _ E Hst).
  - destruct (rpc.getSchema env trimPrefix fuel e st) as [[s1 st1]| |] eqn:E1;
      cbn [mbind outcome_bind obind] in E; try discriminate.
    injection E as <- <-. apply (IH _ _ _ _ _ _ E1 Hst).
  - destruct (rpc.getSchema env trimPrefix fuel e st) as [[s1 st1]| |] eqn:E1;
      cbn [mbind outcome_bind obind] in E; try discriminate.
    injection E as <- <-. apply (IH _ _ _ _ _ _ E1 Hst).
  - destruct (decide _); injection E as <- <-; exact Hst.
  - discriminate.
  - destruct (decide _); injection E as <- <-; exact Hst.
  - discriminate.
  - destruct (st !! rpc.typeName env trimPrefix (reflect.TStruct id)) as [x|] eqn:El.
    + injection E as <- <-. exact Hst.
    + destruct (rpc.schemaFields _ _ _ _ _) as [[[j fl] st1]| |] eqn:Ef;
        cbn [mbind outcome_bind obind] in E; try discriminate.
      injection E as <- <-.
      rewrite lookup_insert_ne by (intros Heq; rewrite Heq in El; congruence).
      apply (schemaFields_keeps _ _ name sch (fun t0 st0 s0 st0' E0 => IH t0 st0 s0 st0' name sch E0)
               _ _ _ _ _ _ Ef Hst).
Qed.

Lemma getSchema_struct_reference `{rpc.Regexp}
    env trimPrefix fuel id t (st : gmap string openapi.Schema) s st' :
  t = reflect.TStruct id \/ t = reflect.TPtr (reflect.TStruct id) ->
  rpc.getSchema env trimPrefix fuel t st = Done (s, st') ->
  s = rpc.refTo (rpc.typeName env trimPrefix (reflect.TStruct id))
  /\ openapi.Ref s = "#/components/schemas/" ++ rpc.typeName env trimPrefix (reflect.TStruct id)
  /\ is_Some (st' !! rpc.typeName env trimPrefix (reflect.TStruct id)).
Proof.
  assert (Hs : forall fuel0 st0 s0 st0',
    rpc.getSchema env trimPrefix fuel0 (reflect.TStruct id) st0 = Done (s0, st0') ->
    s0 = rpc.refTo (rpc.typeName env trimPrefix (reflect.TStruct id))
    /\ openapi.Ref s0 = "#/components/schemas/" ++ rpc.typeName env trimPrefix (reflect.TStruct id)
    /\ is_Some (st0' !! rpc.typeName env trimPrefix (reflect.TStruct id))).
  { intros [|fuel0] st0 s0 st0' E; [discriminate|]. cbn [rpc.getSchema] in E.
    destruct (st0 !! rpc.typeName env trimPrefix (reflect.TStruct id)) as [x|] eqn:El.
    - injection E as <- <-. rewrite El. split; [reflexivity|]. split; [reflexivity | eauto].
    - destruct (rpc.schemaFields _ _ _ _ _) as [[[j fl] st1]| |];
        cbn [mbind outcome_bind obind] in E; try discriminate.
      injection E as <- <-. rewrite lookup_insert_eq.
      split; [reflexivity|]. split; [reflexivity | eauto]. }
  intros [-> | ->] E.
  - apply (Hs _ _ _ _ E).
  - destruct fuel as [|fuel]; [discriminate|]. cbn [rpc.getSchema] in E. apply (Hs _ _ _ _ E).
Qed.

(** X13: [getSchema] only adds to the table of components: a schema stored
    under a name before the call is stored under it, unchanged, after the
    call.  And a struct, or a pointer to one, is answered by a reference to
    the component of its name, which is in the table when the call
    returns. *)
Theorem getSchema_adds_components_and_its_references_resolve `{rpc.Regexp}
    env trimPrefix fuel t (st : gmap string openapi.Schema) s st' :
  rpc.getSchema env trimPrefix fuel t st = Done (s, st') ->
  (forall name sch, st !! name = Some sch -> st' !! name = Some sch)
  /\ (forall id, t = reflect.TStruct id \/ t = reflect.TPtr (reflect.TStruct id) ->
      openapi.Ref s = "#/components/schemas/" ++ rpc.typeName env trimPrefix (reflect.TStruct id)
      /\ is_Some (st' !! rpc.typeName env trimPrefix (reflect.TStruct id))).
Proof.
  intros E. split.
  - intros name sch. apply (getSchema_keeps _ _ _ _ _ _ _ _ _ E).
  - intros id Ht. apply (getSchema_struct_reference _ _ _ _ _ _ _ _ Ht E).
Qed.

Lemma getSchema_adds_components_and_its_references_resolve_witness :
  exists s st',
    @rpc.getSchema onePattern hello.env "github.com/go-qbit/rpc/internal/test/method" 5
      (reflect.TPtr (reflect.TStruct "hello.ReqV2"))
      (<["hello_reqv3" := openapi.withType "object" ""]> ∅) = Done (s, st')
    /\ st' !! "hello_reqv3" = Some (openapi.withType "object" "")
    /\ openapi.Ref s = "#/components/schemas/hello_reqv2"
    /\ is_Some (st' !! "hello_reqv2").
Proof.
  assert (H : match @rpc.getSchema onePattern hello.env
                      "github.com/go-qbit/rpc/internal/test/method" 5
                      (reflect.TPtr (reflect.TStruct "hello.ReqV2"))
                      (<["hello_reqv3" := openapi.withType "object" ""]> ∅) with
              | Done _ => true
              | _ => false
              end = true) by (vm_compute; reflexivity).
  destruct (@rpc.getSchema onePattern hello.env "github.com/go-qbit/rpc/internal/test/method" 5
              (reflect.TPtr (reflect.TStruct "hello.ReqV2"))
              (<["hello_reqv3" := openapi.withType "object" ""]> ∅)) as [[s st']| |] eqn:E;
    try discriminate H.
  destruct (@getSchema_adds_components_and_its_references_resolve onePattern hello.env
              "github.com/go-qbit/rpc/internal/test/method" 5
              (reflect.TPtr (reflect.TStruct "hello.ReqV2"))
              (<["hello_reqv3" := openapi.withType "object" ""]> ∅) s st' E) as [Hkeep Href].
  exists s, st'. split; [reflexivity|].
  split; [apply Hkeep; apply lookup_insert_eq|].
  apply (Href "hello.ReqV2"). right. reflexivity.
Defined.

(** *** Tables without cycles *)

Lemma ranked_fields env rank :
  ranked env rank = true ->
  forall id f, In f (reflect.sFields (reflect.structOf env id)) ->
  (typeDepth rank (reflect.Typ f) <= rank id)%nat.
Proof.
  intros Hr id f. induction env as [|[k d] env IH]; cbn [reflect.structOf]; [intros []|].
  cbn [ranked forallb] in Hr. apply andb_true_iff in Hr as [Hd Hr].
  destruct (String.eqb_spec k id) as [->|Hne].
  - intros Hin. rewrite forallb_forall in Hd. apply Nat.leb_le, Hd, Hin.
  - apply IH, Hr.
Qed.

Lemma schemaFields_returns `{rpc.Regexp} rec fields :
  (forall f, In f fields -> forall st, rec (reflect.Typ f) st <> OutOfFuel) ->
  forall j fl st, rpc.schemaFields rec fields j fl st <> OutOfFuel.
Proof.
  induction fields as [|g fields IH]; intros Hrec j fl st; cbn [rpc.schemaFields];
    [discriminate|].
  assert (IH' : forall j fl st, rpc.schemaFields rec fields j fl st <> OutOfFuel).
  { apply IH. intros f Hf. apply Hrec. right. exact Hf. }
  destruct (negb (reflect.IsExported g)); [apply IH'|].
  destruct (String.eqb (rpc.jsonName g) "-"); [apply IH'|].
  pose proof (Hrec g (or_introl eq_refl) st) as Hg.
  destruct (rec (reflect.Typ g) st) as [[s st1]| |]; cbn [mbind outcome_bind obind];
    [|discriminate|congruence].
  destruct (rpc.addFieldRestrictions g _) as [s'|e]; [|discriminate].
  destruct (decide _); apply IH'.
Qed.

(** X14: on a type table without cycles, one in which every struct can be given
    a depth greater than that of each of its fields, [getSchema] returns
    or panics once the fuel covers the depth of the type: the walk ends. *)
Theorem getSchema_ends_on_tables_without_cycles `{rpc.Regexp} env trimPrefix rank :
  ranked env rank = true ->
  forall fuel t (st : gmap string openapi.Schema),
  (typeDepth rank t <= fuel)%nat ->
  rpc.getSchema env trimPrefix fuel t st <> OutOfFuel.
Proof.
  intros Hr. induction fuel as [|fuel IH]; intros t st Hd.
  - destruct t; cbn [typeDepth] in Hd; lia.
  - cbn [rpc.getSchema]. destruct t as [b|e|e|e|k e|e|p n|p n|id]; cbn [typeDepth] in Hd.
    + destruct (reflect.basicKind b); discriminate.
    + apply IH. lia.
    + pose proof (IH e st ltac:(lia)) as He.
      destruct (rpc.getSchema env trimPrefix fuel e st) as [[s1 st1]| |];
        cbn [mbind outcome_bind obind]; [discriminate|discriminate|congruence].
    + pose proof (IH e st ltac:(lia)) as He.
      destruct (rpc.getSchema env trimPrefix fuel e st) as [[s1 st1]| |];
        cbn [mbind outcome_bind obind]; [discriminate|discriminate|congruence].
    + destruct (decide _); discriminate.
    + discriminate.
    + destruct (decide _); discriminate.
    + discriminate.
    + destruct (st !! rpc.typeName env trimPrefix (reflect.TStruct id)); [discriminate|].
      assert (Hf : rpc.schemaFields (rpc.getSchema env trimPrefix fuel)
                     (reflect.sFields (reflect.structOf env id)) ∅ ∅ st <> OutOfFuel).
      { apply schemaFields_returns. intros f Hf st0. apply IH.
        pose proof (ranked_fields env rank Hr id f Hf). lia. }
      destruct (rpc.schemaFields _ _ _ _ _) as [[[j fl] st1]| |];
        cbn [mbind outcome_bind obind]; [discriminate|discriminate|congruence].
Qed.

Lemma getSchema_ends_on_tables_without_cycles_witness :
  @rpc.getSchema onePattern hello.env "github.com/go-qbit/rpc/internal/test/method" 5
    (reflect.TPtr (reflect.TStruct "hello.ReqV1")) ∅ <> OutOfFuel.
Proof.
  apply (@getSchema_ends_on_tables_without_cycles onePattern hello.env
           "github.com/go-qbit/rpc/internal/test/method"
           (fun id => if String.eqb id "hello.ReqV1" || String.eqb id "hello.RespV1"
                      then 3%nat else 1%nat)).
  - vm_compute. reflexivity.
  - vm_compute. lia.
Defined.


(** ** Further properties: the method registry *)

(** *** The path of a service *)

Lemma HasPrefix_split p : forall s,
  strings.HasPrefix s p = true -> s = p ++ strings.drop (String.length p) s.
Proof.
  induction p as [|c p IH]; intros s E; [reflexivity|].
  destruct s as [|a s]; cbn [strings.HasPrefix] in E; [discriminate|].
  apply andb_true_iff in E as [Ea Es]. apply Ascii.eqb_eq in Ea. subst a.
  rewrite append_cons. cbn [String.length strings.drop]. f_equal. apply IH, Es.
Qed.

(** X15: [getMethodPath] answers with what is left of the service's package
    path when the trim prefix, less one final slash, is taken off its
    front; it is an error exactly when the package path does not begin with
    that prefix. *)
Theorem getMethodPath_takes_the_prefix_off env m trimPrefix :
  match rpc.getMethodPath env m trimPrefix with
  | Ok path => rpc.servicePkgPath env m = strings.TrimSuffix trimPrefix "/" ++ path
  | Err e =>
      (forall path, rpc.servicePkgPath env m <> strings.TrimSuffix trimPrefix "/" ++ path)
      /\ e = "invalid trim prefix '" ++ strings.TrimSuffix trimPrefix "/" ++ "' for '"
             ++ rpc.servicePkgPath env m ++ "'"
  end.
Proof.
  unfold rpc.getMethodPath.
  destruct (strings.HasPrefix (rpc.servicePkgPath env m) (strings.TrimSuffix trimPrefix "/"))
    eqn:E; cbn [negb].
  - unfold strings.TrimPrefix. rewrite E. apply HasPrefix_split, E.
  - split; [|reflexivity]. intros path Heq. rewrite Heq, HasPrefix_self in E. discriminate.
Qed.

(** *** Version methods *)

Lemma digitRuns_empty ds : In "" (regexp.digitRuns ds) <-> ds <> "" /\ digits ds = true.
Proof.
  induction ds as [|a s IH]; cbn [regexp.digitRuns digits].
  - split; [intros [] | intros [Hne _]; exfalso; apply Hne; reflexivity].
  - destruct (strings.isDigit a); cbn [andb].
    + split.
      * intros [-> | Hin]; [split; [discriminate | reflexivity]|].
        apply IH in Hin as [_ Hd]. split; [discriminate | exact Hd].
      * intros [_ Hd]. destruct s as [|b s]; [left; reflexivity|].
        right. apply IH. split; [discriminate | exact Hd].
    + split; [intros [] | intros [_ Hd]; discriminate].
Qed.

Lemma flat_map_In_nonempty {A B : Type} (f : A -> list B) (l : list A) x :
  In x l -> f x <> [] -> flat_map f l <> [].
Proof.
  induction l as [|a l IH]; [intros []|]. cbn [flat_map].
  intros [-> | Hin] Hne.
  - destruct (f x); [congruence | discriminate].
  - intros Heq. apply app_eq_nil in Heq as [_ Heq]. exact (IH Hin Hne Heq).
Qed.

Lemma isVersionMethod_iff name :
  rpc.isVersionMethod name = true
  <-> exists ds, name = String "V" ds /\ ds <> "" /\ digits ds = true.
Proof.
  unfold rpc.isVersionMethod, regexp.MatchString. split.
  - intros E.
    assert (Em : regexp.matchesHere rpc.reMethodVersion true name = true).
    { destruct name as [|a s]; cbn [regexp.search] in E.
      - rewrite Bool.orb_false_r in E. exact E.
      - rewrite search_reMethodVersion_later, Bool.orb_false_r in E. exact E. }
    clear E. unfold regexp.matchesHere, rpc.reMethodVersion in Em.
    cbn [regexp.matchHere flat_map app] in Em. rewrite app_nil_r in Em.
    destruct name as [|a ds]; [discriminate Em|].
    cbn [strings.HasPrefix] in Em.
    destruct (Ascii.eqb_spec a "V") as [->|Hne]; [|discriminate Em].
    cbn [andb flat_map app String.length strings.drop] in Em. rewrite app_nil_r in Em.
    destruct (flat_map _ _) as [|x xs] eqn:Ef; [discriminate Em|].
    destruct (flat_map_nonempty _ _ ltac:(rewrite Ef; discriminate)) as ([b rest] & Hin & Hne).
    apply in_map_iff in Hin as (rest' & Heq & Hin). injection Heq as <- <-.
    cbn [regexp.matchHere] in Hne.
    destruct (String.eqb_spec rest' ""); [subst rest'|congruence].
    exists ds. split; [reflexivity|]. apply digitRuns_empty, Hin.
  - intros (ds & -> & Hd). apply digitRuns_empty in Hd.
    cbn [regexp.search]. apply Bool.orb_true_iff. left.
    unfold regexp.matchesHere, rpc.reMethodVersion.
    cbn [regexp.matchHere flat_map app strings.HasPrefix]. rewrite app_nil_r.
    change (Ascii.eqb "V" "V") with true.
    cbn [andb flat_map app String.length strings.drop]. rewrite app_nil_r.
    destruct (flat_map _ _) as [|x xs] eqn:Ef; [|reflexivity].
    exfalso. revert Ef.
    apply (flat_map_In_nonempty _ _ (false, "")).
    + apply in_map_iff. exists "". split; [reflexivity | exact Hd].
    + cbn [regexp.matchHere String.eqb]. discriminate.
Qed.

(** X16: a method is a version method exactly when its name is [V] followed by
    one or more decimal digits and nothing else. *)
Theorem version_methods_are_named_V_and_digits name :
  rpc.isVersionMethod name = true
  <-> exists ds, name = String "V" ds /\ ds <> "" /\ digits ds = true.
Proof. apply isVersionMethod_iff. Qed.

(** *** Descriptors *)

Lemma descsOfMethods_describes `{rpc.Regexp} env fuel m path gs : forall res mds,
  rpc.descsOfMethods env fuel m path gs res = Done (Ok mds) ->
  exists news,
    mds = (res ++ news)%list
    /\ Forall2 (fun md g => describes env fuel m md g /\ versionSignature env g)
         news (List.filter (fun g => rpc.isVersionMethod (reflect.mName g)) gs).
Proof.
  induction gs as [|g gs IH]; intros res mds E; cbn [rpc.descsOfMethods List.filter] in *.
  - injection E as <-. exists []. rewrite app_nil_r. split; [reflexivity | constructor].
  - destruct (rpc.isVersionMethod (reflect.mName g)); [|apply IH, E].
    destruct (negb (length (reflect.mIn g) =? 3)%nat || _) eqn:Ein; [discriminate|].
    destruct (negb (length (reflect.mOut g) =? 2)%nat || _) eqn:Eout; [discriminate|].
    apply Bool.orb_false_iff in Ein as [Ein1 Ein2], Eout as [Eout1 Eout2].
    apply Bool.negb_false_iff in Ein1, Ein2, Eout1, Eout2.
    apply Nat.eqb_eq in Ein1, Eout1. apply String.eqb_eq in Ein2, Eout2.
    destruct (rpc.getValidators _ _ _ _ _) as [[v|e]| |] eqn:Ev;
      cbn [mbind outcome_bind obind] in E; try discriminate.
    destruct (IH _ _ E) as (news & -> & Hn).
    eexists (_ :: news). split; [rewrite <- app_assoc; reflexivity|].
    constructor; [|exact Hn].
    split; [|repeat split; assumption].
    unfold describes. cbn [rpc.Method_ rpc.Request rpc.Response rpc.Func rpc.Errors rpc.Validators].
    repeat split; try reflexivity. exact Ev.
Qed.

(** X17: when [descsFromMethod] succeeds, its descriptors are those of the
    version methods of the service, one each and in their order: each holds
    the service, the third parameter as the request type, the first result
    as the response type, the method itself, an empty error catalog and the
    validators of the request type; and every version method has the
    signature asked for. *)
Theorem descriptors_are_those_of_the_version_methods `{rpc.Regexp} env fuel m trimPrefix mds :
  rpc.descsFromMethod env fuel m trimPrefix = Done (Ok mds) ->
  Forall2 (fun md g => describes env fuel m md g /\ versionSignature env g)
    mds (versionMethods m).
Proof.
  unfold rpc.descsFromMethod. destruct (rpc.getMethodPath env m trimPrefix); [|discriminate].
  intros E. apply descsOfMethods_describes in E as (news & -> & Hn). exact Hn.
Qed.

Lemma descriptors_are_those_of_the_version_methods_witness :
  exists mds,
    @rpc.descsFromMethod onePattern hello.env 6 hello.New (rpc.trimPrefix hello.testRpc)
    = Done (Ok mds)
    /\ Forall2 (fun md g => @describes onePattern hello.env 6 hello.New md g
                            /\ versionSignature hello.env g)
         mds (versionMethods hello.New).
Proof.
  assert (H : match @rpc.descsFromMethod onePattern hello.env 6 hello.New
                      (rpc.trimPrefix hello.testRpc) with
              | Done (Ok _) => true
              | _ => false
              end = true) by (vm_compute; reflexivity).
  destruct (@rpc.descsFromMethod onePattern hello.env 6 hello.New
              (rpc.trimPrefix hello.testRpc)) as [[mds|e]| |] eqn:E; try discriminate H.
  exists mds. split; [reflexivity|].
  apply (@descriptors_are_those_of_the_version_methods onePattern hello.env 6 hello.New
           (rpc.trimPrefix hello.testRpc) mds E).
Defined.

(** *** Error catalogs *)

Lemma sameButErrors_refl md : sameButErrors md md.
Proof. repeat split. Qed.

Lemma sameButErrors_trans a b c : sameButErrors a b -> sameButErrors b c -> sameButErrors a c.
Proof. unfold sameButErrors. intuition congruence. Qed.

Lemma sameButErrors_setError code desc md : sameButErrors md (rpc.setError code desc md).
Proof. repeat split. Qed.

(** X18: binding a catalog that is accepted: the descriptor at the path keeps
    everything but its error catalog, which now maps the name of every
    field to the field's [desc] tag and is otherwise as before; no other
    descriptor changes. *)
Theorem bound_catalog_is_recorded env path fields :
  forall (ms ms' : gmap string rpc.MethodDesc) md,
  rpc.bindErrorFields env path fields ms = Done (None, ms') ->
  ms !! path = Some md ->
  NoDup (map reflect.Name fields) ->
  exists md',
    ms' !! path = Some md'
    /\ sameButErrors md md'
    /\ (forall ft, In ft fields ->
        rpc.Errors md' !! reflect.Name ft = Some (reflect.Get (reflect.Tag ft) "desc"))
    /\ (forall code, ~ In code (map reflect.Name fields) ->
        rpc.Errors md' !! code = rpc.Errors md !! code)
    /\ forall k, k <> path -> ms' !! k = ms !! k.
Proof.
  induction fields as [|ft fields IH]; intros ms ms' md E Hmd Hnd; cbn [rpc.bindErrorFields] in E.
  - injection E as <-. exists md. split; [exact Hmd|]. split; [apply sameButErrors_refl|].
    split; [intros ft []|]. split; reflexivity.
  - destruct (negb _ || negb _); [discriminate|]. rewrite Hmd in E.
    destruct (negb (reflect.IsExported ft)); [discriminate|].
    cbn [map] in Hnd. apply NoDup_cons in Hnd as [Hnot Hnd].
    destruct (IH _ _ (rpc.setError (reflect.Name ft) (reflect.Get (reflect.Tag ft) "desc") md)
                E ltac:(apply lookup_insert_eq) Hnd) as (md' & Hl & Hsame & Hin & Hout & Hoth).
    exists md'. split; [exact Hl|].
    split; [eapply sameButErrors_trans; [apply sameButErrors_setError | exact Hsame]|].
    split; [|split].
    + intros ft' [<- | Hft']; [|apply Hin, Hft'].
      rewrite Hout.
      * cbn [rpc.setError rpc.Errors]. apply lookup_insert_eq.
      * intros Hc. apply Hnot, list_elem_of_In, Hc.
    + intros code Hcode. cbn [map In] in Hcode.
      rewrite Hout by tauto. cbn [rpc.setError rpc.Errors].
      apply lookup_insert_ne. tauto.
    + intros k Hk. rewrite (Hoth k Hk). apply lookup_insert_ne. congruence.
Qed.

Lemma bound_catalog_is_recorded_witness :
  exists ms' md',
    rpc.bindErrorFields hello.env "/hello/v1" (reflect.sFields hello.ErrorsV1)
      (<["/hello/v1" := rpc.mkMethodDesc "/hello/v1" hello.New
                          (reflect.TPtr (reflect.TStruct "hello.ReqV1"))
                          (reflect.TPtr (reflect.TStruct "hello.RespV1"))
                          (rpc.handlerFunc hello.V1) ∅ ∅]> ∅)
    = Done (None, ms')
    /\ ms' !! "/hello/v1" = Some md'
    /\ rpc.Errors md' !! "Error2" = Some "Error 2".
Proof.
  set (md0 := rpc.mkMethodDesc "/hello/v1" hello.New
                (reflect.TPtr (reflect.TStruct "hello.ReqV1"))
                (reflect.TPtr (reflect.TStruct "hello.RespV1"))
                (rpc.handlerFunc hello.V1) ∅ ∅).
  assert (H : match rpc.bindErrorFields hello.env "/hello/v1" (reflect.sFields hello.ErrorsV1)
                      (<["/hello/v1" := md0]> ∅) with
              | Done (None, _) => true
              | _ => false
              end = true) by (vm_compute; reflexivity).
  destruct (rpc.bindErrorFields hello.env "/hello/v1" (reflect.sFields hello.ErrorsV1)
              (<["/hello/v1" := md0]> ∅)) as [[[e|] ms1]| |] eqn:E; try discriminate H.
  destruct (bound_catalog_is_recorded hello.env "/hello/v1" (reflect.sFields hello.ErrorsV1)
              (<["/hello/v1" := md0]> ∅) ms1 md0 E ltac:(apply lookup_insert_eq)
              ltac:(apply (bool_decide_unpack _); vm_compute; exact I))
    as (md' & Hl & _ & Hin & _).
  exists ms1, md'. split; [reflexivity|]. split; [exact Hl|].
  apply (Hin (reflect.mkField "Error2" hello.tErrorFunc [("desc", "Error 2")])).
  right. left. reflexivity.
Defined.

(** *** Registration *)

Lemma bindErrorFields_others env path fields : forall (ms ms' : gmap string rpc.MethodDesc) err,
  rpc.bindErrorFields env path fields ms = Done (err, ms') ->
  forall k md, ms !! k = Some md -> exists md', ms' !! k = Some md' /\ sameButErrors md md'.
Proof.
  induction fields as [|ft fields IH]; intros ms ms' err E k md Hk; cbn [rpc.bindErrorFields] in E.
  - injection E as <- <-. exists md. split; [exact Hk | apply sameButErrors_refl].
  - destruct (negb _ || negb _).
    { injection E as <- <-. exists md. split; [exact Hk | apply sameButErrors_refl]. }
    destruct (ms !! path) as [mdp|] eqn:Hp; [|discriminate].
    destruct (negb (reflect.IsExported ft)); [discriminate|].
    destruct (decide (k = path)) as [->|Hne].
    + rewrite Hp in Hk. injection Hk as ->.
      destruct (IH _ _ _ E path _ ltac:(apply lookup_insert_eq)) as (md' & Hl & Hs).
      exists md'. split; [exact Hl|].
      eapply sameButErrors_trans; [apply sameButErrors_setError | exact Hs].
    + apply (IH _ _ _ E k md). rewrite lookup_insert_ne by congruence. exact Hk.
Qed.

Lemma bindErrorsOf_others env path gs : forall (ms ms' : gmap string rpc.MethodDesc) err,
  rpc.bindErrorsOf env path gs ms = Done (err, ms') ->
  forall k md, ms !! k = Some md -> exists md', ms' !! k = Some md' /\ sameButErrors md md'.
Proof.
  induction gs as [|g gs IH]; intros ms ms' err E k md Hk; cbn [rpc.bindErrorsOf] in E.
  - injection E as <- <-. exists md. split; [exact Hk | apply sameButErrors_refl].
  - destruct (rpc.errorsVersion (reflect.mName g)) as [version|]; [|apply (IH _ _ _ E k md Hk)].
    destruct (rpc.accessorResult g) as [errorsVar| |]; cbn [mbind outcome_bind obind] in E;
      try discriminate.
    assert (Hstop : Done (Some "errors variable must be a pointer to a structure", ms)
                    = Done (err, ms') ->
                    exists md', ms' !! k = Some md' /\ sameButErrors md md').
    { intros E0. injection E0 as <- <-. exists md. split; [exact Hk | apply sameButErrors_refl]. }
    destruct errorsVar as [[b|[b|e|e|e|k0 e|e|p n|p n|id]|e|e|k0 e|e|p n|p n|id]|];
      try (apply Hstop, E).
    destruct (rpc.bindErrorFields env _ _ ms) as [[err1 ms1]| |] eqn:E1;
      cbn [mbind outcome_bind obind] in E; try discriminate.
    destruct (bindErrorFields_others _ _ _ _ _ _ E1 k md Hk) as (md1 & Hk1 & Hs1).
    destruct err1 as [e1|].
    + injection E as <- <-. eauto.
    + destruct (IH _ _ _ E k md1 Hk1) as (md' & Hl & Hs).
      exists md'. split; [exact Hl | eapply sameButErrors_trans; eassumption].
Qed.

Lemma bindErrors_others env m trimPrefix (ms ms' : gmap string rpc.MethodDesc) err :
  rpc.bindErrors env m trimPrefix ms = Done (err, ms') ->
  forall k md, ms !! k = Some md -> exists md', ms' !! k = Some md' /\ sameButErrors md md'.
Proof.
  unfold rpc.bindErrors. destruct (rpc.getMethodPath env m trimPrefix).
  - apply bindErrorsOf_others.
  - intros E k md Hk. injection E as <- <-. exists md. split; [exact Hk | apply sameButErrors_refl].
Qed.

Lemma registerDescs_app mds1 mds2 (ms : gmap string rpc.MethodDesc) :
  rpc.registerDescs (mds1 ++ mds2) ms = rpc.registerDescs mds2 (rpc.registerDescs mds1 ms).
Proof. unfold rpc.registerDescs. apply fold_left_app. Qed.

Lemma registerDescs_keeps mds : forall (ms : gmap string rpc.MethodDesc) k md,
  ms !! k = Some md -> ~ In k (map rpc.Path mds) -> rpc.registerDescs mds ms !! k = Some md.
Proof.
  unfold rpc.registerDescs.
  induction mds as [|x mds IH]; intros ms k md Hk Hn; cbn [fold_left]; [exact Hk|].
  apply IH.
  - rewrite lookup_insert_ne; [exact Hk|]. intros E. apply Hn. left. exact E.
  - intros Hin. apply Hn. right. exact Hin.
Qed.

Lemma registerDescs_registers mds : forall (ms : gmap string rpc.MethodDesc) md,
  In md mds ->
  exists md', rpc.registerDescs mds ms !! rpc.Path md = Some md' /\ rpc.Path md' = rpc.Path md.
Proof.
  induction mds as [|x mds IH] using rev_ind; intros ms md Hin; [destruct Hin|].
  rewrite registerDescs_app. unfold rpc.registerDescs at 1. cbn [fold_left].
  destruct (decide (rpc.Path x = rpc.Path md)) as [Heq|Hne].
  - exists x. split; [rewrite <- Heq; apply lookup_insert_eq | exact Heq].
  - rewrite lookup_insert_ne by exact Hne. apply IH.
    apply in_app_or in Hin as [Hin | [-> | []]]; [exact Hin | congruence].
Qed.

Lemma registerDescs_distinct mds : forall (ms : gmap string rpc.MethodDesc) md,
  NoDup (map rpc.Path mds) -> In md mds ->
  rpc.registerDescs mds ms !! rpc.Path md = Some md.
Proof.
  induction mds as [|x mds IH]; intros ms md Hnd Hin; [destruct Hin|].
  cbn [map] in Hnd. apply NoDup_cons in Hnd as [Hnot Hnd].
  change (rpc.registerDescs (x :: mds) ms)
    with (rpc.registerDescs mds (<[rpc.Path x := x]> ms)).
  destruct Hin as [-> | Hin].
  - apply registerDescs_keeps; [apply lookup_insert_eq|].
    intros Hc. apply Hnot, list_elem_of_In, Hc.
  - apply IH; assumption.
Qed.

(** X19: registration is not all-or-nothing: when the descriptors of a service
    were derived and its error catalog is then rejected, [RegisterMethod]
    returns the error, and the descriptors are in the registry all the
    same. *)
Theorem rejected_catalog_leaves_the_methods_registered `{rpc.Regexp} env fuel r m mds e r' :
  rpc.descsFromMethod env fuel m (rpc.trimPrefix r) = Done (Ok mds) ->
  rpc.RegisterMethod env fuel r m = Done (Some e, r') ->
  forall md, In md mds ->
  exists md', rpc.methods r' !! rpc.Path md = Some md' /\ rpc.Path md' = rpc.Path md.
Proof.
  intros Hd E md Hin. unfold rpc.RegisterMethod in E. rewrite Hd in E.
  cbn [mbind outcome_bind obind rpc.trimPrefix rpc.methods rpc.maxMemory] in E.
  destruct (rpc.bindErrors _ _ _ _) as [[err ms]| |] eqn:Eb;
    cbn [mbind outcome_bind obind] in E; try discriminate.
  destruct (registerDescs_registers mds (rpc.methods r) md Hin) as (md1 & Hl1 & Hp1).
  destruct (bindErrors_others _ _ _ _ _ _ Eb _ _ Hl1) as (md' & Hl & Hs).
  assert (Hp : rpc.Path md' = rpc.Path md) by (destruct Hs as [Hs _]; congruence).
  destruct err as [e1|].
  - injection E as _ <-. exists md'. auto.
  - destruct (rpc.GetSwagger env fuel _); cbn [mbind outcome_bind obind] in E; discriminate.
Qed.

Lemma rejected_catalog_leaves_the_methods_registered_witness :
  exists e r' md',
    @rpc.RegisterMethod onePattern mixed.env 5 mixed.testRpc mixed.New = Done (Some e, r')
    /\ rpc.methods r' !! "/mixed/v1" = Some md'
    /\ rpc.Path md' = "/mixed/v1".
Proof.
  assert (Hd : match @rpc.descsFromMethod onePattern mixed.env 5 mixed.New
                       (rpc.trimPrefix mixed.testRpc) with
               | Done (Ok (md :: _)) => String.eqb (rpc.Path md) "/mixed/v1"
               | _ => false
               end = true) by (vm_compute; reflexivity).
  assert (Hr : match @rpc.RegisterMethod onePattern mixed.env 5 mixed.testRpc mixed.New with
               | Done (Some _, _) => true
               | _ => false
               end = true) by (vm_compute; reflexivity).
  destruct (@rpc.descsFromMethod onePattern mixed.env 5 mixed.New
              (rpc.trimPrefix mixed.testRpc)) as [[[|md mds]|e0]| |] eqn:Ed;
    try discriminate Hd.
  apply String.eqb_eq in Hd.
  destruct (@rpc.RegisterMethod onePattern mixed.env 5 mixed.testRpc mixed.New)
    as [[[e|] r']| |] eqn:Er; try discriminate Hr.
  destruct (@rejected_catalog_leaves_the_methods_registered onePattern mixed.env 5
              mixed.testRpc mixed.New (md :: mds) e r' Ed Er md (or_introl eq_refl))
    as (md' & Hl & Hp').
  rewrite Hd in Hl, Hp'.
  exists e, r', md'. split; [reflexivity|]. split; [exact Hl | exact Hp'].
Defined.

Lemma drop_app_length x : forall y, strings.drop (String.length x) (x ++ y) = y.
Proof. induction x as [|c x IH]; intros y; [reflexivity|]. rewrite append_cons. apply IH. Qed.

Lemma take_app_length x : forall y, strings.take (String.length x) (x ++ y) = x.
Proof.
  induction x as [|c x IH]; intros y; [destruct y; reflexivity|].
  rewrite append_cons. cbn [String.length strings.take]. rewrite IH. reflexivity.
Qed.

(** One final slash is taken off. *)
Lemma TrimSuffix_slash_appended p : strings.TrimSuffix (p ++ "/") "/" = p.
Proof.
  unfold strings.TrimSuffix, strings.HasSuffix. rewrite length_append_string.
  cbn [String.length]. replace (String.length p + 1 - 1)%nat with (String.length p) by lia.
  rewrite drop_app_length, take_app_length.
  replace (1 <=? String.length p + 1)%nat with true by (symmetry; apply Nat.leb_le; lia).
  reflexivity.
Qed.

Lemma TrimSuffix_other_end x c :
  Ascii.eqb c "/" = false -> strings.TrimSuffix (x ++ String c "") "/" = x ++ String c "".
Proof.
  intros Hc. unfold strings.TrimSuffix, strings.HasSuffix. rewrite length_append_string.
  cbn [String.length]. replace (String.length x + 1 - 1)%nat with (String.length x) by lia.
  rewrite drop_app_length. cbn [String.eqb]. rewrite Hc. rewrite Bool.andb_false_r. reflexivity.
Qed.

Lemma digits_last ds :
  ds <> "" -> digits ds = true ->
  exists ds' c, ds = ds' ++ String c "" /\ strings.isDigit c = true.
Proof.
  induction ds as [|a s IH]; [congruence|]. intros _ Hd. cbn [digits] in Hd.
  apply andb_true_iff in Hd as [Ha Hs].
  destruct s as [|b s].
  - exists "", a. split; [reflexivity | exact Ha].
  - destruct (IH ltac:(discriminate) Hs) as (ds' & c & Heq & Hc).
    exists (String a ds'), c. rewrite append_cons, <- Heq. split; [reflexivity | exact Hc].
Qed.

Lemma isDigit_not_slash c : strings.isDigit c = true -> Ascii.eqb c "/" = false.
Proof. destruct c as [[] [] [] [] [] [] [] []]; intros E; (reflexivity || discriminate E). Qed.

(** The path of a descriptor does not end in a slash. *)
Lemma descPath_TrimSuffix path g :
  rpc.isVersionMethod (reflect.mName g) = true ->
  strings.TrimSuffix (descPath path g) "/" = descPath path g.
Proof.
  intros Hv. destruct (isVersionMethod_name _ Hv) as (ds0 & _ & Hlow).
  apply isVersionMethod_iff in Hv as (ds & Hname & Hne & Hd).
  unfold descPath. rewrite Hname. cbn [strings.ToLower].
  destruct (digits_last ds Hne Hd) as (ds' & c & Heq & Hc).
  assert (Hl : strings.ToLower ds = strings.ToLower ds' ++ String c "").
  { rewrite Heq, ToLower_app. cbn [strings.ToLower]. rewrite (isDigit_lowerByte _ Hc). reflexivity. }
  rewrite Hl.
  replace (path ++ "/" ++ String (strings.lowerByte "V") (strings.ToLower ds' ++ String c ""))
    with ((path ++ "/" ++ String (strings.lowerByte "V") (strings.ToLower ds')) ++ String c "").
  - apply TrimSuffix_other_end, isDigit_not_slash, Hc.
  - rewrite !append_assoc_string. rewrite append_cons. reflexivity.
Qed.

Lemma descPaths_distinct path gs :
  NoDup (map reflect.mName gs) ->
  NoDup (map (descPath path)
           (List.filter (fun g => rpc.isVersionMethod (reflect.mName g)) gs)).
Proof.
  induction gs as [|g gs IH]; cbn [map List.filter]; [intros _; constructor|].
  intros Hnd. apply NoDup_cons in Hnd as [Hnot Hnd].
  destruct (rpc.isVersionMethod (reflect.mName g)) eqn:Hv; [|apply IH, Hnd].
  cbn [map]. apply NoDup_cons. split; [|apply IH, Hnd].
  intros Hin. apply Hnot. apply list_elem_of_In in Hin. apply in_map_iff in Hin as (g' & Heq & Hg').
  apply filter_In in Hg' as [Hg' Hv'].
  unfold descPath in Heq. apply append_cancel in Heq. apply append_cancel in Heq.
  destruct (isVersionMethod_name _ Hv) as (ds & Hn & Hl).
  destruct (isVersionMethod_name _ Hv') as (ds' & Hn' & Hl').
  rewrite Hl, Hl' in Heq. injection Heq as Heq.
  apply list_elem_of_In, in_map_iff. exists g'. split; [congruence | exact Hg'].
Qed.

(** X20: after a successful registration every descriptor of the service is
    found again under its path, with or without one final slash, and is as
    it was derived but for the error catalog bound to it. *)
Theorem registered_methods_are_found `{rpc.Regexp} env fuel r m mds r' :
  rpc.descsFromMethod env fuel m (rpc.trimPrefix r) = Done (Ok mds) ->
  rpc.RegisterMethod env fuel r m = Done (None, r') ->
  NoDup (map reflect.mName (rpc.svcMethods m)) ->
  forall md, In md mds ->
  exists md',
    rpc.GetMethod r' (rpc.Path md) = Some md'
    /\ rpc.GetMethod r' (rpc.Path md ++ "/") = Some md'
    /\ sameButErrors md md'.
Proof.
  intros Hd E Hnd md Hin.
  destruct (descsFromMethod_paths _ _ _ _ _ Hd) as [_ Hpaths].
  assert (Hdistinct : NoDup (map rpc.Path mds)).
  { rewrite Hpaths. apply descPaths_distinct, Hnd. }
  assert (Htrim : strings.TrimSuffix (rpc.Path md) "/" = rpc.Path md).
  { assert (Hp : In (rpc.Path md) (map rpc.Path mds)) by (apply in_map, Hin).
    rewrite Hpaths in Hp. apply in_map_iff in Hp as (g & <- & Hg).
    apply filter_In in Hg as [_ Hv]. apply descPath_TrimSuffix, Hv. }
  unfold rpc.RegisterMethod in E. rewrite Hd in E.
  cbn [mbind outcome_bind obind rpc.trimPrefix rpc.methods rpc.maxMemory] in E.
  destruct (rpc.bindErrors _ _ _ _) as [[err ms]| |] eqn:Eb;
    cbn [mbind outcome_bind obind] in E; try discriminate.
  destruct err as [e1|]; [discriminate|].
  destruct (rpc.GetSwagger env fuel _); cbn [mbind outcome_bind obind] in E; try discriminate.
  injection E as <-.
  pose proof (registerDescs_distinct mds (rpc.methods r) md Hdistinct Hin) as Hl1.
  destruct (bindErrors_others _ _ _ _ _ _ Eb _ _ Hl1) as (md' & Hl & Hs).
  exists md'. unfold rpc.GetMethod. cbn [rpc.methods].
  rewrite Htrim, TrimSuffix_slash_appended. auto.
Qed.

Lemma registered_methods_are_found_witness :
  exists r' md',
    @rpc.RegisterMethod onePattern hello.env 6 hello.testRpc hello.New = Done (None, r')
    /\ rpc.GetMethod r' "/hello/v1" = Some md'
    /\ rpc.GetMethod r' ("/hello/v1" ++ "/") = Some md'.
Proof.
  assert (Hd : match @rpc.descsFromMethod onePattern hello.env 6 hello.New
                       (rpc.trimPrefix hello.testRpc) with
               | Done (Ok (md :: _)) => String.eqb (rpc.Path md) "/hello/v1"
               | _ => false
               end = true) by (vm_compute; reflexivity).
  assert (Hr : match @rpc.RegisterMethod onePattern hello.env 6 hello.testRpc hello.New with
               | Done (None, _) => true
               | _ => false
               end = true) by (vm_compute; reflexivity).
  destruct (@rpc.descsFromMethod onePattern hello.env 6 hello.New
              (rpc.trimPrefix hello.testRpc)) as [[[|md mds]|e0]| |] eqn:Ed;
    try discriminate Hd.
  apply String.eqb_eq in Hd.
  destruct (@rpc.RegisterMethod onePattern hello.env 6 hello.testRpc hello.New)
    as [[[e|] r']| |] eqn:Er; try discriminate Hr.
  destruct (@registered_methods_are_found onePattern hello.env 6 hello.testRpc hello.New
              (md :: mds) r' Ed Er
              ltac:(apply (bool_decide_unpack _); vm_compute; exact I) md (or_introl eq_refl))
    as (md' & H1 & H2 & _).
  rewrite Hd in H1, H2.
  exists r', md'. split; [reflexivity|]. split; [exact H1 | exact H2].
Defined.

(** *** The list of paths *)

Lemma In_insertString s l p : In p (rpc.insertString s l) <-> p = s \/ In p l.
Proof.
  induction l as [|x l IH]; cbn [rpc.insertString].
  - cbn [In]. intuition congruence.
  - destruct (String.ltb s x); cbn [In]; [intuition congruence|].
    rewrite IH. intuition congruence.
Qed.

Lemma In_sortStrings l p : In p (rpc.sortStrings l) <-> In p l.
Proof.
  induction l as [|x l IH]; [reflexivity|].
  cbn [rpc.sortStrings fold_right]. fold (rpc.sortStrings l).
  rewrite In_insertString, IH. cbn [In]. intuition congruence.
Qed.

Lemma ltb_other s x : String.ltb s x = false -> s <> x -> String.ltb x s = true.
Proof.
  unfold String.ltb. rewrite (String.compare_antisym x s).
  destruct (String.compare s x) eqn:E; cbn [CompOpp]; try reflexivity; try discriminate.
  intros _ Hne. apply String.compare_eq_iff in E. congruence.
Qed.

Lemma ascending_cons x l :
  ascending l = true -> (forall y, hd_error l = Some y -> String.ltb x y = true) ->
  ascending (x :: l) = true.
Proof.
  intros Hl Hx. destruct l as [|y l]; [reflexivity|].
  cbn [ascending] in *. rewrite (Hx y eq_refl). exact Hl.
Qed.

Lemma ascending_tail x l : ascending (x :: l) = true -> ascending l = true.
Proof.
  destruct l as [|y l]; [reflexivity|]. cbn [ascending]. intros E.
  apply andb_true_iff in E as [_ E]. exact E.
Qed.

Lemma ascending_insertString s l :
  ascending l = true -> ~ In s l -> ascending (rpc.insertString s l) = true.
Proof.
  induction l as [|x l IH]; intros Hl Hs; [reflexivity|]. cbn [rpc.insertString].
  destruct (String.ltb s x) eqn:E.
  - apply ascending_cons; [exact Hl|]. intros y Hy. injection Hy as <-. exact E.
  - assert (Hx : String.ltb x s = true).
    { apply ltb_other; [exact E|]. intros ->. apply Hs. left. reflexivity. }
    apply ascending_cons.
    + apply IH; [eapply ascending_tail, Hl|]. intros Hin. apply Hs. right. exact Hin.
    + intros y Hy. destruct l as [|z l]; cbn [rpc.insertString hd_error] in Hy.
      * injection Hy as <-. exact Hx.
      * destruct (String.ltb s z); cbn [hd_error] in Hy; injection Hy as <-; [exact Hx|].
        cbn [ascending] in Hl. apply andb_true_iff in Hl as [Hl _]. exact Hl.
Qed.

Lemma ascending_sortStrings l : NoDup l -> ascending (rpc.sortStrings l) = true.
Proof.
  induction l as [|x l IH]; intros Hnd; [reflexivity|].
  apply NoDup_cons in Hnd as [Hnot Hnd].
  cbn [rpc.sortStrings fold_right]. fold (rpc.sortStrings l).
  apply ascending_insertString; [apply IH, Hnd|].
  rewrite In_sortStrings. intros Hin. apply Hnot, list_elem_of_In, Hin.
Qed.

(** X21: [GetPaths] lists exactly the paths under which a descriptor is
    registered, each once, in strictly ascending byte-wise order. *)
Theorem GetPaths_lists_the_registered_paths_in_order (r : rpc.Rpc) :
  ascending (rpc.GetPaths r) = true
  /\ forall path, In path (rpc.GetPaths r) <-> is_Some (rpc.methods r !! path).
Proof.
  unfold rpc.GetPaths. split.
  - apply ascending_sortStrings. apply (NoDup_fst_map_to_list (rpc.methods r)).
  - intros path. rewrite In_sortStrings, in_map_iff. split.
    + intros ([k md] & <- & Hin). apply list_elem_of_In, elem_of_map_to_list in Hin.
      cbn [fst]. eauto.
    + intros [md Hmd]. exists (path, md). split; [reflexivity|].
      apply list_elem_of_In, elem_of_map_to_list. exact Hmd.
Qed.


(** ** Further properties: padding for compressed responses *)

Lemma characters_are_alphanumeric (k : nat) :
  (k < 62)%nat ->
  exists c, strings.at_ htb.characters (Z.of_nat k) = Some c
            /\ strings.isLetter c || strings.isDigit c = true.
Proof.
  intros Hk.
  assert (Hall : forallb (fun k =>
              match strings.at_ htb.characters (Z.of_nat k) with
              | Some c => strings.isLetter c || strings.isDigit c
              | None => false
              end) (seq 0 62) = true) by (vm_compute; reflexivity).
  rewrite forallb_forall in Hall. specialize (Hall k ltac:(apply in_seq; lia)).
  destruct (strings.at_ htb.characters (Z.of_nat k)) as [c|]; [eauto | discriminate].
Qed.

Lemma fill_alphanumeric (rand : htb.Rand) n : forall i,
  (forall j, (i <= j < i + n)%nat -> exists k, rand j = Ok k /\ 0 <= k < htb.length) ->
  exists s, htb.fill rand i n = Done s
            /\ String.length s = n /\ alphanumeric s = true.
Proof.
  induction n as [|n IH]; intros i Hr; cbn [htb.fill].
  - exists "". auto.
  - destruct (Hr i ltac:(lia)) as (k & -> & Hk).
    change htb.length with 62 in Hk.
    destruct (characters_are_alphanumeric (Z.to_nat k) ltac:(lia)) as (c & Hc & Ha).
    rewrite Z2Nat.id in Hc by lia. rewrite Hc.
    destruct (IH (S i) ltac:(intros j Hj; apply Hr; lia)) as (s & -> & Hl & Hs).
    cbn [mbind outcome_bind obind]. exists (String c s).
    split; [reflexivity|]. cbn [String.length alphanumeric]. rewrite Hl, Ha, Hs. auto.
Qed.

Lemma fill_panics (rand : htb.Rand) e n : forall i j,
  (i <= j < i + n)%nat ->
  rand j = Err e ->
  (forall j', (i <= j' < j)%nat -> exists k, rand j' = Ok k /\ 0 <= k < htb.length) ->
  htb.fill rand i n = Panic e.
Proof.
  induction n as [|n IH]; intros i j Hj He Hr; [lia|]. cbn [htb.fill].
  destruct (decide (j = i)) as [->|Hne]; [rewrite He; reflexivity|].
  destruct (Hr i ltac:(lia)) as (k & -> & Hk).
  change htb.length with 62 in Hk.
  destruct (characters_are_alphanumeric (Z.to_nat k) ltac:(lia)) as (c & Hc & _).
  rewrite Z2Nat.id in Hc by lia. rewrite Hc.
  rewrite (IH (S i) j ltac:(lia) He ltac:(intros j' Hj'; apply Hr; lia)). reflexivity.
Qed.

(** X22: [RandomString]: when each of its 32 draws answers with a number below
    the length of the alphabet, the result is 32 bytes long and made of
    letters and digits; when a draw fails, it panics with the error of the
    first draw that failed. *)
Theorem RandomString_is_32_letters_and_digits_or_panics (rand : htb.Rand) :
  ((forall j, (j < 32)%nat -> exists k, rand j = Ok k /\ 0 <= k < htb.length) ->
   exists s, htb.RandomString rand = Done s
             /\ String.length s = 32%nat /\ alphanumeric s = true)
  /\ (forall j e, (j < 32)%nat -> rand j = Err e ->
      (forall j', (j' < j)%nat -> exists k, rand j' = Ok k /\ 0 <= k < htb.length) ->
      htb.RandomString rand = Panic e).
Proof.
  unfold htb.RandomString, htb.paddingSize. split.
  - intros Hr. apply fill_alphanumeric. intros j Hj. apply Hr. lia.
  - intros j e Hj He Hr. apply (fill_panics rand e 32 0%nat j); [lia | exact He|].
    intros j' Hj'. apply Hr. lia.
Qed.

Lemma RandomString_is_32_letters_and_digits_or_panics_witness :
  (exists s, htb.RandomString countingRand = Done s
             /\ String.length s = 32%nat /\ alphanumeric s = true)
  /\ htb.RandomString (fun j => if (j =? 3)%nat then Err "entropy source failed"
                                else countingRand j)
     = Panic "entropy source failed".
Proof.
  split.
  - apply (proj1 (RandomString_is_32_letters_and_digits_or_panics countingRand)).
    intros j Hj. exists (Z.of_nat j). split; [reflexivity|]. change htb.length with 62. lia.
  - apply (proj2 (RandomString_is_32_letters_and_digits_or_panics _) 3%nat);
      [lia | reflexivity|].
    intros j' Hj'. exists (Z.of_nat j'). split.
    + destruct (Nat.eqb_spec j' 3); [lia | reflexivity].
    + change htb.length with 62. lia.
Defined.

(** ** Further properties: the HTTP handler *)

(** *** The boundary of a multipart request *)

Lemma afterLast_app sep mid : forall rest r,
  rpc.afterLast sep rest = Some r -> rpc.afterLast sep (mid ++ rest) = Some r.
Proof.
  induction mid as [|c mid IH]; intros rest r E; [exact E|].
  rewrite append_cons. cbn [rpc.afterLast]. rewrite (IH _ _ E). reflexivity.
Qed.

Lemma afterLast_boundary b :
  rpc.afterLast "boundary=" b = None ->
  rpc.afterLast "boundary=" ("boundary=" ++ b) = Some b.
Proof.
  intros Hb.
  change ("boundary=" ++ b)
    with (String "b" (String "o" (String "u" (String "n" (String "d" (String "a"
            (String "r" (String "y" (String "=" b))))))))).
  cbn [rpc.afterLast]. rewrite Hb. reflexivity.
Qed.

Lemma afterLast_boundary_any y :
  exists r, rpc.afterLast "boundary=" ("boundary=" ++ y) = Some r.
Proof.
  change ("boundary=" ++ y)
    with (String "b" (String "o" (String "u" (String "n" (String "d" (String "a"
            (String "r" (String "y" (String "=" y))))))))).
  cbn [rpc.afterLast]. destruct (rpc.afterLast "boundary=" y); eauto.
Qed.

Lemma line_oneLine s : oneLine s -> rpc.line s = s.
Proof.
  unfold oneLine. induction s as [|c s IH]; [reflexivity|]. cbn [hasByte rpc.line].
  intros H. apply Bool.orb_false_iff in H as [Hc Hs]. rewrite Hc, (IH Hs). reflexivity.
Qed.

Lemma boundarySubmatch_none s : hasByte ";" s = false -> rpc.boundarySubmatch s = None.
Proof.
  induction s as [|c s IH]; [reflexivity|]. cbn [hasByte rpc.boundarySubmatch].
  intros H. apply Bool.orb_false_iff in H as [Hc Hs]. rewrite Hc. apply IH, Hs.
Qed.

Lemma boundarySubmatch_skip pre : forall s,
  hasByte ";" pre = false -> rpc.boundarySubmatch (pre ++ s) = rpc.boundarySubmatch s.
Proof.
  induction pre as [|c pre IH]; intros s H; [reflexivity|]. cbn [hasByte] in H.
  apply Bool.orb_false_iff in H as [Hc Hs].
  rewrite append_cons. cbn [rpc.boundarySubmatch]. rewrite Hc. apply IH, Hs.
Qed.

Lemma afterLast_absent sep s : ~ occursIn sep s -> rpc.afterLast sep s = None.
Proof.
  induction s as [|c s IH]; intros Hn; [reflexivity|]. cbn [rpc.afterLast].
  rewrite IH.
  - destruct (strings.HasPrefix (String c s) sep) eqn:E; [|reflexivity].
    exfalso. apply Hn. exists "", (strings.drop (String.length sep) (String c s)).
    rewrite append_nil. apply HasPrefix_split, E.
  - intros (x & y & ->). apply Hn. exists (String c x), y. rewrite append_cons. reflexivity.
Qed.

(** X23: the boundary [ServeHTTP] hands to [Call].  A Content-Type without a
    semicolon gives none, so the body is read as one JSON document.  In a
    Content-Type of one line whose first semicolon is followed by
    [boundary=], the boundary is everything after the last [boundary=], to
    the end of the header: quotes and further parameters included. *)
Theorem boundary_is_the_rest_of_the_header :
  (forall contentType,
     hasByte ";" contentType = false -> rpc.boundarySubmatch contentType = None)
  /\ (forall mediaType mid b,
        hasByte ";" mediaType = false ->
        oneLine (mid ++ "boundary=" ++ b) ->
        ~ occursIn "boundary=" b ->
        rpc.boundarySubmatch (mediaType ++ ";" ++ mid ++ "boundary=" ++ b) = Some b).
Proof.
  split; [apply boundarySubmatch_none|].
  intros mediaType mid b Hm Hl Hb.
  rewrite boundarySubmatch_skip by exact Hm.
  change (";" ++ mid ++ "boundary=" ++ b) with (String ";" (mid ++ "boundary=" ++ b)).
  cbn [rpc.boundarySubmatch]. change (Ascii.eqb ";" ";") with true. cbn match.
  rewrite (line_oneLine _ Hl).
  rewrite (afterLast_app _ _ _ _ (afterLast_boundary b (afterLast_absent _ _ Hb))). reflexivity.
Qed.

Lemma boundary_is_the_rest_of_the_header_witness :
  rpc.boundarySubmatch "application/json" = None
  /\ rpc.boundarySubmatch ("multipart/form-data" ++ ";" ++ " " ++ "boundary=" ++ "xyz; charset=utf-8")
     = Some "xyz; charset=utf-8".
Proof.
  split.
  - apply (proj1 boundary_is_the_rest_of_the_header). reflexivity.
  - apply (proj2 boundary_is_the_rest_of_the_header); [reflexivity | reflexivity |].
    intros (x & y & E).
    assert (Hnone : rpc.afterLast "boundary=" "xyz; charset=utf-8" = None) by reflexivity.
    rewrite E in Hnone. destruct (afterLast_boundary_any y) as [r Hr].
    rewrite (afterLast_app _ x _ _ Hr) in Hnone. discriminate Hnone.
Defined.


(** *** Requests that reach no method *)

Section Handler.

Context {re : rpc.Regexp} {json : rpc.Json} {enc : rpc.JsonEncoder} {gz : rpc.Gzip}.
Variable env : reflect.TypeEnv.

Lemma ServeHTTP_not_options r c rand request w :
  String.eqb (rpc.reqMethod request) "OPTIONS" = false ->
  rpc.ServeHTTP env r c rand request w
  = (let rw :=
       match c with
       | Some c =>
           rpc.setHeader "Access-Control-Max-Age" (rpc.maxAge c)
             (rpc.setHeader "Access-Control-Allow-Methods" (rpc.allowMethods c)
                (rpc.setHeader "Access-Control-Allow-Headers" (rpc.allowHeaders c)
                   (rpc.setHeader "Access-Control-Allow-Origin" (rpc.allowOrigin c)
                      rpc.newResponse)))
       | None => rpc.newResponse
       end in
     if negb (String.eqb (rpc.reqMethod request) "POST")
     then Done (rpc.httpError "Method Not Allowed" 405 rw, w, [])
     else
       match rpc.GetMethod r (rpc.reqPath request) with
       | None => Done (rpc.httpError "404 page not found" 404 rw, w, [])
       | Some method =>
           let rw := rpc.setHeader "Content-Type" "application/json; charset=utf-8" rw in
           let boundary := default "" (rpc.boundarySubmatch (rpc.reqContentType request)) in
           rpc.Call env method (rpc.reqBody request) boundary (rpc.maxMemory r) w ≫=
           (fun '(res, w') =>
              match res with
              | Err (rpc.rpcError rpcErr) =>
                  let rw := rpc.WriteHeader 400 rw in
                  match rpc.EncodeError rpcErr with
                  | Ok bytes => Done (rpc.write bytes rw, w', [])
                  | Err e => Done (rw, w', ["Cannot marshal error response: " ++ e])
                  end
              | Err err =>
                  Done (rpc.httpError "Internal Server Error" 500 rw, w',
                        ["Cannot call " ++ rpc.Path method ++ ": " ++ rpc.errorText err])
              | Ok resp =>
                  if header.CanGzipFast (rpc.reqAcceptEncoding request) then
                    let rw := rpc.setHeader "Content-Encoding" "gzip" rw in
                    htb.RandomString rand ≫= (fun name =>
                      match rpc.Encode resp with
                      | Ok bytes => Done (rpc.write (rpc.compress name bytes) rw, w', [])
                      | Err e =>
                          Done (rpc.write (rpc.compress name "") rw, w',
                                ["Cannot marshal response: " ++ e])
                      end)
                  else
                    match rpc.Encode resp with
                    | Ok bytes => Done (rpc.write bytes rw, w', [])
                    | Err e => Done (rw, w', ["Cannot marshal response: " ++ e])
                    end
              end)
       end).
Proof. intros E. unfold rpc.ServeHTTP. rewrite E. reflexivity. Qed.

(** X24: a request that is neither a POST nor an OPTIONS is answered 405, and a
    POST to a path without a descriptor 404, both with the text of the
    status as a plain-text body; no method is called and nothing is logged. *)
Theorem requests_to_no_method_are_refused r c rand request w :
  (rpc.reqMethod request <> "POST" -> rpc.reqMethod request <> "OPTIONS" ->
   exists rw,
     rpc.ServeHTTP env r c rand request w = Done (rw, w, [])
     /\ rpc.statusOf rw = 405
     /\ rpc.respBody rw = "Method Not Allowed" ++ rpc.newline
     /\ rpc.respHeader rw !! "Content-Type" = Some "text/plain; charset=utf-8")
  /\ (rpc.reqMethod request = "POST" -> rpc.GetMethod r (rpc.reqPath request) = None ->
      exists rw,
        rpc.ServeHTTP env r c rand request w = Done (rw, w, [])
        /\ rpc.statusOf rw = 404
        /\ rpc.respBody rw = "404 page not found" ++ rpc.newline
        /\ rpc.respHeader rw !! "Content-Type" = Some "text/plain; charset=utf-8").
Proof.
  split.
  - intros Hpost Hopt. apply String.eqb_neq in Hpost, Hopt.
    rewrite ServeHTTP_not_options by exact Hopt. cbn zeta. rewrite Hpost. cbn [negb].
    eexists. split; [reflexivity|]. destruct c as [cs|]; (split; [reflexivity|]);
      (split; [reflexivity|]); cbn; rewrite lookup_insert_ne by discriminate;
      apply lookup_insert_eq.
  - intros Hpost Hnone. rewrite ServeHTTP_not_options by (rewrite Hpost; reflexivity).
    cbn zeta. rewrite Hpost, Hnone. cbn [negb String.eqb].
    eexists. split; [reflexivity|]. destruct c as [cs|]; (split; [reflexivity|]);
      (split; [reflexivity|]); cbn; rewrite lookup_insert_ne by discriminate;
      apply lookup_insert_eq.
Qed.

(** *** Preflight requests *)

(** X25: an OPTIONS request.  Without CORS settings the handler dereferences the
    nil settings and panics.  With settings that allow an origin it answers
    204 with the four CORS headers and no body.  With settings whose allowed
    origin is empty it goes on and answers 405.  No method is called. *)
Theorem preflight_is_answered_by_the_CORS_settings r c rand request w :
  rpc.reqMethod request = "OPTIONS" ->
  match c with
  | None =>
      rpc.ServeHTTP env r c rand request w
      = Panic "invalid memory address or nil pointer dereference"
  | Some cs =>
      if String.eqb (rpc.allowOrigin cs) ""
      then exists rw,
             rpc.ServeHTTP env r c rand request w = Done (rw, w, [])
             /\ rpc.statusOf rw = 405
      else exists rw,
             rpc.ServeHTTP env r c rand request w = Done (rw, w, [])
             /\ rpc.statusOf rw = 204
             /\ rpc.respBody rw = ""
             /\ rpc.respHeader rw !! "Access-Control-Allow-Origin" = Some (rpc.allowOrigin cs)
             /\ rpc.respHeader rw !! "Access-Control-Allow-Headers" = Some (rpc.allowHeaders cs)
             /\ rpc.respHeader rw !! "Access-Control-Allow-Methods" = Some (rpc.allowMethods cs)
             /\ rpc.respHeader rw !! "Access-Control-Max-Age" = Some (rpc.maxAge cs)
  end.
Proof.
  intros Hopt. unfold rpc.ServeHTTP. rewrite Hopt. cbn [String.eqb Ascii.eqb Bool.eqb].
  destruct c as [cs|]; [|reflexivity].
  cbn [mbind outcome_bind obind].
  destruct (String.eqb (rpc.allowOrigin cs) ""); cbn [negb].
  - eexists. split; [reflexivity|]. reflexivity.
  - eexists. split; [reflexivity|]. split; [reflexivity|]. split; [reflexivity|].
    cbn [rpc.WriteHeader rpc.setHeader rpc.respHeader rpc.respStatus rpc.newResponse].
    repeat split;
      repeat (first [ apply lookup_insert_eq | rewrite lookup_insert_ne by discriminate ]).
Qed.

Lemma computedOpts_plain options : forall o,
  Forall plainOption options ->
  rpc.optCors (fold_left (fun o f => f o) options o) = rpc.optCors o.
Proof.
  induction options as [|f options IH]; intros o Hall; [reflexivity|].
  apply Forall_cons in Hall as [Hf Hall]. cbn [fold_left]. rewrite (IH _ Hall).
  destruct Hf as [[a ->] | [n ->]]; reflexivity.
Qed.

(** X26: [WithCors] configures nothing: a registry made with [WithCors] and
    [WithMaxMemory] options alone has no CORS settings, so it sends no CORS
    header, and an OPTIONS request makes its handler panic. *)
Theorem WithCors_leaves_the_registry_without_CORS trimPrefix options rand request w :
  Forall plainOption options ->
  rpc.reqMethod request = "OPTIONS" ->
  (rpc.NewWithOptions trimPrefix options).2 = None
  /\ rpc.ServeHTTP env (rpc.NewWithOptions trimPrefix options).1
       (rpc.NewWithOptions trimPrefix options).2 rand request w
     = Panic "invalid memory address or nil pointer dereference".
Proof.
  intros Hall Hopt.
  assert (Hc : (rpc.NewWithOptions trimPrefix options).2 = None).
  { unfold rpc.NewWithOptions, rpc.computedOpts. cbn [snd].
    rewrite computedOpts_plain by exact Hall. reflexivity. }
  split; [exact Hc|]. rewrite Hc.
  unfold rpc.ServeHTTP. rewrite Hopt. reflexivity.
Qed.

(** *** Calls that fail *)

(** X27: a POST to a registered path whose call returns an error.  An error of
    the service (an [*Error]) is answered 400 with the encoded error as JSON;
    any other error is answered 500 with the plain text of the status, and
    its own text goes to the log only.  Neither answer is compressed,
    whatever the request accepts. *)
Theorem failed_calls_are_answered_400_or_500 r c rand request w method err w' :
  rpc.reqMethod request = "POST" ->
  rpc.GetMethod r (rpc.reqPath request) = Some method ->
  rpc.Call env method (rpc.reqBody request)
    (default "" (rpc.boundarySubmatch (rpc.reqContentType request))) (rpc.maxMemory r) w
  = Done (Err err, w') ->
  exists rw log,
    rpc.ServeHTTP env r c rand request w = Done (rw, w', log)
    /\ rpc.respHeader rw !! "Content-Encoding" = None
    /\ match err with
       | rpc.rpcError rpcErr =>
           rpc.statusOf rw = 400
           /\ rpc.respHeader rw !! "Content-Type" = Some "application/json; charset=utf-8"
           /\ forall bytes, rpc.EncodeError rpcErr = Ok bytes ->
                            rpc.respBody rw = bytes /\ log = []
       | _ =>
           rpc.statusOf rw = 500
           /\ rpc.respHeader rw !! "Content-Type" = Some "text/plain; charset=utf-8"
           /\ rpc.respBody rw = "Internal Server Error" ++ rpc.newline
           /\ log = ["Cannot call " ++ rpc.Path method ++ ": " ++ rpc.errorText err]
       end.
Proof.
  intros Hpost Hm Hcall. rewrite ServeHTTP_not_options by (rewrite Hpost; reflexivity).
  cbn zeta. rewrite Hpost, Hm. cbn [negb String.eqb Ascii.eqb Bool.eqb].
  rewrite Hcall. cbn [mbind outcome_bind obind].
  assert (Hh : forall k v (h : gmap string string) st b,
             rpc.respHeader (rpc.setHeader k v (rpc.mkResponse h st b)) = <[k := v]> h)
    by reflexivity.
  destruct err as [|rpcErr|msg].
  - eexists _, _. split; [reflexivity|].
    destruct c as [cs|]; cbn;
      repeat split;
      repeat (first [ apply lookup_insert_eq | apply lookup_empty
                    | rewrite lookup_insert_ne by discriminate ]).
  - destruct (rpc.EncodeError rpcErr) as [bytes|e] eqn:Ee.
    + eexists _, _. split; [reflexivity|].
      destruct c as [cs|]; cbn;
        (split; [repeat (first [ apply lookup_empty
                               | rewrite lookup_insert_ne by discriminate ])|]);
        (split; [reflexivity|]);
        (split; [repeat (first [ apply lookup_insert_eq
                               | rewrite lookup_insert_ne by discriminate ])|]);
        intros bytes0 E0; injection E0 as <-; auto.
    + eexists _, _. split; [reflexivity|].
      destruct c as [cs|]; cbn;
        (split; [repeat (first [ apply lookup_empty
                               | rewrite lookup_insert_ne by discriminate ])|]);
        (split; [reflexivity|]);
        (split; [repeat (first [ apply lookup_insert_eq
                               | rewrite lookup_insert_ne by discriminate ])|]);
        intros bytes0 E0; discriminate E0.
  - eexists _, _. split; [reflexivity|].
    destruct c as [cs|]; cbn;
      repeat split;
      repeat (first [ apply lookup_insert_eq | apply lookup_empty
                    | rewrite lookup_insert_ne by discriminate ]).
Qed.

(** *** Calls that succeed *)

(** X28: a POST to a registered path whose call returns a response that
    encodes.  When [CanGzipFast] rejects the Accept-Encoding header the
    answer is 200 with the encoded response as it is.  When it accepts, and
    the padding could be drawn, the answer is 200 with the header
    Content-Encoding: gzip and the compressed response, the padding being
    the name in the gzip header. *)
Theorem successful_calls_are_compressed_when_CanGzipFast_accepts
    r c rand request w method resp w' bytes :
  rpc.reqMethod request = "POST" ->
  rpc.GetMethod r (rpc.reqPath request) = Some method ->
  rpc.Call env method (rpc.reqBody request)
    (default "" (rpc.boundarySubmatch (rpc.reqContentType request))) (rpc.maxMemory r) w
  = Done (Ok resp, w') ->
  rpc.Encode resp = Ok bytes ->
  (header.CanGzipFast (rpc.reqAcceptEncoding request) = false ->
   exists rw,
     rpc.ServeHTTP env r c rand request w = Done (rw, w', [])
     /\ rpc.statusOf rw = 200
     /\ rpc.respBody rw = bytes
     /\ rpc.respHeader rw !! "Content-Type" = Some "application/json; charset=utf-8"
     /\ rpc.respHeader rw !! "Content-Encoding" = None)
  /\ (header.CanGzipFast (rpc.reqAcceptEncoding request) = true ->
      forall name, htb.RandomString rand = Done name ->
      exists rw,
        rpc.ServeHTTP env r c rand request w = Done (rw, w', [])
        /\ rpc.statusOf rw = 200
        /\ rpc.respBody rw = rpc.compress name bytes
        /\ rpc.respHeader rw !! "Content-Type" = Some "application/json; charset=utf-8"
        /\ rpc.respHeader rw !! "Content-Encoding" = Some "gzip").
Proof.
  intros Hpost Hm Hcall Henc. rewrite ServeHTTP_not_options by (rewrite Hpost; reflexivity).
  cbn zeta. rewrite Hpost, Hm. cbn [negb String.eqb Ascii.eqb Bool.eqb].
  rewrite Hcall. cbn [mbind outcome_bind obind]. rewrite Henc. split.
  - intros ->. eexists. split; [reflexivity|].
    destruct c as [cs|]; cbn;
      repeat split;
      repeat (first [ apply lookup_insert_eq | apply lookup_empty
                    | rewrite lookup_insert_ne by discriminate ]).
  - intros -> name ->. cbn [mbind outcome_bind obind]. eexists. split; [reflexivity|].
    destruct c as [cs|]; cbn;
      repeat split;
      repeat (first [ apply lookup_insert_eq | apply lookup_empty
                    | rewrite lookup_insert_ne by discriminate ]).
Qed.

End Handler.

Lemma requests_to_no_method_are_refused_witness :
  (exists rw,
     @rpc.ServeHTTP onePattern hello.json plainEncoder taggedGzip hello.env helloRpc None
       countingRand
       (rpc.mkRequest "GET" "/hello/v1" "" "" (rpc.mkReader "" [] None)) hello.start
     = Done (rw, hello.start, [])
     /\ rpc.statusOf rw = 405
     /\ rpc.respBody rw = "Method Not Allowed" ++ rpc.newline
     /\ rpc.respHeader rw !! "Content-Type" = Some "text/plain; charset=utf-8")
  /\ (exists rw,
        @rpc.ServeHTTP onePattern hello.json plainEncoder taggedGzip hello.env helloRpc None
          countingRand
          (rpc.mkRequest "POST" "/hello/v9" "application/json" ""
             (rpc.mkReader (docInt "int_param" 150) [] None)) hello.start
        = Done (rw, hello.start, [])
        /\ rpc.statusOf rw = 404
        /\ rpc.respBody rw = "404 page not found" ++ rpc.newline
        /\ rpc.respHeader rw !! "Content-Type" = Some "text/plain; charset=utf-8").
Proof.
  split.
  - apply (proj1 (@requests_to_no_method_are_refused onePattern hello.json plainEncoder
                    taggedGzip hello.env helloRpc None countingRand
                    (rpc.mkRequest "GET" "/hello/v1" "" "" (rpc.mkReader "" [] None))
                    hello.start)); discriminate.
  - apply (proj2 (@requests_to_no_method_are_refused onePattern hello.json plainEncoder
                    taggedGzip hello.env helloRpc None countingRand
                    (rpc.mkRequest "POST" "/hello/v9" "application/json" ""
                       (rpc.mkReader (docInt "int_param" 150) [] None))
                    hello.start)); reflexivity.
Defined.

Lemma preflight_is_answered_by_the_CORS_settings_witness :
  @rpc.ServeHTTP onePattern hello.json plainEncoder taggedGzip hello.env helloRpc None
    countingRand (rpc.mkRequest "OPTIONS" "/hello/v1" "" "" (rpc.mkReader "" [] None))
    hello.start
  = Panic "invalid memory address or nil pointer dereference".
Proof.
  apply (@preflight_is_answered_by_the_CORS_settings onePattern hello.json plainEncoder
           taggedGzip hello.env helloRpc None countingRand
           (rpc.mkRequest "OPTIONS" "/hello/v1" "" "" (rpc.mkReader "" [] None)) hello.start).
  reflexivity.
Defined.

Lemma WithCors_leaves_the_registry_without_CORS_witness :
  (rpc.NewWithOptions "example.com/app" [rpc.WithCors "*"; rpc.WithMaxMemory 1024]).2 = None
  /\ @rpc.ServeHTTP onePattern hello.json plainEncoder taggedGzip hello.env
       (rpc.NewWithOptions "example.com/app" [rpc.WithCors "*"; rpc.WithMaxMemory 1024]).1
       (rpc.NewWithOptions "example.com/app" [rpc.WithCors "*"; rpc.WithMaxMemory 1024]).2
       countingRand (rpc.mkRequest "OPTIONS" "/" "" "" (rpc.mkReader "" [] None)) hello.start
     = Panic "invalid memory address or nil pointer dereference".
Proof.
  apply (@WithCors_leaves_the_registry_without_CORS onePattern hello.json plainEncoder
           taggedGzip hello.env "example.com/app" [rpc.WithCors "*"; rpc.WithMaxMemory 1024]
           countingRand (rpc.mkRequest "OPTIONS" "/" "" "" (rpc.mkReader "" [] None))
           hello.start).
  - apply Forall_cons. split; [left; eexists; reflexivity|].
    apply Forall_cons. split; [right; eexists; reflexivity | apply Forall_nil; exact I].
  - reflexivity.
Defined.

Lemma failed_calls_are_answered_400_or_500_witness :
  exists rw log,
    @rpc.ServeHTTP onePattern hello.json plainEncoder taggedGzip hello.env helloRpc None
      countingRand
      (rpc.mkRequest "POST" "/hello/v1" "application/json" "gzip"
         (rpc.mkReader (docInt "int_param" 99) [] None)) hello.start
    = Done (rw, hello.start, log)
    /\ rpc.respHeader rw !! "Content-Encoding" = None
    /\ rpc.statusOf rw = 400.
Proof.
  destruct (@failed_calls_are_answered_400_or_500 onePattern hello.json plainEncoder taggedGzip
              hello.env helloRpc None countingRand
              (rpc.mkRequest "POST" "/hello/v1" "application/json" "gzip"
                 (rpc.mkReader (docInt "int_param" 99) [] None)) hello.start
              hello.descV1
              (rpc.invalidJSON "int_param=99 is less than requred minimum 100") hello.start
              eq_refl ltac:(vm_compute; reflexivity) ltac:(vm_compute; reflexivity))
    as (rw & log & E & Hce & Hst & _).
  exists rw, log. auto.
Defined.

Lemma successful_calls_are_compressed_when_CanGzipFast_accepts_witness :
  exists rw name,
    htb.RandomString countingRand = Done name
    /\ @rpc.ServeHTTP onePattern hello.json plainEncoder taggedGzip hello.env helloRpc None
         countingRand
         (rpc.mkRequest "POST" "/hello/v1" "application/json" "gzip,br"
            (rpc.mkReader (docInt "int_param" 150) [] None)) hello.start
       = Done (rw, rpc.mkWorld os.healthy [hello.requestV1 150], [])
    /\ rpc.respBody rw = @rpc.compress taggedGzip name "{...}"
    /\ rpc.respHeader rw !! "Content-Encoding" = Some "gzip".
Proof.
  destruct (htb.RandomString countingRand) as [name| |] eqn:En;
    try (exfalso; vm_compute in En; discriminate En).
  destruct (proj2 (@successful_calls_are_compressed_when_CanGzipFast_accepts onePattern
                     hello.json plainEncoder taggedGzip hello.env helloRpc None countingRand
                     (rpc.mkRequest "POST" "/hello/v1" "application/json" "gzip,br"
                        (rpc.mkReader (docInt "int_param" 150) [] None)) hello.start
                     hello.descV1 _ (rpc.mkWorld os.healthy [hello.requestV1 150]) "{...}"
                     eq_refl ltac:(vm_compute; reflexivity) ltac:(vm_compute; reflexivity)
                     eq_refl)
              ltac:(vm_compute; reflexivity) name En)
    as (rw & E & _ & Hb & _ & Hce).
  exists rw, name. auto.
Defined.


(** ** Further properties: the document *)

Lemma operationOf_fields `{rpc.Regexp} env fuel r path method (schemas : gmap string openapi.Schema)
    op schemas' :
  rpc.operationOf env fuel r path method schemas = Done (op, schemas') ->
  rpc.Summary op = rpc.Caption (rpc.Method_ method)
  /\ rpc.opDescription op = rpc.Description (rpc.Method_ method)
  /\ rpc.OperationId op = strings.replaceByte "/" "_" (strings.drop 1 path)
  /\ rpc.Tags op = ["RPC methods"]
  /\ rpc.badRequestDescription op = rpc.errorsDescription (rpc.Errors method)
  /\ exists id, rpc.Request method = reflect.TPtr (reflect.TStruct id)
       /\ rpc.requestContentType op
          = if existsb (fun f => bool_decide (reflect.Typ f = rpc.fileType))
                 (reflect.sFields (reflect.structOf (rpc.docEnv env) id))
            then "multipart/form-data" else "application/json".
Proof.
  unfold rpc.operationOf.
  destruct (rpc.Request method) as [b|[b|e|e|e|k e|e|p n|p n|id]|e|e|k e|e|p n|p n|id];
    try discriminate.
  destruct (rpc.getSchema _ _ _ (reflect.TPtr (reflect.TStruct id)) _) as [[s1 st1]| |];
    cbn [mbind outcome_bind obind]; try discriminate.
  destruct (rpc.getSchema _ _ _ (rpc.Response method) _) as [[s2 st2]| |];
    cbn [mbind outcome_bind obind]; try discriminate.
  destruct (rpc.getSchema _ _ _ (reflect.TStruct rpc.errorId) _) as [[s3 st3]| |];
    cbn [mbind outcome_bind obind]; try discriminate.
  intros E. injection E as <- <-. cbn.
  repeat split. exists id. split; reflexivity.
Qed.

Lemma operationsOf_other `{rpc.Regexp} env fuel r path api : forall ms res,
  ~ In path (map fst ms) ->
  rpc.operationsOf env fuel r ms res = Done api ->
  rpc.Paths api !! path = rpc.Paths res !! path.
Proof.
  induction ms as [|[p m] ms IH]; intros res Hn E; cbn [rpc.operationsOf] in E.
  - injection E as <-. reflexivity.
  - destruct (rpc.operationOf env fuel r p m (rpc.Schemas res)) as [[op st]| |];
      cbn [mbind outcome_bind obind] in E; try discriminate.
    cbn [map fst In] in Hn. rewrite (IH _ ltac:(tauto) E). cbn [rpc.Paths].
    apply lookup_insert_ne. tauto.
Qed.

Lemma operationsOf_paths `{rpc.Regexp} env fuel r ms : forall res api,
  rpc.operationsOf env fuel r ms res = Done api ->
  NoDup (map fst ms) ->
  (forall path, is_Some (rpc.Paths api !! path)
                <-> is_Some (rpc.Paths res !! path) \/ In path (map fst ms))
  /\ (forall path method, In (path, method) ms ->
      exists op schemas schemas',
        rpc.Paths api !! path = Some op
        /\ rpc.operationOf env fuel r path method schemas = Done (op, schemas')).
Proof.
  induction ms as [|[p m] ms IH]; intros res api E Hnd; cbn [rpc.operationsOf] in E.
  - injection E as <-. split; [|intros ? ? []]. intros path. cbn [map In]. tauto.
  - destruct (rpc.operationOf env fuel r p m (rpc.Schemas res)) as [[op st]| |] eqn:Eo;
      cbn [mbind outcome_bind obind] in E; try discriminate.
    cbn [map fst] in Hnd. apply NoDup_cons in Hnd as [Hnot Hnd].
    destruct (IH _ _ E Hnd) as [Hkeys Hops]. cbn [rpc.Paths] in Hkeys.
    split.
    + intros path. rewrite Hkeys, lookup_insert_is_Some. cbn [map fst In].
      destruct (decide (p = path)); tauto.
    + intros path method [Heq | Hin].
      * injection Heq as -> ->. exists op, (rpc.Schemas res), st. split; [|exact Eo].
        assert (Hp : ~ In path (map fst ms)) by (intros Hc; apply Hnot, list_elem_of_In, Hc).
        rewrite (operationsOf_other _ _ _ _ _ _ _ Hp E). cbn [rpc.Paths].
        apply lookup_insert_eq.
      * apply (Hops _ _ Hin).
Qed.

(** X29: when [GetSwagger] returns, the document has an operation for every
    path of a registry without an empty path (on which the source would
    panic, slicing it), and for no other; the operation of
    a path carries the caption and the description of the service of its
    descriptor, the path with its slashes turned into underscores as its
    id, and the descriptor's error catalog in the description of the answer
    400. *)
Theorem GetSwagger_documents_the_registered_paths `{rpc.Regexp} env fuel r api :
  rpc.methods r !! "" = None ->
  rpc.GetSwagger env fuel r = Done api ->
  (forall path, is_Some (rpc.Paths api !! path) <-> is_Some (rpc.methods r !! path))
  /\ (forall path method, rpc.methods r !! path = Some method ->
      exists op,
        rpc.Paths api !! path = Some op
        /\ rpc.Summary op = rpc.Caption (rpc.Method_ method)
        /\ rpc.opDescription op = rpc.Description (rpc.Method_ method)
        /\ rpc.OperationId op = strings.replaceByte "/" "_" (strings.drop 1 path)
        /\ hasByte "/" (rpc.OperationId op) = false
        /\ rpc.badRequestDescription op = rpc.errorsDescription (rpc.Errors method)).
Proof.
  intros _ E. unfold rpc.GetSwagger in E.
  destruct (operationsOf_paths _ _ _ _ _ _ E (NoDup_fst_map_to_list (rpc.methods r)))
    as [Hkeys Hops].
  split.
  - intros path. rewrite Hkeys. cbn [rpc.Paths]. rewrite lookup_empty. split.
    + intros [[x Hx] | Hin]; [discriminate Hx|].
      apply in_map_iff in Hin as ([k md] & <- & Hin).
      apply list_elem_of_In, elem_of_map_to_list in Hin. cbn [fst]. eauto.
    + intros [md Hmd]. right. apply in_map_iff. exists (path, md). split; [reflexivity|].
      apply list_elem_of_In, elem_of_map_to_list, Hmd.
  - intros path method Hm.
    destruct (Hops path method) as (op & s1 & s2 & Hl & Eo).
    { apply list_elem_of_In, elem_of_map_to_list, Hm. }
    destruct (operationOf_fields _ _ _ _ _ _ _ _ Eo) as (H1 & H2 & H3 & _ & H5 & _).
    exists op. repeat split; try assumption.
    rewrite H3. apply hasByte_replaceByte_same. reflexivity.
Qed.

Lemma GetSwagger_documents_the_registered_paths_witness :
  exists api op,
    @rpc.GetSwagger onePattern hello.env 6 helloRpc = Done api
    /\ rpc.Paths api !! "/hello/v1" = Some op
    /\ rpc.OperationId op = "hello_v1"
    /\ rpc.Summary op = "Test".
Proof.
  assert (H : match @rpc.GetSwagger onePattern hello.env 6 helloRpc with
              | Done _ => true
              | _ => false
              end = true) by (vm_compute; reflexivity).
  destruct (@rpc.GetSwagger onePattern hello.env 6 helloRpc) as [api| |] eqn:E;
    try discriminate H.
  destruct (proj2 (@GetSwagger_documents_the_registered_paths onePattern hello.env 6 helloRpc
                     api ltac:(vm_compute; reflexivity) E) "/hello/v1" hello.descV1
              ltac:(vm_compute; reflexivity))
    as (op & Hl & Hs & _ & Hid & _).
  exists api, op. split; [reflexivity|]. split; [exact Hl|]. split; [exact Hid | exact Hs].
Defined.

(** ** Further properties: the TypeScript client *)

(** X30: the content type the TypeScript client posts a request with is the one
    the document declares for it, and that content type is
    multipart/form-data exactly when a field of the request struct has the
    type [File], and application/json exactly when none has. *)
Theorem client_and_document_agree_on_the_content_type `{rpc.Regexp}
    env fuel r path method (schemas : gmap string openapi.Schema) op schemas' id :
  rpc.Request method = reflect.TPtr (reflect.TStruct id) ->
  id <> rpc.errorId ->
  rpc.operationOf env fuel r path method schemas = Done (op, schemas') ->
  typescript.checkContentType env (rpc.Request method) = Done (rpc.requestContentType op)
  /\ (rpc.requestContentType op = "multipart/form-data"
      <-> exists f, In f (reflect.sFields (reflect.structOf env id))
                    /\ reflect.Typ f = rpc.fileType)
  /\ (rpc.requestContentType op = "application/json"
      <-> forall f, In f (reflect.sFields (reflect.structOf env id))
                    -> reflect.Typ f <> rpc.fileType).
Proof.
  intros Hreq Hid Eo.
  destruct (operationOf_fields _ _ _ _ _ _ _ _ Eo) as (_ & _ & _ & _ & _ & id' & Hreq' & Hct).
  rewrite Hreq in Hreq'. injection Hreq' as <-.
  rewrite Hreq, Hct. unfold typescript.checkContentType.
  unfold rpc.docEnv. cbn [reflect.structOf].
  destruct (String.eqb_spec rpc.errorId id) as [Heq|_]; [congruence|].
  destruct (existsb _ (reflect.sFields (reflect.structOf env id))) eqn:Ex.
  - apply existsb_exists in Ex as (f & Hin & Hf). apply bool_decide_eq_true in Hf.
    split; [reflexivity|]. split.
    + split; [intros _; exists f; split; assumption | reflexivity].
    + split; [discriminate|]. intros Hno. exfalso. exact (Hno f Hin Hf).
  - assert (Hno : forall f, In f (reflect.sFields (reflect.structOf env id))
                            -> reflect.Typ f <> rpc.fileType).
    { intros f Hin Hf.
      assert (Ht : existsb (fun f => bool_decide (reflect.Typ f = rpc.fileType))
                     (reflect.sFields (reflect.structOf env id)) = true).
      { apply existsb_exists. exists f. split; [exact Hin|].
        apply bool_decide_eq_true. exact Hf. }
      rewrite Ex in Ht. discriminate Ht. }
    split; [reflexivity|]. split.
    + split; [discriminate|]. intros (f & Hin & Hf). exfalso. exact (Hno f Hin Hf).
    + split; [intros _; exact Hno | reflexivity].
Qed.

Lemma client_and_document_agree_on_the_content_type_witness :
  exists op schemas',
    @rpc.operationOf onePattern hello.env 6 helloRpc "/hello/v3" hello.descV3 ∅
    = Done (op, schemas')
    /\ typescript.checkContentType hello.env (rpc.Request hello.descV3)
       = Done (rpc.requestContentType op)
    /\ rpc.requestContentType op = "multipart/form-data".
Proof.
  assert (H : match @rpc.operationOf onePattern hello.env 6 helloRpc "/hello/v3"
                      hello.descV3 ∅ with
              | Done _ => true
              | _ => false
              end = true) by (vm_compute; reflexivity).
  destruct (@rpc.operationOf onePattern hello.env 6 helloRpc "/hello/v3" hello.descV3 ∅)
    as [[op st]| |] eqn:E; try discriminate H.
  destruct (@client_and_document_agree_on_the_content_type onePattern hello.env 6 helloRpc
              "/hello/v3" hello.descV3 ∅ op st "hello.ReqV3" eq_refl
              ltac:(discriminate) E) as (Hc & Hm & _).
  exists op, st. split; [reflexivity|]. split; [exact Hc|].
  apply Hm.
  assert (Hf : match find (fun f => bool_decide (reflect.Typ f = rpc.fileType))
                       (reflect.sFields (reflect.structOf hello.env "hello.ReqV3")) with
               | Some _ => true
               | None => false
               end = true) by (vm_compute; reflexivity).
  destruct (find (fun f => bool_decide (reflect.Typ f = rpc.fileType))
              (reflect.sFields (reflect.structOf hello.env "hello.ReqV3"))) as [f|] eqn:Ef;
    [|discriminate Hf].
  apply find_some in Ef as [Hin Ht]. apply bool_decide_eq_true in Ht.
  exists f. split; assumption.
Defined.
